(** * Minecraft-Agent: decision and execution engine of [index.js]

    A shallow embedding of the goal scheduler ([Goal], [GoalSelector] and the
    four goal classes), the behavioural memory ([updateActionMemory],
    [detectStuckBehavior], [getIntelligentOverride]), the action validator
    and executor ([ACTION_JSON_SCHEMA], [doAction]) and the decision cycle
    ([executeLLMDecision]); further the rest of the registry ([removeGoal],
    [cleanupGoalSystem], [applyLLMRecommendations], [getInventorySummary]),
    the two flood fills over tree blocks ([findConnectedTreeBlocks]) and the
    tool helpers ([getBestTool], [getEstimatedDigTime]).

    Conventions of the embedding.
    - JavaScript numbers are integers ([Z]) that a double holds exactly and
      prints in full (magnitude below 2^53); sensed distances, tool tiers,
      block hardness and dig times are rationals, and so is the number read
      out of a string.
    - [Date.now()], the bot handle and every other collaborator are read
      from a [World] value passed to each operation; [botReady] says
      whether [bot.entity] is set, and the position is read only when it is.
    - [doAction], [Cycle.prepare], [executeLLMDecision] and [Loop.cycles]
      describe runs in which every [await] completes before anything else
      is scheduled.  For runs that overlap, the same code is given in the
      pieces the event loop runs without interruption: [doActionStart] and
      [doActionSettle], [cycleBegin] and [cycleResume], [actRequest].
    - Objects that are shared by reference (goals) live in a store indexed
      by reference. *)

From Stdlib Require Import ZArith QArith Lia List Bool Ascii String.
From stdpp Require Import base decidable option list gmap strings pretty sorting.

Set Warnings "-register-all".

Local Open Scope string_scope.
Local Open Scope Z_scope.

(** ** JSON values and the JavaScript conversions the code relies on *)

Module Json.

(** A JSON value as [JSON.parse] yields it.  Objects keep their properties in
    insertion order, which [JSON.stringify] observes. *)
Inductive JValue : Type :=
  | JNull
  | JBool (b : bool)
  | JNum (n : Z)
  | JStr (s : string)
  | JArr (items : list JValue)
  | JObj (fields : list (string * JValue)).

(** Property lookup in a property list ([None] is [undefined]). *)
Fixpoint assoc (k : string) (fs : list (string * JValue)) : option JValue :=
  match fs with
  | [] => None
  | (k', v) :: rest => if String.eqb k k' then Some v else assoc k rest
  end.

(** [v.k] for a value that is neither [null] nor [undefined]. *)
Definition getProp (k : string) (v : JValue) : option JValue :=
  match v with
  | JObj fs => assoc k fs
  | _ => None
  end.

(** JavaScript truthiness of a possibly undefined value. *)
Definition truthy (v : option JValue) : bool :=
  match v with
  | None | Some JNull | Some (JBool false) => false
  | Some (JNum n) => negb (n =? 0)
  | Some (JStr s) => negb (String.eqb s "")
  | Some _ => true
  end.

(** [typeof v === 'number'] *)
Definition isNumber (v : option JValue) : bool :=
  match v with Some (JNum _) => true | _ => false end.

Definition isObject (v : JValue) : bool :=
  match v with JObj _ => true | _ => false end.

(** [v === null] *)
Definition isNull (v : JValue) : bool :=
  match v with JNull => true | _ => false end.

Definition quote : string := String (ascii_of_nat 34) EmptyString.
Definition backslash : ascii := ascii_of_nat 92.

Definition hexDigit (n : nat) : ascii :=
  match n with
  | 0 => "0" | 1 => "1" | 2 => "2" | 3 => "3" | 4 => "4" | 5 => "5" | 6 => "6"
  | 7 => "7" | 8 => "8" | 9 => "9" | 10 => "a" | 11 => "b" | 12 => "c" | 13 => "d"
  | 14 => "e" | _ => "f"
  end%nat%char.

(** What [JSON.stringify] writes for one character of a string: the two-
    character escapes, [\u00XX] for the other control characters, and the
    character itself otherwise. *)
Definition escapeChar (c : ascii) : string :=
  let n := nat_of_ascii c in
  if (n =? 8)%nat then String backslash "b"
  else if (n =? 9)%nat then String backslash "t"
  else if (n =? 10)%nat then String backslash "n"
  else if (n =? 12)%nat then String backslash "f"
  else if (n =? 13)%nat then String backslash "r"
  else if (n =? 34)%nat then String backslash (String c EmptyString)
  else if (n =? 92)%nat then String backslash (String c EmptyString)
  else if (n <? 32)%nat
  then String backslash
         ("u00" ++ String (hexDigit (n / 16)) (String (hexDigit (n mod 16)) EmptyString))
  else String c EmptyString.

(** Escaping of a string literal by [JSON.stringify]. *)
Fixpoint escape (s : string) : string :=
  match s with
  | EmptyString => EmptyString
  | String c rest => escapeChar c ++ escape rest
  end.

Fixpoint joinWith (sep : string) (parts : list string) : string :=
  match parts with
  | [] => ""
  | [p] => p
  | p :: rest => p ++ sep ++ joinWith sep rest
  end.

(** [JSON.stringify v].  A number is written in full, as JavaScript does
    for integers of magnitude below 10^21. *)
Fixpoint stringify (v : JValue) : string :=
  match v with
  | JNull => "null"
  | JBool true => "true"
  | JBool false => "false"
  | JNum n => pretty n
  | JStr s => quote ++ escape s ++ quote
  | JArr items => "[" ++ joinWith "," (List.map stringify items) ++ "]"
  | JObj fields =>
      "{" ++ joinWith ","
               (List.map (fun kv => quote ++ escape (fst kv) ++ quote ++ ":" ++ stringify (snd kv))
                         fields) ++ "}"
  end.

(** The string a template literal [`${v}`] inserts for [v]. *)
Fixpoint toJsString (v : JValue) : string :=
  match v with
  | JNull => "null"
  | JBool true => "true"
  | JBool false => "false"
  | JNum n => pretty n
  | JStr s => s
  | JArr items =>
      joinWith "," (List.map (fun i => match i with JNull => "" | _ => toJsString i end) items)
  | JObj _ => "[object Object]"
  end.

Definition template (v : option JValue) : string :=
  match v with
  | None => "undefined"
  | Some x => toJsString x
  end.

(** Whether converting [v] to a string or a number returns.  A parsed
    object with an own [toString] property, which is never a function, has
    no primitive value: converting it raises a TypeError, also from inside
    an array that holds it. *)
Fixpoint printable (v : JValue) : bool :=
  match v with
  | JArr items => forallb printable items
  | JObj fields => match assoc "toString" fields with Some _ => false | None => true end
  | _ => true
  end.

(** *** Numbers out of strings

    [StringToNumber] of the language, as exact rationals: the value a string
    has when an arithmetic comparison converts it.  White space is the
    ASCII part of the language's list. *)

Inductive JsNumber : Type :=
  | NaN
  | Infinite (negative : bool)
  | Finite (q : Q).

Definition isSpace (c : ascii) : bool :=
  let n := nat_of_ascii c in
  ((n =? 9) || (n =? 10) || (n =? 11) || (n =? 12) || (n =? 13) || (n =? 32))%nat%bool.

Fixpoint trimStart (s : string) : string :=
  match s with
  | String c rest => if isSpace c then trimStart rest else s
  | EmptyString => EmptyString
  end.

Fixpoint reverseOnto (s acc : string) : string :=
  match s with
  | EmptyString => acc
  | String c rest => reverseOnto rest (String c acc)
  end.

Definition trim (s : string) : string :=
  reverseOnto (trimStart (reverseOnto (trimStart s) EmptyString)) EmptyString.

(** The value of a digit in the given base, if it is one. *)
Definition digitValue (base : Z) (c : ascii) : option Z :=
  let n := Z.of_nat (nat_of_ascii c) in
  let v := if ((48 <=? n) && (n <=? 57))%bool then Some (n - 48)
           else if ((97 <=? n) && (n <=? 102))%bool then Some (n - 87)
           else if ((65 <=? n) && (n <=? 70))%bool then Some (n - 55)
           else None in
  match v with
  | Some d => if d <? base then Some d else None
  | None => None
  end.

(** The longest prefix of digits: its value, its length and what follows. *)
Fixpoint digits (base : Z) (s : string) (value : Z) (count : nat) : Z * nat * string :=
  match s with
  | String c rest =>
      match digitValue base c with
      | Some d => digits base rest (value * base + d) (S count)
      | None => (value, count, s)
      end
  | EmptyString => (value, count, s)
  end.

(** A string of digits in the given base, and nothing else. *)
Definition allDigits (base : Z) (s : string) : JsNumber :=
  match digits base s 0 O with
  | (value, S _, EmptyString) => Finite (inject_Z value)
  | _ => NaN
  end.

(** [10^e] for any integer [e]. *)
Definition tenTo (e : Z) : Q :=
  if e <? 0 then 1 # Z.to_pos (10 ^ (- e)) else inject_Z (10 ^ e).

(** An unsigned decimal literal: digits, a fraction and an exponent, at
    least one digit before the exponent. *)
Definition unsignedDecimal (s : string) : JsNumber :=
  let '(whole, wholeCount, afterWhole) := digits 10 s 0 O in
  let '(fraction, fractionCount, afterFraction, dot) :=
    match afterWhole with
    | String "." rest =>
        let '(f, n, r) := digits 10 rest 0 O in (f, n, r, true)
    | _ => (0, O, afterWhole, false)
    end in
  let mantissa := (inject_Z whole + inject_Z fraction * tenTo (- Z.of_nat fractionCount))%Q in
  if ((wholeCount =? 0)%nat && (fractionCount =? 0)%nat)%bool then NaN
  else
    match afterFraction with
    | EmptyString => Finite mantissa
    | String e rest =>
        if (Ascii.eqb e "e" || Ascii.eqb e "E")%bool then
          let '(negative, expDigits) :=
            match rest with
            | String "-" r => (true, r)
            | String "+" r => (false, r)
            | _ => (false, rest)
            end in
          match digits 10 expDigits 0 O with
          | (exponent, S _, EmptyString) =>
              Finite (mantissa * tenTo (if negative then - exponent else exponent))%Q
          | _ => NaN
          end
        else NaN
    end.

Definition negate (n : JsNumber) : JsNumber :=
  match n with
  | NaN => NaN
  | Infinite negative => Infinite (negb negative)
  | Finite q => Finite (- q)%Q
  end.

Definition signedDecimal (s : string) : JsNumber :=
  let unsigned (u : string) :=
    if String.eqb u "Infinity" then Infinite false else unsignedDecimal u in
  match s with
  | String "-" rest => negate (unsigned rest)
  | String "+" rest => unsigned rest
  | _ => unsigned s
  end.

(** [StringToNumber(s)] *)
Definition stringToNumber (s : string) : JsNumber :=
  match trim s with
  | EmptyString => Finite 0
  | String "0" (String p rest) =>
      if (Ascii.eqb p "x" || Ascii.eqb p "X")%bool then allDigits 16 rest
      else if (Ascii.eqb p "o" || Ascii.eqb p "O")%bool then allDigits 8 rest
      else if (Ascii.eqb p "b" || Ascii.eqb p "B")%bool then allDigits 2 rest
      else signedDecimal (trim s)
  | t => signedDecimal t
  end.

(** [ToNumber(v)]: an array or object goes through the string it converts
    to. *)
Definition toNumber (v : JValue) : JsNumber :=
  match v with
  | JNull => Finite 0
  | JBool b => Finite (if b then 1 else 0)
  | JNum n => Finite (inject_Z n)
  | JStr s => stringToNumber s
  | JArr _ | JObj _ => stringToNumber (toJsString v)
  end.

(** [a < b] on rationals. *)
Definition ltQ (a b : Q) : bool := negb (Qle_bool b a).

(** [n < 0] and [n > 8] once [n] is rounded to a double: a value of
    magnitude up to 2^-1075 rounds to zero, and one up to 8 + 2^-50 to 8. *)
Definition belowZero (n : JsNumber) : bool :=
  match n with
  | NaN => false
  | Infinite negative => negative
  | Finite q => ltQ q (- (1 # Z.to_pos (2 ^ 1075)))%Q
  end.

Definition aboveEight (n : JsNumber) : bool :=
  match n with
  | NaN => false
  | Infinite negative => negb negative
  | Finite q => ltQ (8 + (1 # Z.to_pos (2 ^ 50)))%Q q
  end.

(** [s.includes(sub)] *)
Definition includes (sub s : string) : bool :=
  match String.index 0 sub s with Some _ => true | None => false end.

Definition lowerAscii (c : ascii) : ascii :=
  let n := nat_of_ascii c in
  if ((65 <=? n)%nat && (n <=? 90)%nat)%bool then ascii_of_nat (n + 32) else c.

(** [s.toLowerCase()] on ASCII text. *)
Fixpoint toLowerCase (s : string) : string :=
  match s with
  | EmptyString => EmptyString
  | String c rest => String (lowerAscii c) (toLowerCase rest)
  end.

(** [s.endsWith(suffix)] *)
Definition endsWith (suffix s : string) : bool :=
  let n := String.length s in
  let m := String.length suffix in
  ((m <=? n)%nat && String.eqb (String.substring (n - m) m s) suffix)%bool.

(** [arr.slice(start)] for an integer [start], negative counting from the end. *)
Definition slice {A : Type} (start : Z) (l : list A) : list A :=
  let len := Z.of_nat (List.length l) in
  let from := if start <? 0 then Z.max (len + start) 0 else Z.min start len in
  drop (Z.to_nat from) l.

End Json.

Export Json.

(** ** Configuration: the fields of [CONFIG] the engine reads *)

Module Config.

Record t : Type := {
  maxActions : Z;                (* autoMode.maxActions *)
  maxHistory : Z;                (* actionHistory.maxHistory *)
  actionSyncEnabled : bool;      (* actionSync.enabled *)
  behavioralOverrides : bool;    (* intelligence.behavioralOverrides *)
  stuckDetectionThreshold : Z;   (* intelligence.stuckDetectionThreshold *)
  proximityMiningDistance : Z;   (* intelligence.proximityMiningDistance *)
  explorationDistance : Z;       (* intelligence.explorationDistance *)
  proactiveActions : bool;       (* intelligence.proactiveActions *)
  memoryDepth : Z;               (* intelligence.memoryDepth *)
  maxActiveGoals : Z;            (* goalSystem.maxActiveGoals *)
  tickInterval : Z;              (* goalSystem.tickInterval *)
  goalPersistence : Z            (* goalSystem.goalPersistence *)
}.

(** The values the source file ships with. *)
Definition CONFIG : t := {|
  maxActions := 1000;
  maxHistory := 15;
  actionSyncEnabled := true;
  behavioralOverrides := true;
  stuckDetectionThreshold := 3;
  proximityMiningDistance := 3;
  explorationDistance := 30;
  proactiveActions := true;
  memoryDepth := 50;
  maxActiveGoals := 3;
  tickInterval := 100;
  goalPersistence := 30000
|}.

End Config.

Abbreviation CONFIG := Config.CONFIG.

(** ** The environment: clock, bot handle, sensors, actuator, policy source *)

Module Env.

Record Pos : Type := mkPos { px : Z; py : Z; pz : Z }.

(** [p.offset(dx, dy, dz)] on a clone. *)
Definition offset (p : Pos) (dx dy dz : Z) : Pos :=
  mkPos (px p + dx) (py p + dy) (pz p + dz).

(** Square of [a.distanceTo(b)]. *)
Definition dist2 (a b : Pos) : Z :=
  (px a - px b) * (px a - px b) + (py a - py b) * (py a - py b)
  + (pz a - pz b) * (pz a - pz b).

Record Block : Type := mkBlock { blockName : string; blockPosition : Pos }.

(** One entry of [sensorData.nearbyMobs]. *)
Record Mob : Type := mkMob { mobType : string; mobDistance : Q; isHostile : bool }.

(** One entry of [sensorData.nearbyBlocks.trees] or [.ores]. *)
Record Resource : Type := mkResource { resPosition : Pos; resType : string; resDistance : Q }.

Record Inventory : Type := mkInventory {
  wood : Z; stone : Z; food : Z; tools : Z; total : Z
}.

Record SensorData : Type := mkSensorData {
  nearbyMobs : list Mob;
  trees : list Resource;
  ores : list Resource;
  inventory : Inventory;
  health : Z;
  hunger : Z
}.

(** The action kinds of [ACTION_JSON_SCHEMA]. *)
Inductive Kind : Type :=
  | MOVE | LOOK_AT | GOTO | MINE_AT | MINE_TREE | PLACE_AT
  | ATTACK_NEAREST | SELECT_HOTBAR | EAT | CRAFT.

(** How a handler, an actuator call or a goal tick ends. *)
Inductive Outcome : Type :=
  | Completed
  | Threw (message : string).

Record World : Type := {
  now : Z;                               (* Date.now() *)
  botPosition : Pos;                     (* bot.entity.position *)
  blockAt : Pos -> option Block;         (* bot.blockAt *)
  timeOfDay : Z;                         (* bot.time.timeOfDay *)
  hasPathfinder : bool;                  (* bot.pathfinder is set *)
  sensed : SensorData;                   (* what updateSensors collects *)
  randomOffset : Z -> Z * Z;             (* rounded (cos, sin) * distance of a random direction *)
  exploreOffset : Z * Z;                 (* the random offset of ExploreGoal.generateExploreTarget *)
  attackError : option string;           (* bot.attack raises *)
  mineTreeError : option string;         (* mineTree() rejects *)
  actuate : Kind -> JValue -> Outcome;   (* the rest of a case, past its checks *)
  handlerLogs : Z;                       (* logger.logAction calls made inside a handler *)
  actionElapsed : Z;                     (* time a handler takes *)
  botReady : bool;                       (* bot.entity is set: buildObservation().ready *)
  llmReply : option JValue;              (* the JSON object found in the policy reply *)
  canDigBlock : Block -> bool;           (* bot.canDigBlock *)
  mcDataReady : bool;                    (* mcData is set *)
  itemKnown : string -> bool;            (* mcData.itemsByName[name] is truthy *)
  recipeFound : string -> JValue -> bool (* bot.recipesFor(item.id, null, 1, useTable).length *)
}.

End Env.

Export Env.

(** ** Behavioural memory: [botIntelligence] and its three operations *)

Module Memory.

(** One entry of [botIntelligence.actionMemory]. *)
Record MemoryEntry : Type := mkEntry {
  key : string;
  timestamp : Z;
  action : JValue
}.

Record BehaviorFlags : Type := mkFlags {
  isStuck : bool;
  shouldOverride : bool;
  isExploring : bool;
  isMining : bool
}.

Record ContextState : Type := mkContext {
  stuckCount : Z;
  lastOverrideTime : Z
}.

Record BotIntelligence : Type := mkIntelligence {
  actionMemory : list MemoryEntry;
  lastPositions : list (Pos * Z);
  consecutiveActions : gmap string Z;
  lastLLMDecision : option JValue;
  contextState : ContextState;
  behaviorFlags : BehaviorFlags
}.

(** The initial value of [botIntelligence]. *)
Definition botIntelligence : BotIntelligence := {|
  actionMemory := [];
  lastPositions := [];
  consecutiveActions := ∅;
  lastLLMDecision := None;
  contextState := mkContext 0 0;
  behaviorFlags := mkFlags false false false false
|}.

Definition setMemory (m : list MemoryEntry) (s : BotIntelligence) : BotIntelligence :=
  mkIntelligence m (lastPositions s) (consecutiveActions s) (lastLLMDecision s)
                 (contextState s) (behaviorFlags s).

Definition setCounts (c : gmap string Z) (s : BotIntelligence) : BotIntelligence :=
  mkIntelligence (actionMemory s) (lastPositions s) c (lastLLMDecision s)
                 (contextState s) (behaviorFlags s).

Definition setFlags (f : BehaviorFlags) (s : BotIntelligence) : BotIntelligence :=
  mkIntelligence (actionMemory s) (lastPositions s) (consecutiveActions s)
                 (lastLLMDecision s) (contextState s) f.

Definition setContext (c : ContextState) (s : BotIntelligence) : BotIntelligence :=
  mkIntelligence (actionMemory s) (lastPositions s) (consecutiveActions s)
                 (lastLLMDecision s) c (behaviorFlags s).

Definition setLastDecision (a : JValue) (s : BotIntelligence) : BotIntelligence :=
  mkIntelligence (actionMemory s) (lastPositions s) (consecutiveActions s)
                 (Some a) (contextState s) (behaviorFlags s).

Definition setPositions (l : list (Pos * Z)) (s : BotIntelligence) : BotIntelligence :=
  mkIntelligence (actionMemory s) l (consecutiveActions s)
                 (lastLLMDecision s) (contextState s) (behaviorFlags s).

(** [`${action.type}_${JSON.stringify(action.parameters || {})}`], for
    numbers within the range [stringify] writes in full. *)
Definition actionKey (a : JValue) : string :=
  let parameters := getProp "parameters" a in
  template (getProp "type" a) ++ "_"
  ++ stringify (if truthy parameters then default (JObj []) parameters else JObj []).

(** The counter update of [updateActionMemory]: the recorded key is
    incremented, every other key of the object is set to zero. *)
Definition bumpCounts (k : string) (c : gmap string Z) : gmap string Z :=
  let c1 := <[k := default 0 (c !! k) + 1]> c in
  map_imap (fun k' v => Some (if decide (k' = k) then v else 0)) c1.

(** [arr.push(x)] followed by one [arr.shift()] when longer than [cap]. *)
Definition pushCapped {A : Type} (cap : Z) (x : A) (l : list A) : list A :=
  let l1 := (l ++ [x])%list in
  if cap <? Z.of_nat (List.length l1) then drop 1 l1 else l1.

Section WithConfig.

Variable cfg : Config.t.

Definition updateActionMemory (w : World) (a : JValue) (s : BotIntelligence)
  : BotIntelligence :=
  let actionKey := actionKey a in
  let s1 := setMemory (pushCapped (Config.memoryDepth cfg)
                                  (mkEntry actionKey (now w) a) (actionMemory s)) s in
  setCounts (bumpCounts actionKey (consecutiveActions s1)) s1.

(** [actionKeys.every(key => key === actionKeys[0])] *)
Definition allSame (keys : list string) : bool :=
  forallb (fun k => match keys with
                    | [] => false
                    | k0 :: _ => String.eqb k k0
                    end) keys.

Definition detectStuckBehavior (s : BotIntelligence) : bool * BotIntelligence :=
  if negb (Config.behavioralOverrides cfg) then (false, s)
  else
    let recentActions := slice (- Config.stuckDetectionThreshold cfg) (actionMemory s) in
    if Z.of_nat (List.length recentActions) <? Config.stuckDetectionThreshold cfg
    then (false, s)
    else
      let actionKeys := List.map key recentActions in
      if allSame actionKeys then
        let f := behaviorFlags s in
        let c := contextState s in
        (true,
         setContext (mkContext (stuckCount c + 1) (lastOverrideTime c))
           (setFlags (mkFlags true (shouldOverride f) (isExploring f) (isMining f)) s))
      else (false, s).

(** The free function [isTreeBlock(block)]. *)
Definition isTreeBlock (b : option Block) : bool :=
  match b with
  | None => false
  | Some blk =>
      let name := toLowerCase (blockName blk) in
      (includes "log" name || includes "wood" name || endsWith "_log" name)%bool
  end.

(** The triple loop of [getIntelligentOverride] collecting tree blocks,
    x outermost, then y in -2..2, then z. *)
Definition scanTreeBlocks (w : World) (searchRadius : Z) : list Block :=
  let currentPos := botPosition w in
  let span := seqZ (- searchRadius) (2 * searchRadius + 1) in
  x ← span; y ← seqZ (-2) 5; z ← span;
  match blockAt w (offset currentPos x y z) with
  | Some b => if isTreeBlock (Some b) then [b] else []
  | None => []
  end.

Definition isMiningAction (a : JValue) : bool :=
  match getProp "action" a with
  | Some (JStr k) => (String.eqb k "MINE_TREE" || String.eqb k "MINE_AT")%bool
  | _ => false
  end.

(** The GOTO object both exploration branches build. *)
Definition exploreAction (w : World) : JValue :=
  let currentPos := botPosition w in
  let '(dx, dz) := randomOffset w (Config.explorationDistance cfg) in
  JObj [("action", JStr "GOTO");
        ("args", JObj [("x", JNum (px currentPos + dx));
                       ("y", JNum (py currentPos));
                       ("z", JNum (pz currentPos + dz));
                       ("radius", JNum 3)]);
        ("horizon_ms", JNum 1200)].

Definition mineTreeAction (b : Block) : JValue :=
  JObj [("action", JStr "MINE_TREE");
        ("args", JObj [("x", JNum (px (blockPosition b)));
                       ("y", JNum (py (blockPosition b)));
                       ("z", JNum (pz (blockPosition b)))]);
        ("horizon_ms", JNum 10000)].

(** "Reset stuck state": [isStuck = false] and every counter set to zero,
    after [shouldOverride], [isExploring] (when exploring) and
    [lastOverrideTime] were set. *)
Definition resetStuck (w : World) (exploring : bool) (s : BotIntelligence)
  : BotIntelligence :=
  let f := behaviorFlags s in
  let c := contextState s in
  setCounts ((fun _ : Z => 0) <$> consecutiveActions s)
    (setContext (mkContext (stuckCount c) (now w))
       (setFlags (mkFlags false true
                          (if exploring then true else isExploring f)
                          (isMining f)) s)).

Definition getIntelligentOverride (w : World) (s : BotIntelligence)
  : option JValue * BotIntelligence :=
  if (negb (Config.behavioralOverrides cfg) || negb (isStuck (behaviorFlags s)))%bool
  then (None, s)
  else
    let recentActions := slice (-5) (actionMemory s) in
    let recentMiningFailures :=
      List.filter (fun a => (isMiningAction (action a)
                             && (now w - timestamp a <? 60000))%bool) recentActions in
    if 3 <=? Z.of_nat (List.length recentMiningFailures)
    then (Some (exploreAction w), resetStuck w true s)
    else
      match scanTreeBlocks w (Config.proximityMiningDistance cfg) with
      | b :: _ => (Some (mineTreeAction b), resetStuck w false s)
      | [] =>
          if Config.proactiveActions cfg
          then (Some (exploreAction w), resetStuck w true s)
          else (None, s)
      end.

(** [updatePositionTracking] *)
Definition updatePositionTracking (w : World) (s : BotIntelligence) : BotIntelligence :=
  setPositions (pushCapped 10 (botPosition w, now w) (lastPositions s)) s.

End WithConfig.

End Memory.

(** ** The goal system: [Goal], its four subclasses and [GoalSelector] *)

Module Goals.

Inductive GoalClass : Type :=
  | GenericGoal | MineTreeGoal | SurvivalGoal | ExploreGoal | BuildShelterGoal.

(** [BuildShelterGoal.buildingPhase] *)
Inductive Phase : Type := planning | foundation | walls | roof | complete.

(** A goal object: the properties of [Goal] followed by those the
    subclasses add. *)
Record Goal : Type := mkGoal {
  cls : GoalClass;
  priority : Z;
  name : string;
  isActive : bool;
  startTime : option Z;
  lastTickTime : option Z;
  targetTree : option Resource;     (* MineTreeGoal *)
  pathStarted : bool;
  failureCount : Z;
  lastFailureTime : Z;
  targetPosition : option Pos;      (* ExploreGoal *)
  isMoving : bool;
  shelterLocation : option Pos;     (* BuildShelterGoal *)
  buildingPhase : Phase
}.

(** [new Goal(bot, priority, name)] and the subclass constructors. *)
Definition newGoal (c : GoalClass) (priority : Z) (name : string) : Goal :=
  mkGoal c priority name false None None None false 0 0 None false None planning.

Definition newMineTreeGoal : Goal := newGoal MineTreeGoal 3 "MineTreeGoal".
Definition newSurvivalGoal : Goal := newGoal SurvivalGoal 10 "SurvivalGoal".
Definition newExploreGoal : Goal := newGoal ExploreGoal 1 "ExploreGoal".
Definition newBuildShelterGoal : Goal := newGoal BuildShelterGoal 2 "BuildShelterGoal".

Definition Qltb (a b : Q) : bool := negb (Qle_bool b a).

Definition hostileMobs (sd : SensorData) : list Mob :=
  List.filter isHostile (nearbyMobs sd).

Definition isNight (w : World) : bool :=
  ((13000 <? timeOfDay w) && (timeOfDay w <? 23000))%bool.

Definition nonEmpty {A : Type} (l : list A) : bool :=
  match l with [] => false | _ => true end.

(** [MineTreeGoal.isTreeBlock(block)] *)
Definition goalIsTreeBlock (b : option Block) : bool :=
  match b with
  | None => false
  | Some blk => (includes "log" (blockName blk) || includes "wood" (blockName blk))%bool
  end.

Section Methods.

Variable w : World.
Variable sd : SensorData.   (* goalSystem.sensorData *)

Definition canUse (g : Goal) : bool :=
  match cls g with
  | GenericGoal => false
  | MineTreeGoal =>
      if negb (nonEmpty (trees sd)) then false
      else
        let timeSinceFailure := now w - lastFailureTime g in
        if ((3 <=? failureCount g) && (timeSinceFailure <? 30000))%bool then false
        else wood (inventory sd) <? 10
  | SurvivalGoal =>
      ((health sd <? 10) || (hunger sd <? 6) || nonEmpty (hostileMobs sd))%bool
  | ExploreGoal =>
      (negb (nonEmpty (trees sd)) && negb (nonEmpty (ores sd))
       && (total (inventory sd) <? 20))%bool
  | BuildShelterGoal =>
      ((isNight w || nonEmpty (hostileMobs sd))
       && (10 <=? wood (inventory sd)) && (5 <=? stone (inventory sd)))%bool
  end.

Definition canContinue (g : Goal) : bool :=
  match cls g with
  | MineTreeGoal =>
      (isActive g
       && match targetTree g with
          | None => false
          | Some t => goalIsTreeBlock (blockAt w (resPosition t))
          end)%bool
  | SurvivalGoal => canUse g
  | _ => isActive g
  end.

(** [Goal.start] *)
Definition baseStart (g : Goal) : Goal :=
  mkGoal (cls g) (priority g) (name g) true (Some (now w)) (lastTickTime g)
         (targetTree g) (pathStarted g) (failureCount g) (lastFailureTime g)
         (targetPosition g) (isMoving g) (shelterLocation g) (buildingPhase g).

(** [Goal.stop] *)
Definition baseStop (g : Goal) : Goal :=
  mkGoal (cls g) (priority g) (name g) false None (lastTickTime g)
         (targetTree g) (pathStarted g) (failureCount g) (lastFailureTime g)
         (targetPosition g) (isMoving g) (shelterLocation g) (buildingPhase g).

(** [Goal.tick] *)
Definition baseTick (g : Goal) : Goal :=
  if negb (isActive g) then g
  else mkGoal (cls g) (priority g) (name g) (isActive g) (startTime g) (Some (now w))
              (targetTree g) (pathStarted g) (failureCount g) (lastFailureTime g)
              (targetPosition g) (isMoving g) (shelterLocation g) (buildingPhase g).

Definition setMineTree (t : option Resource) (started : bool) (fc lf : Z) (g : Goal) : Goal :=
  mkGoal (cls g) (priority g) (name g) (isActive g) (startTime g) (lastTickTime g)
         t started fc lf
         (targetPosition g) (isMoving g) (shelterLocation g) (buildingPhase g).

Definition setExplore (t : option Pos) (moving : bool) (g : Goal) : Goal :=
  mkGoal (cls g) (priority g) (name g) (isActive g) (startTime g) (lastTickTime g)
         (targetTree g) (pathStarted g) (failureCount g) (lastFailureTime g)
         t moving (shelterLocation g) (buildingPhase g).

Definition setShelter (loc : option Pos) (ph : Phase) (g : Goal) : Goal :=
  mkGoal (cls g) (priority g) (name g) (isActive g) (startTime g) (lastTickTime g)
         (targetTree g) (pathStarted g) (failureCount g) (lastFailureTime g)
         (targetPosition g) (isMoving g) loc ph.

(** [start] with the subclass overrides, each of which calls [super.start()]
    first. *)
Definition start (g : Goal) : Goal :=
  let g1 := baseStart g in
  match cls g with
  | MineTreeGoal =>
      setMineTree (head (trees sd)) false (failureCount g1) (lastFailureTime g1) g1
  | ExploreGoal =>
      let '(dx, dz) := exploreOffset w in
      setExplore (Some (offset (botPosition w) dx 0 dz)) (isMoving g1) g1
  | BuildShelterGoal =>
      setShelter (Some (offset (botPosition w) 5 0 5)) (buildingPhase g1) g1
  | _ => g1
  end.

(** [stop]; the override of [MineTreeGoal] calls [super.stop()] and then
    only clears the pathfinder goal. *)
Definition stop (g : Goal) : Goal := baseStop g.

Definition getDynamicPriority (g : Goal) : Z :=
  match cls g with
  | MineTreeGoal =>
      if ((wood (inventory sd) =? 0) && nonEmpty (trees sd))%bool then 5
      else if ((wood (inventory sd) <? 5) && nonEmpty (trees sd))%bool then 4
      else priority g
  | BuildShelterGoal =>
      if (isNight w && nonEmpty (hostileMobs sd))%bool then 8
      else if (isNight w || nonEmpty (hostileMobs sd))%bool then 5
      else priority g
  | _ => priority g
  end.

(** [MineTreeGoal.tick]: an async method, so its promise is all the caller
    sees; a failed [mineTree()] is caught inside and stops the goal. *)
Definition mineTreeTick (g : Goal) : Goal :=
  let g1 := baseTick g in
  match targetTree g1 with
  | None => g1
  | Some t =>
      if dist2 (botPosition w) (resPosition t) <=? 16 then
        match mineTreeError w with
        | None =>
            stop (setMineTree (targetTree g1) (pathStarted g1) 0 (lastFailureTime g1) g1)
        | Some _ =>
            stop (setMineTree (targetTree g1) (pathStarted g1)
                              (failureCount g1 + 1) (now w) g1)
        end
      else if negb (pathStarted g1) then
        (if hasPathfinder w
         then setMineTree (targetTree g1) true (failureCount g1) (lastFailureTime g1) g1
         else g1)
      else g1
  end.

(** [SurvivalGoal.tick]; [handleCombat] calls [bot.attack] when the nearest
    hostile mob is closer than 3. *)
Definition survivalTick (g : Goal) : Outcome * Goal :=
  let g1 := baseTick g in
  let close :=
    List.filter (fun m => (isHostile m && Qltb (mobDistance m) (8 # 1))%bool)
                (nearbyMobs sd) in
  match close with
  | nearest :: _ =>
      if Qltb (mobDistance nearest) (3 # 1) then
        match attackError w with
        | Some e => (Threw e, g1)
        | None => (Completed, g1)
        end
      else (Completed, g1)
  | [] => (Completed, g1)
  end.

(** [ExploreGoal.tick] *)
Definition exploreTick (g : Goal) : Goal :=
  let g1 := baseTick g in
  let g2 :=
    match targetPosition g1 with
    | Some _ =>
        if (negb (isMoving g1) && hasPathfinder w)%bool
        then setExplore (targetPosition g1) true g1
        else g1
    | None => g1
    end in
  match targetPosition g2 with
  | Some t => if dist2 (botPosition w) t <? 9 then stop g2 else g2
  | None => g2
  end.

(** [BuildShelterGoal.tick] *)
Definition buildShelterTick (g : Goal) : Goal :=
  let g1 := baseTick g in
  match buildingPhase g1 with
  | planning => setShelter (shelterLocation g1) foundation g1
  | foundation => setShelter (shelterLocation g1) walls g1
  | walls => setShelter (shelterLocation g1) roof g1
  | roof => stop (setShelter (shelterLocation g1) complete g1)
  | complete => g1
  end.

(** [goal.tick()] as the scheduler calls it: how the call ends and the goal
    it leaves behind. *)
Definition tick (g : Goal) : Outcome * Goal :=
  match cls g with
  | GenericGoal => (Completed, baseTick g)
  | MineTreeGoal => (Completed, mineTreeTick g)
  | SurvivalGoal => survivalTick g
  | ExploreGoal => (Completed, exploreTick g)
  | BuildShelterGoal => (Completed, buildShelterTick g)
  end.

End Methods.

Section Timeout.

Variable cfg : Config.t.

(** [Goal.hasTimedOut]; [!this.startTime] holds for [null] and for 0. *)
Definition hasTimedOut (w : World) (g : Goal) : bool :=
  match startTime g with
  | None => false
  | Some t => if t =? 0 then false else Config.goalPersistence cfg <? now w - t
  end.

End Timeout.

End Goals.

(** ** [GoalSelector]: registry, active set and the scheduler tick *)

Module Selector.

Import Goals.

(** A reference to a goal object.  [goals] and [activeGoals] hold references
    to the same objects, so the objects live in [heap]. *)
Definition GoalRef : Type := nat.

Record GoalSelector : Type := mkSelector {
  heap : GoalRef -> Goal;
  goals : list GoalRef;
  activeGoals : list GoalRef;
  lastTickTime : Z;
  sensorData : SensorData
}.

(** Writing back the object behind a reference. *)
Definition upd (r : GoalRef) (g : Goal) (h : GoalRef -> Goal) : GoalRef -> Goal :=
  fun r' => if Nat.eqb r' r then g else h r'.

(** [arr.includes(goal)]: reference equality. *)
Definition includesRef (r : GoalRef) (l : list GoalRef) : bool :=
  existsb (Nat.eqb r) l.

(** Insertion of [x] behind every element that does not rank below it. *)
Fixpoint insertDesc {A : Type} (rank : A -> Z) (x : A) (l : list A) : list A :=
  match l with
  | [] => [x]
  | y :: rest => if rank y <? rank x then x :: y :: rest else y :: insertDesc rank x rest
  end.

(** [arr.sort((a, b) => rank(b) - rank(a))]: descending and stable. *)
Definition sortDesc {A : Type} (rank : A -> Z) (l : list A) : list A :=
  fold_left (fun acc x => insertDesc rank x acc) l [].

Definition initialSensorData : SensorData :=
  mkSensorData [] [] [] (mkInventory 0 0 0 0 0) 20 20.

(** [new GoalSelector(bot)] *)
Definition newGoalSelector : GoalSelector :=
  mkSelector (fun _ => newGoal GenericGoal 1 "GenericGoal") [] [] 0 initialSensorData.

(** [addGoal(goal)] for a freshly constructed goal placed at reference [r]. *)
Definition addGoal (w : World) (r : GoalRef) (g : Goal) (s : GoalSelector) : GoalSelector :=
  let h := upd r g (heap s) in
  mkSelector h
    (sortDesc (fun x => getDynamicPriority w (sensorData s) (h x)) (goals s ++ [r])%list)
    (activeGoals s) (lastTickTime s) (sensorData s).

(** The registry [initializeGoalSystem] builds. *)
Definition initializeGoalSystem (w : World) : GoalSelector :=
  addGoal w 3%nat newExploreGoal
    (addGoal w 2%nat newBuildShelterGoal
       (addGoal w 1%nat newMineTreeGoal
          (addGoal w 0%nat newSurvivalGoal newGoalSelector))).

Section Tick.

Variable cfg : Config.t.
Variable w : World.

(** The [filter] over [activeGoals]: a goal that timed out or may not
    continue is stopped and dropped. *)
Fixpoint retire (sd : SensorData) (l : list GoalRef) (h : GoalRef -> Goal)
  : list GoalRef * (GoalRef -> Goal) :=
  match l with
  | [] => ([], h)
  | r :: rest =>
      if (hasTimedOut cfg w (h r) || negb (canContinue w sd (h r)))%bool
      then retire sd rest (upd r (stop (h r)) h)
      else let '(kept, h') := retire sd rest h in (r :: kept, h')
  end.

(** The [while] loop that activates goals while there is capacity. *)
Fixpoint activate (sd : SensorData) (availableGoals active : list GoalRef)
                  (h : GoalRef -> Goal) : list GoalRef * (GoalRef -> Goal) :=
  match availableGoals with
  | [] => (active, h)
  | r :: rest =>
      if Z.of_nat (List.length active) <? Config.maxActiveGoals cfg
      then activate sd rest (active ++ [r])%list (upd r (start w sd (h r)) h)
      else (active, h)
  end.

(** [activeGoals.forEach(goal => goal.tick())]: the first exception ends the
    loop and leaves through the caller. *)
Fixpoint tickAll (sd : SensorData) (l : list GoalRef) (h : GoalRef -> Goal)
  : Outcome * (GoalRef -> Goal) :=
  match l with
  | [] => (Completed, h)
  | r :: rest =>
      match Goals.tick w sd (h r) with
      | (Completed, g') => tickAll sd rest (upd r g' h)
      | (Threw e, g') => (Threw e, upd r g' h)
      end
  end.

(** The part of [tick] before the goals are ticked: sensors, removal of
    finished goals, activation. *)
Definition removalPass (s : GoalSelector) : GoalSelector :=
  let sd := sensed w in
  let '(kept, h1) := retire sd (activeGoals s) (heap s) in
  mkSelector h1 (goals s) kept (now w) sd.

Definition activationPass (s : GoalSelector) : GoalSelector :=
  let sd := sensorData s in
  let availableGoals :=
    List.filter (fun r => (negb (includesRef r (activeGoals s))
                           && canUse w sd (heap s r))%bool) (goals s) in
  let sorted := sortDesc (fun r => getDynamicPriority w sd (heap s r)) availableGoals in
  let '(active, h2) := activate sd sorted (activeGoals s) (heap s) in
  mkSelector h2 (goals s) active (lastTickTime s) sd.

Definition tickPass (s : GoalSelector) : Outcome * GoalSelector :=
  let '(out, h3) := tickAll (sensorData s) (activeGoals s) (heap s) in
  (out, mkSelector h3 (goals s) (activeGoals s) (lastTickTime s) (sensorData s)).

(** [GoalSelector.tick] *)
Definition tick (s : GoalSelector) : Outcome * GoalSelector :=
  if now w - lastTickTime s <? Config.tickInterval cfg then (Completed, s)
  else tickPass (activationPass (removalPass s)).

End Tick.

(** Consecutive scheduler ticks, one world per timer firing; the states
    after each tick, oldest first.  The trace carries on from the state a
    tick leaves behind even when an exception left it, which covers a caller
    that catches the exception. *)
Fixpoint tickTrace (cfg : Config.t) (ws : list World) (s : GoalSelector)
  : list GoalSelector :=
  match ws with
  | [] => []
  | w :: rest => let s' := snd (tick cfg w s) in s' :: tickTrace cfg rest s'
  end.

End Selector.

(** ** Validation and execution of actions *)

Module Executor.

(** The [enum] of [ACTION_JSON_SCHEMA.properties.action]. *)
Definition kindOfString (s : string) : option Kind :=
  if String.eqb s "MOVE" then Some MOVE
  else if String.eqb s "LOOK_AT" then Some LOOK_AT
  else if String.eqb s "GOTO" then Some GOTO
  else if String.eqb s "MINE_AT" then Some MINE_AT
  else if String.eqb s "MINE_TREE" then Some MINE_TREE
  else if String.eqb s "PLACE_AT" then Some PLACE_AT
  else if String.eqb s "ATTACK_NEAREST" then Some ATTACK_NEAREST
  else if String.eqb s "SELECT_HOTBAR" then Some SELECT_HOTBAR
  else if String.eqb s "EAT" then Some EAT
  else if String.eqb s "CRAFT" then Some CRAFT
  else None.

Definition kindOf (action : option JValue) : option Kind :=
  match action with
  | Some (JStr s) => kindOfString s
  | _ => None
  end.

(** The three sub-schemas under [properties]. *)
Definition validActionProp (v : JValue) : bool :=
  match v with
  | JStr s => match kindOfString s with Some _ => true | None => false end
  | _ => false
  end.

Definition validHorizonProp (v : JValue) : bool :=
  match v with
  | JNum n => ((100 <=? n) && (n <=? 5000))%bool
  | _ => false
  end.

Definition validArgsProp (v : JValue) : bool := isObject v.

(** The validator Ajv compiles from [ACTION_JSON_SCHEMA]: an object with the
    required property [action], no property besides [action], [horizon_ms]
    and [args], and each present property meeting its sub-schema. *)
Definition validateAction (v : JValue) : bool :=
  match v with
  | JObj fields =>
      (match assoc "action" fields with Some _ => true | None => false end
       && forallb (fun kv =>
                     if String.eqb (fst kv) "action" then validActionProp (snd kv)
                     else if String.eqb (fst kv) "horizon_ms" then validHorizonProp (snd kv)
                     else if String.eqb (fst kv) "args" then validArgsProp (snd kv)
                     else false) fields)%bool
  | _ => false
  end.

(** The object [{ action, args, horizon_ms }] the executor tracks and logs.
    [crHorizon] is [None] when the clamp yields NaN. *)
Record ActionRecord : Type := mkActionRecord {
  crAction : option JValue;
  crArgs : JValue;
  crHorizon : option Z
}.

Record HistoryEntry : Type := mkHistoryEntry {
  entryTimestamp : Z;
  entryAction : ActionRecord;
  entryResult : string;
  entryError : option string;
  actionNumber : Z;
  duration : Z
}.

(** The globals of the executor, with [logger.actionCount]. *)
Record ExecState : Type := mkExecState {
  currentAction : option ActionRecord;
  actionStartTime : option Z;
  actionHistory : list HistoryEntry;
  actionCount : Z
}.

Definition initialExecState : ExecState := mkExecState None None [] 0.

(** [isActionInProgress] *)
Definition isActionInProgress (s : ExecState) : bool :=
  match currentAction s with Some _ => true | None => false end.

(** [logger.logAction] as far as the state goes. *)
Definition logAction (s : ExecState) : ExecState :=
  mkExecState (currentAction s) (actionStartTime s) (actionHistory s) (actionCount s + 1).

Definition clamp (n lo hi : Z) : Z := Z.max lo (Z.min hi n).

(** [clamp(horizon_ms || 400, 100, 5000)] after the default [horizon_ms = 400].
    A horizon that is neither a number nor a boolean is not modelled beyond
    yielding NaN; the schema admits integers only. *)
Definition clampHorizon (h : option JValue) : option Z :=
  let h1 := match h with None => Some (JNum 400) | _ => h end in
  match (if truthy h1 then h1 else Some (JNum 400)) with
  | Some (JNum n) => Some (clamp n 100 5000)
  | Some (JBool true) => Some (clamp 1 100 5000)
  | _ => None
  end.

Section WithConfig.

Variable cfg : Config.t.

(** [addToActionHistory]; the clock is read when the entry is built. *)
Definition addToActionHistory (nowMs : Z) (a : ActionRecord) (result : string)
           (error : option string) (s : ExecState) : ExecState :=
  let historyEntry :=
    mkHistoryEntry nowMs a result error
      (Z.of_nat (List.length (actionHistory s)) + 1)
      (match actionStartTime s with
       | Some t => if t =? 0 then 0 else nowMs - t
       | None => 0
       end) in
  let h1 := (actionHistory s ++ [historyEntry])%list in
  let h2 := if Config.maxHistory cfg <? Z.of_nat (List.length h1) then drop 1 h1 else h1 in
  mkExecState (currentAction s) (actionStartTime s) h2 (actionCount s).

Definition clearCurrent (s : ExecState) : ExecState :=
  mkExecState None None (actionHistory s) (actionCount s).

(** [[x,y,z].some(v => typeof v !== 'number')] *)
Definition xyzMissing (args : JValue) : bool :=
  existsb (fun k => negb (isNumber (getProp k args))) ["x"; "y"; "z"].

(** A coordinate, read after the check that it is a number. *)
Definition coord (k : string) (args : JValue) : Z :=
  match getProp k args with
  | Some (JNum n) => n
  | _ => 0
  end.

(** [`(${x}, ${y}, ${z})`] *)
Definition coordText (p : Pos) : string :=
  "(" ++ pretty (px p) ++ ", " ++ pretty (py p) ++ ", " ++ pretty (pz p) ++ ")".

(** [block ? block.name : 'null'] *)
Definition foundText (b : option Block) : string :=
  match b with
  | Some block => blockName block
  | None => "null"
  end.

(** [Math.sqrt(d2).toFixed(1)] for a sum of integer squares: the tenths
    nearest to the root. *)
Definition rootToFixed1 (d2 : Z) : string :=
  let r := Z.sqrt (100 * d2) in
  let tenths := if 100 * d2 <=? r * r + r then r else r + 1 in
  pretty (tenths / 10) ++ "." ++ pretty (tenths mod 10).

(** The message of the error a read of [bot.entity.position] raises while
    [bot.entity] is not set, and of those a read of a property of a [null]
    argument bag raises; the texts are the engine's. *)
Definition noEntity : string := "TypeError: cannot read properties of bot.entity".
Definition nullArgs : string := "TypeError: cannot read properties of null".
Definition nullPattern : string := "TypeError: cannot destructure null".

(** [slot < 0 || slot > 8] for [slot = args.slot ?? 0]. *)
Definition slotOutOfRange (args : JValue) : bool :=
  match getProp "slot" args with
  | None | Some JNull => false
  | Some (JNum n) => ((n <? 0) || (8 <? n))%bool
  | Some slot => (belowZero (toNumber slot) || aboveEight (toNumber slot))%bool
  end.

(** The checks each case of the [switch] opens with, up to its last
    [throw new Error] ahead of any call that acts on the bot: the error
    raised there, if any.  What follows in the case is [actuate]. *)
Definition checks (w : World) (k : Kind) (args : JValue) : option string :=
  let target := mkPos (coord "x" args) (coord "y" args) (coord "z" args) in
  let withXYZ (msg : string) (rest : option string) :=
    match args with
    | JNull => Some nullPattern
    | _ => if xyzMissing args then Some msg else rest
    end in
  match k with
  | MOVE | ATTACK_NEAREST =>
      match args with
      | JNull => Some nullArgs
      | _ => None
      end
  | LOOK_AT => withXYZ "LOOK_AT requires numeric x,y,z" None
  | GOTO =>
      withXYZ "GOTO requires x,y,z" (if botReady w then None else Some noEntity)
  | MINE_AT =>
      withXYZ "MINE_AT requires x,y,z"
        (match blockAt w target with
         | Some block =>
             if String.eqb (blockName block) "air"
             then Some ("No block to mine at " ++ coordText target ++ " - found: "
                        ++ foundText (Some block))
             else if negb (canDigBlock w block)
             then Some ("Cannot dig " ++ blockName block
                        ++ " - block is not diggable or out of reach")
             else if negb (botReady w) then Some noEntity
             else if 25 <? dist2 (botPosition w) target
             then Some ("Too far from block to mine (distance: "
                        ++ rootToFixed1 (dist2 (botPosition w) target) ++ ")")
             else None
         | None =>
             Some ("No block to mine at " ++ coordText target ++ " - found: "
                   ++ foundText None)
         end)
  | MINE_TREE =>
      withXYZ "MINE_TREE requires x,y,z"
        (if Memory.isTreeBlock (blockAt w target) then None
         else Some ("No tree block at " ++ coordText target ++ " - found: "
                    ++ foundText (blockAt w target)))
  | PLACE_AT =>
      withXYZ "PLACE_AT requires x,y,z"
        (match blockAt w target with
         | Some _ => None
         | None => Some "No reference block at coords"
         end)
  | SELECT_HOTBAR =>
      match args with
      | JNull => Some nullArgs
      | _ => if slotOutOfRange args then Some "slot must be 0..8" else None
      end
  | EAT => None
  | CRAFT =>
      if negb (mcDataReady w) then Some "mcData not ready"
      else
        match args with
        | JNull => Some nullPattern
        | _ =>
            let itemName := template (getProp "itemName" args) in
            if negb (itemKnown w itemName) then Some ("Unknown item: " ++ itemName)
            else if negb (recipeFound w itemName
                            (default (JBool false) (getProp "useTable" args)))
            then Some "No recipe found (maybe need crafting table)"
            else None
        end
  end.

(** The [switch] of [doAction]: the checks of the case, then the rest of
    the case. *)
Definition handler (w : World) (action : option JValue) (args : JValue) : Outcome :=
  match kindOf action with
  | Some k =>
      match checks w k args with
      | Some message => Threw message
      | None => actuate w k args
      end
  | None => Threw ("Unknown action: " ++ template action)
  end.

(** [doAction({ action, args = {}, horizon_ms = 400 })]: how the call ends
    (resolved, or rejected with the error) and the state it leaves. *)
Definition doAction (w : World) (a : JValue) (s : ExecState) : Outcome * ExecState :=
  let action := getProp "action" a in
  let args := default (JObj []) (getProp "args" a) in
  let horizon_ms := clampHorizon (getProp "horizon_ms" a) in
  let record := mkActionRecord action args horizon_ms in
  let s1 := mkExecState (Some record) (Some (now w)) (actionHistory s) (actionCount s) in
  let s2 := logAction s1 in
  let s3 := mkExecState (currentAction s2) (actionStartTime s2) (actionHistory s2)
                        (actionCount s2 + handlerLogs w) in
  let finished := now w + actionElapsed w in
  match handler w action args with
  | Completed =>
      (Completed,
       clearCurrent (addToActionHistory finished record "completed" None (logAction s3)))
  | Threw message =>
      (Threw message,
       clearCurrent (addToActionHistory finished record "failed" (Some message)
                                        (logAction s3)))
  end.

(** *** [doAction] in the two pieces it runs in *)

(** From the call to the [switch]: the record of the action, and the state
    with the action in flight and its start logged. *)
Definition doActionStart (w : World) (a : JValue) (s : ExecState)
  : ActionRecord * ExecState :=
  let record := mkActionRecord (getProp "action" a)
                               (default (JObj []) (getProp "args" a))
                               (clampHorizon (getProp "horizon_ms" a)) in
  (record,
   logAction (mkExecState (Some record) (Some (now w)) (actionHistory s) (actionCount s))).

(** From the end of the [switch] on, in the state of the globals then:
    [finished] is the clock and [logs] the number of [logAction] calls the
    handler made. *)
Definition doActionSettle (finished logs : Z) (record : ActionRecord) (outcome : Outcome)
           (s : ExecState) : ExecState :=
  let s3 := mkExecState (currentAction s) (actionStartTime s) (actionHistory s)
                        (actionCount s + logs) in
  match outcome with
  | Completed =>
      clearCurrent (addToActionHistory finished record "completed" None (logAction s3))
  | Threw message =>
      clearCurrent (addToActionHistory finished record "failed" (Some message)
                                       (logAction s3))
  end.

End WithConfig.

End Executor.

(** ** The decision cycle: [executeLLMDecision] *)

Module Cycle.

Import Memory Executor.

(** The globals one cycle reads and writes. *)
Record BotState : Type := mkBotState {
  exec : ExecState;
  intel : BotIntelligence;
  autoModeTimer : bool
}.

Definition initialBotState : BotState :=
  mkBotState initialExecState botIntelligence true.

(** What the cycle has decided once it is past every early return. *)
Inductive Step : Type :=
  | Skip (s : BotState)                  (* [return false] before any execution *)
  | Execute (a : JValue) (s : BotState). (* [await doAction(a)] is next, in state [s] *)

Section WithConfig.

Variable cfg : Config.t.

(** [executeLLMDecision] up to its call of [doAction], which both the
    override path and the policy path end with, for a cycle whose wait for
    the policy reply nothing else falls into.  While [bot.entity] is not set,
    [updatePositionTracking] raises and the [catch] of the cycle returns
    false. *)
Definition prepare (w : World) (s : BotState) : Step :=
  if Config.maxActions cfg <=? actionCount (exec s)
  then Skip (mkBotState (exec s) (intel s) false)
  else if (Config.actionSyncEnabled cfg && isActionInProgress (exec s))%bool
  then Skip s
  else if negb (botReady w) then Skip s
  else
    let i1 := updatePositionTracking w (intel s) in
    let '(_, i2) := detectStuckBehavior cfg i1 in
    match getIntelligentOverride cfg w i2 with
    | (Some intelligentOverride, i3) =>
        let i4 := setLastDecision intelligentOverride
                    (updateActionMemory cfg w intelligentOverride i3) in
        Execute intelligentOverride (mkBotState (exec s) i4 (autoModeTimer s))
    | (None, i3) =>
        let s3 := mkBotState (exec s) i3 (autoModeTimer s) in
        if negb (botReady w) then Skip s3
        else
          match llmReply w with
          | None => Skip s3
          | Some action =>
              if negb (validateAction action) then Skip s3
              else
                let i4 := setLastDecision action (updateActionMemory cfg w action i3) in
                Execute action (mkBotState (exec s) i4 (autoModeTimer s))
          end
    end.

(** [executeLLMDecision]: [true] when an action was executed to completion;
    the outer [catch] turns a rejected [doAction] into [false]. *)
Definition executeLLMDecision (w : World) (s : BotState) : bool * BotState :=
  match prepare w s with
  | Skip s' => (false, s')
  | Execute a s' =>
      match doAction cfg w a (exec s') with
      | (Completed, e) => (true, mkBotState e (intel s') (autoModeTimer s'))
      | (Threw _, e) => (false, mkBotState e (intel s') (autoModeTimer s'))
      end
  end.

(** *** The cycle in the pieces it runs in

    A cycle runs without interruption up to an [await]; while it waits,
    other cycles (the timer of [startAutoMode], [POST /decide]) and
    [POST /act] run pieces of their own. *)

(** Where a cycle is when it first gives way. *)
Inductive Began : Type :=
  | Returned (s : BotState)            (* [return false] *)
  | Calls (a : JValue) (s : BotState)  (* the override path: [doAction(a)] is called *)
  | Awaits (s : BotState).             (* the policy path: the request is sent *)

(** [executeLLMDecision] up to the [await fetch], or up to the call of
    [doAction] on the override path, which nothing separates from the test
    of the action in flight. *)
Definition cycleBegin (w : World) (s : BotState) : Began :=
  if Config.maxActions cfg <=? actionCount (exec s)
  then Returned (mkBotState (exec s) (intel s) false)
  else if (Config.actionSyncEnabled cfg && isActionInProgress (exec s))%bool
  then Returned s
  else if negb (botReady w) then Returned s
  else
    let i1 := updatePositionTracking w (intel s) in
    let '(_, i2) := detectStuckBehavior cfg i1 in
    match getIntelligentOverride cfg w i2 with
    | (Some intelligentOverride, i3) =>
        let i4 := setLastDecision intelligentOverride
                    (updateActionMemory cfg w intelligentOverride i3) in
        Calls intelligentOverride (mkBotState (exec s) i4 (autoModeTimer s))
    | (None, i3) =>
        let s3 := mkBotState (exec s) i3 (autoModeTimer s) in
        if negb (botReady w) then Returned s3 else Awaits s3
    end.

(** [executeLLMDecision] from the arrival of the reply to its call of
    [doAction]: [s] is the state of the globals then, [reply] the JSON object
    found in the reply. *)
Definition cycleResume (w : World) (reply : option JValue) (s : BotState) : Step :=
  match reply with
  | None => Skip s
  | Some action =>
      if negb (validateAction action) then Skip s
      else
        let i4 := setLastDecision action (updateActionMemory cfg w action (intel s)) in
        Execute action (mkBotState (exec s) i4 (autoModeTimer s))
  end.

(** [POST /act]: the action is validated and [doAction] is called, whatever
    is in flight. *)
Definition actRequest (a : JValue) (s : BotState) : Step :=
  if negb (validateAction a) then Skip s else Execute a s.

End WithConfig.

End Cycle.

(** ** Concrete worlds, actions and states used in examples *)

Module Examples.

Import Memory Goals Executor.

(** A bot standing at (0, 64, 0) in an empty world with nothing sensed. *)
Definition quietWorld : World := {|
  now := 1000;
  botPosition := mkPos 0 64 0;
  blockAt := fun _ => None;
  timeOfDay := 6000;
  hasPathfinder := true;
  sensed := mkSensorData [] [] [] (mkInventory 0 0 0 0 0) 20 20;
  randomOffset := fun d => (d, 0);
  exploreOffset := (20, 0);
  attackError := None;
  mineTreeError := None;
  actuate := fun _ _ => Completed;
  handlerLogs := 0;
  actionElapsed := 5;
  botReady := true;
  llmReply := None;
  canDigBlock := fun _ => true;
  mcDataReady := true;
  itemKnown := fun _ => false;
  recipeFound := fun _ _ => false
|}.

Definition atTime (t : Z) (w : World) : World :=
  Build_World t (botPosition w) (blockAt w) (timeOfDay w) (hasPathfinder w) (sensed w)
              (randomOffset w) (exploreOffset w) (attackError w) (mineTreeError w)
              (actuate w) (handlerLogs w) (actionElapsed w) (botReady w) (llmReply w)
              (canDigBlock w) (mcDataReady w) (itemKnown w) (recipeFound w).

(** The same place with an oak log one block east of the bot. *)
Definition woodedWorld : World :=
  Build_World 1000 (mkPos 0 64 0)
    (fun p => if ((px p =? 1) && (py p =? 64) && (pz p =? 0))%bool
              then Some (mkBlock "oak_log" p) else None)
    6000 true (sensed quietWorld) (fun d => (d, 0)) (20, 0) None None
    (fun _ _ => Completed) 0 5 true None
    (fun _ => true) true (fun _ => false) (fun _ _ => false).

(** [{"action":"GOTO","args":{"x":10,"y":64,"z":10}}] *)
Definition gotoAction : JValue :=
  JObj [("action", JStr "GOTO");
        ("args", JObj [("x", JNum 10); ("y", JNum 64); ("z", JNum 10)])].

(** [{"action":"GOTO","args":{}}] *)
Definition gotoNoArgs : JValue :=
  JObj [("action", JStr "GOTO"); ("args", JObj [])].

(** Three GOTO decisions recorded in a row. *)
Definition threeGotos : BotIntelligence :=
  updateActionMemory CONFIG quietWorld gotoAction
    (updateActionMemory CONFIG quietWorld gotoAction
       (updateActionMemory CONFIG quietWorld gotoAction botIntelligence)).

(** ... and the stuck check run on them. *)
Definition stuckOnGoto : BotIntelligence := snd (detectStuckBehavior CONFIG threeGotos).

(** A bot state with a MOVE still in flight since time 900. *)
Definition busyState : Cycle.BotState :=
  Cycle.mkBotState
    (mkExecState (Some (mkActionRecord (Some (JStr "MOVE")) (JObj []) (Some 400)))
                 (Some 900) [] 1)
    botIntelligence true.

(** A zombie two blocks away, and [bot.attack] raising. *)
Definition dangerWorld : World :=
  Build_World 1000 (mkPos 0 64 0) (fun _ => None) 6000 true
    (mkSensorData [mkMob "zombie" (2 # 1) true] [] [] (mkInventory 0 0 0 0 0) 20 20)
    (fun d => (d, 0)) (20, 0) (Some "attack failed") None
    (fun _ _ => Completed) 0 5 true None
    (fun _ => true) true (fun _ => false) (fun _ _ => false).

(** The registry after start-up, and after a first tick in the quiet world,
    which activates the exploration goal at time 1000. *)
Definition freshSelector : Selector.GoalSelector :=
  Selector.initializeGoalSystem quietWorld.

Definition exploringSelector : Selector.GoalSelector :=
  snd (Selector.tick CONFIG quietWorld freshSelector).

(** [{"action":"MOVE","args":{"forward":true,"ms":3000}}] *)
Definition moveAction : JValue :=
  JObj [("action", JStr "MOVE");
        ("args", JObj [("forward", JBool true); ("ms", JNum 3000)])].

(** [{"action":"EAT"}] *)
Definition eatAction : JValue := JObj [("action", JStr "EAT")].

(** A MOVE, an EAT and a GOTO decision recorded in a row. *)
Definition threeKinds : BotIntelligence :=
  updateActionMemory CONFIG quietWorld gotoAction
    (updateActionMemory CONFIG quietWorld eatAction
       (updateActionMemory CONFIG quietWorld moveAction botIntelligence)).

(** The globals when the idle bot's cycle, begun at time 1000, has sent its
    request to the policy source. *)
Definition requestSent : Cycle.BotState :=
  match Cycle.cycleBegin CONFIG quietWorld Cycle.initialBotState with
  | Cycle.Returned s | Cycle.Calls _ s | Cycle.Awaits s => s
  end.

(** ... and at time 1050, when a [POST /act] has started the three-second
    MOVE while the cycle waits. *)
Definition moveStarted : Cycle.BotState :=
  Cycle.mkBotState
    (snd (doActionStart (atTime 1050 quietWorld) moveAction (Cycle.exec requestSent)))
    (Cycle.intel requestSent) (Cycle.autoModeTimer requestSent).

End Examples.

(** ** Operation sequences on the behavioural memory *)

Module Trace.

Import Memory.

(** The operations the decision cycle applies to [botIntelligence]. *)
Inductive Op : Type :=
  | Record (w : World) (a : JValue)   (* updateActionMemory(a) *)
  | Detect                            (* detectStuckBehavior() *)
  | Override (w : World).             (* getIntelligentOverride(bot) *)

Definition step (cfg : Config.t) (s : BotIntelligence) (o : Op) : BotIntelligence :=
  match o with
  | Record w a => updateActionMemory cfg w a s
  | Detect => snd (detectStuckBehavior cfg s)
  | Override w => snd (getIntelligentOverride cfg w s)
  end.

(** The state after a sequence of operations on the initial memory. *)
Definition run (cfg : Config.t) (ops : list Op) : BotIntelligence :=
  fold_left (step cfg) ops botIntelligence.

(** The signatures recorded by a sequence, oldest first. *)
Fixpoint recordedKeys (ops : list Op) : list string :=
  match ops with
  | [] => []
  | Record _ a :: rest => actionKey a :: recordedKeys rest
  | _ :: rest => recordedKeys rest
  end.

(** The last [n] elements of a list. *)
Definition lastn {A : Type} (n : nat) (l : list A) : list A :=
  drop (List.length l - n) l.

(** A signature whose consecutive count is present and not zero. *)
Definition nonZeroAt (c : gmap string Z) (k : string) : Prop :=
  ∃ v, c !! k = Some v ∧ v ≠ 0.

Definition exactlyOneNonZero (c : gmap string Z) : Prop :=
  ∃ k, nonZeroAt c k ∧ ∀ k', nonZeroAt c k' → k' = k.

Definition atMostOneNonZero (c : gmap string Z) : Prop :=
  ∀ k1 k2, nonZeroAt c k1 → nonZeroAt c k2 → k1 = k2.

Definition allZero (c : gmap string Z) : Prop :=
  ∀ k v, c !! k = Some v → v = 0.

(** No consecutive count is negative. *)
Definition countsNonNeg (c : gmap string Z) : Prop :=
  ∀ k v, c !! k = Some v → 0 <= v.

End Trace.

(** ** Context awareness: [findNearbyTrees] and [shouldUseContextAwareDecision] *)

Module Context.

Import Memory.

(** [findNearbyTrees(botInstance, radius)]: x outermost, y in -2..2, then z. *)
Definition findNearbyTrees (w : World) (radius : Z) : list Block :=
  let currentPos := botPosition w in
  x ← seqZ (- radius) (2 * radius + 1);
  y ← seqZ (-2) 5;
  z ← seqZ (- radius) (2 * radius + 1);
  match blockAt w (offset currentPos x y z) with
  | Some b => if isTreeBlock (Some b) then [b] else []
  | None => []
  end.

(** [shouldUseContextAwareDecision(botInstance)]; [contextAwareness] is
    [CONFIG.intelligence.contextAwareness].  The last remembered action is
    tested through its [type] property. *)
Definition shouldUseContextAwareDecision (contextAwareness : bool) (cfg : Config.t)
           (w : World) (s : BotIntelligence) : bool :=
  if negb contextAwareness then false
  else
    match last (actionMemory s) with
    | Some lastAction =>
        match getProp "type" (action lastAction) with
        | Some (JStr t) =>
            if String.eqb t "GOTO"
            then match findNearbyTrees w (Config.proximityMiningDistance cfg) with
                 | [] => false
                 | _ :: _ => true
                 end
            else false
        | _ => false
        end
    | None => false
    end.

(** The world with another answer from the policy source. *)
Definition withReply (reply : option JValue) (w : World) : World :=
  Build_World (now w) (botPosition w) (blockAt w) (timeOfDay w) (hasPathfinder w)
              (sensed w) (randomOffset w) (exploreOffset w) (attackError w)
              (mineTreeError w) (actuate w) (handlerLogs w) (actionElapsed w)
              (botReady w) reply
              (canDigBlock w) (mcDataReady w) (itemKnown w) (recipeFound w).

End Context.

(** ** The rest of [GoalSelector], [cleanupGoalSystem] and [LLMGoalValidator] *)

Module Registry.

Import Goals Selector.

(** [removeGoal(goalName)] *)
Definition removeGoal (goalName : string) (s : GoalSelector) : GoalSelector :=
  let keep := fun r => negb (String.eqb (name (heap s r)) goalName) in
  mkSelector (heap s) (List.filter keep (goals s)) (List.filter keep (activeGoals s))
             (lastTickTime s) (sensorData s).

(** [activeGoals.forEach(goal => goal.stop())] *)
Definition stopAll (l : list GoalRef) (h : GoalRef -> Goal) : GoalRef -> Goal :=
  fold_left (fun h' r => upd r (stop (h' r)) h') l h.

(** [cleanupGoalSystem], as far as the selector goes: the active goals are
    stopped; neither list is touched. *)
Definition cleanupGoalSystem (s : GoalSelector) : GoalSelector :=
  mkSelector (stopAll (activeGoals s) (heap s)) (goals s) (activeGoals s)
             (lastTickTime s) (sensorData s).

Record Status : Type := mkStatus {
  statusSensorData : SensorData;
  statusActiveGoals : list (string * Z);   (* { name, priority } *)
  goalCount : Z
}.

(** [getStatus()] *)
Definition getStatus (w : World) (s : GoalSelector) : Status :=
  mkStatus (sensorData s)
           (List.map (fun r => (name (heap s r),
                                getDynamicPriority w (sensorData s) (heap s r)))
                     (activeGoals s))
           (Z.of_nat (List.length (goals s))).

Definition setPriority (p : Z) (g : Goal) : Goal :=
  mkGoal (cls g) p (name g) (isActive g) (startTime g) (Goals.lastTickTime g)
         (targetTree g) (pathStarted g) (failureCount g) (lastFailureTime g)
         (targetPosition g) (isMoving g) (shelterLocation g) (buildingPhase g).

(** *** [applyLLMRecommendations]

    [llmResponse] is whatever [JSON.parse] made of the advisor's text;
    the method reads it without validating it. *)

Definition readOfNull : string := "TypeError: Cannot read properties of null".
Definition notAFunction : string := "TypeError: is not a function".
Definition notPrimitive : string := "TypeError: Cannot convert object to primitive value".

(** [goal.priority + rec.priority_adjustment] as [Math.min] reads it: a
    sum of numbers, or the number in the string the two are joined to;
    [None] when the adjustment has no primitive value. *)
Definition addAdjustment (priority : Z) (adjustment : JValue) : option JsNumber :=
  match adjustment with
  | JNull => Some (Finite (inject_Z priority))
  | JBool b => Some (Finite (inject_Z (priority + (if b then 1 else 0))))
  | JNum n => Some (Finite (inject_Z (priority + n)))
  | JStr text => Some (stringToNumber (pretty priority ++ text))
  | JArr _ | JObj _ =>
      if printable adjustment
      then Some (stringToNumber (pretty priority ++ toJsString adjustment))
      else None
  end.

Definition isInteger (q : Q) : bool := Qnum q mod Zpos (Qden q) =? 0.

(** [Math.max(1, Math.min(10, x))] when that is an integer.  [None]: the
    result is NaN, or [x] lies strictly between 1 and 10 and is no integer
    (the double nearest to it is then the new priority). *)
Definition clampPriority (x : JsNumber) : option Z :=
  match x with
  | NaN => None
  | Infinite negative => Some (if negative then 1 else 10)
  | Finite q =>
      if Qle_bool q (1 # 1) then Some 1
      else if Qle_bool (10 # 1) q then Some 10
      else if isInteger q then Some (Qnum q / Zpos (Qden q))
      else None
  end.

(** How the callback of the [forEach] leaves one entry. *)
Inductive Entry : Type :=
  | Next (h : GoalRef -> Goal)
  | Raise (message : string) (h : GoalRef -> Goal)
  | Off (r : GoalRef) (value : JsNumber).
      (* the priority of [r] becomes NaN or a number that is no integer *)

(** [g.name === rec.goal_name] *)
Definition namedBy (rec : JValue) (g : Goal) : bool :=
  match getProp "goal_name" rec with
  | Some (JStr n) => String.eqb (name g) n
  | _ => false
  end.

(** The body of the [forEach] over the recommendations; reading
    [rec.goal_name] raises on a null entry. *)
Definition applyRecommendation (registry : list GoalRef) (h : GoalRef -> Goal)
           (rec : JValue) : Entry :=
  if isNull rec then Raise readOfNull h
  else
    match List.find (fun r => namedBy rec (h r)) registry with
    | Some r =>
        if truthy (getProp "priority_adjustment" rec) then
          match addAdjustment (priority (h r))
                              (default JNull (getProp "priority_adjustment" rec)) with
          | None => Raise notPrimitive h
          | Some value =>
              match clampPriority value with
              | Some p =>
                  let h' := upd r (setPriority p (h r)) h in
                  if printable (default JNull (getProp "reasoning" rec))
                  then Next h' else Raise notPrimitive h'
              | None => Off r value
              end
          end
        else Next h
    | None => Next h
    end.

(** [forEach]: an exception of the callback ends the loop. *)
Fixpoint forEachRecommendation (registry : list GoalRef) (h : GoalRef -> Goal)
         (recs : list JValue) : Entry :=
  match recs with
  | [] => Next h
  | rec :: rest =>
      match applyRecommendation registry h rec with
      | Next h' => forEachRecommendation registry h' rest
      | stopped => stopped
      end
  end.

(** How a call of [applyLLMRecommendations] ends. *)
Inductive Applied : Type :=
  | Finished (outcome : Outcome) (s : GoalSelector)
      (* returned or raised, with the selector as it is then *)
  | OffIntegers (r : GoalRef) (value : JsNumber).
      (* [Off] in the loop: the priorities leave the integers, and the
         call is not followed further *)

(** The value a log line inserts, [v || fallback], can be converted. *)
Definition loggable (v : option JValue) : bool :=
  if truthy v then printable (default JNull v) else true.

(** [join] on [strategic_actions]: the error it raises, if any. *)
Definition joinActions (strategic : option JValue) : option string :=
  match strategic with
  | Some (JArr actions) => if printable (JArr actions) then None else Some notPrimitive
  | _ => Some notAFunction
  end.

(** [applyLLMRecommendations(llmResponse)]; reading
    [llmResponse.goal_recommendations] raises on a null response. *)
Definition applyLLMRecommendations (w : World) (llmResponse : JValue) (s : GoalSelector)
  : Applied :=
  if isNull llmResponse then Finished (Threw readOfNull) s
  else if negb (truthy (getProp "goal_recommendations" llmResponse))
  then Finished Completed s
  else if negb (loggable (getProp "threat_level" llmResponse)
                && loggable (getProp "immediate_priority" llmResponse))
  then Finished (Threw notPrimitive) s
  else
    match getProp "goal_recommendations" llmResponse with
    | Some (JArr recs) =>
        match forEachRecommendation (goals s) (heap s) recs with
        | Next h =>
            let adjusted := mkSelector h (goals s) (activeGoals s) (lastTickTime s)
                                       (sensorData s) in
            let strategic := getProp "strategic_actions" llmResponse in
            match (if truthy strategic then joinActions strategic else None) with
            | Some message => Finished (Threw message) adjusted
            | None =>
                Finished Completed
                  (mkSelector h
                     (sortDesc (fun r => getDynamicPriority w (sensorData s) (h r))
                               (goals s))
                     (activeGoals s) (lastTickTime s) (sensorData s))
            end
        | Raise message h =>
            Finished (Threw message)
                     (mkSelector h (goals s) (activeGoals s) (lastTickTime s)
                                 (sensorData s))
        | Off r value => OffIntegers r value
        end
    | _ => Finished (Threw notAFunction) s
    end.

(** What the goal objects keep when priorities are set through
    [setPriority] with a clamped value. *)
Definition adjustedFrom (h h' : GoalRef -> Goal) : Prop :=
  forall r, (priority (h' r) = priority (h r) \/ 1 <= priority (h' r) <= 10)
            /\ isActive (h' r) = isActive (h r)
            /\ startTime (h' r) = startTime (h r)
            /\ name (h' r) = name (h r).

(** A response whose recommendations the method reads as its author meant
    them: entries that are not null, with an adjustment that is absent,
    null, a boolean or a number, and nothing without a primitive value
    where a string is made. *)
Definition plainRecommendation (rec : JValue) : bool :=
  (negb (isNull rec)
   && match getProp "priority_adjustment" rec with
      | None | Some JNull | Some (JBool _) | Some (JNum _) => true
      | _ => false
      end
   && printable (default JNull (getProp "reasoning" rec)))%bool.

Definition plainResponse (llmResponse : JValue) : bool :=
  (negb (isNull llmResponse)
   && loggable (getProp "threat_level" llmResponse)
   && loggable (getProp "immediate_priority" llmResponse)
   && match getProp "goal_recommendations" llmResponse with
      | Some (JArr recs) => forallb plainRecommendation recs
      | other => negb (truthy other)
      end
   && match getProp "strategic_actions" llmResponse with
      | Some (JArr actions) => printable (JArr actions)
      | other => negb (truthy other)
      end)%bool.

(** [getInventorySummary], over the names of [bot.inventory.items()]. *)
Definition countItem (summary : Inventory) (itemName : string) : Inventory :=
  let t := total summary + 1 in
  if (includes "log" itemName || includes "wood" itemName)%bool
  then mkInventory (wood summary + 1) (stone summary) (food summary) (tools summary) t
  else if (includes "stone" itemName || includes "cobblestone" itemName)%bool
  then mkInventory (wood summary) (stone summary + 1) (food summary) (tools summary) t
  else if (includes "bread" itemName || includes "meat" itemName)%bool
  then mkInventory (wood summary) (stone summary) (food summary + 1) (tools summary) t
  else if (includes "pickaxe" itemName || includes "axe" itemName
           || includes "shovel" itemName)%bool
  then mkInventory (wood summary) (stone summary) (food summary) (tools summary + 1) t
  else mkInventory (wood summary) (stone summary) (food summary) (tools summary) t.

Definition getInventorySummary (items : list string) : Inventory :=
  fold_left countItem items (mkInventory 0 0 0 0 0).

End Registry.

(** ** Flood fills over tree blocks *)

Module Flood.

(** The key [`${x},${y},${z}`] under which a position is remembered. *)
Definition posKey (p : Pos) : string :=
  pretty (px p) ++ "," ++ pretty (py p) ++ "," ++ pretty (pz p).

(** The 3x3x3 cube around [p] without its centre, dx outermost. *)
Definition neighbours26 (p : Pos) : list Pos :=
  dx ← [-1; 0; 1]; dy ← [-1; 0; 1]; dz ← [-1; 0; 1];
  if ((dx =? 0) && (dy =? 0) && (dz =? 0))%bool then [] else [offset p dx dy dz].

(** The [while] loop of the free function [findConnectedTreeBlocks]; [None]
    when the loop is cut off before it ends. *)
Fixpoint bfs (fuel : nat) (w : World) (maxBlocks : Z) (visited : gset string)
         (queue treeBlocks : list Pos) : option (list Pos) :=
  match fuel with
  | O => None
  | S fuel' =>
      match queue with
      | [] => Some treeBlocks
      | currentPos :: rest =>
          if negb (Z.of_nat (List.length treeBlocks) <? maxBlocks) then Some treeBlocks
          else
            let key := posKey currentPos in
            if bool_decide (key ∈ visited) then bfs fuel' w maxBlocks visited rest treeBlocks
            else
              let visited' := {[key]} ∪ visited in
              if negb (Memory.isTreeBlock (blockAt w currentPos))
              then bfs fuel' w maxBlocks visited' rest treeBlocks
              else
                bfs fuel' w maxBlocks visited'
                    (rest ++ List.filter (fun n => negb (bool_decide (posKey n ∈ visited')))
                                         (neighbours26 currentPos))%list
                    (treeBlocks ++ [currentPos])%list
      end
  end.

(** Iterations after which the loop has ended: one per queued position. *)
Definition bfsFuel (maxBlocks : Z) : nat := S (S (Z.to_nat (26 * Z.max 0 maxBlocks))).

(** [findConnectedTreeBlocks(botInstance, startPos, maxBlocks)] *)
Definition findConnectedTreeBlocks (w : World) (startPos : Pos) (maxBlocks : Z)
  : option (list Pos) :=
  bfs (bfsFuel maxBlocks) w maxBlocks ∅ [startPos] [].

(** The offsets of [MineTreeGoal.findConnectedTreeBlocks]. *)
Definition sixOffsets : list (Z * Z * Z) :=
  [(0, 1, 0); (0, -1, 0); (1, 0, 0); (-1, 0, 0); (0, 0, 1); (0, 0, -1)].

(** The [for] loop over the offsets: [recurse] is the recursive call and
    [blocks] the array the results are pushed on. *)
Fixpoint eachOffset (recurse : Pos -> gset string -> option (list Pos * gset string))
         (startPos : Pos) (offsets : list (Z * Z * Z)) (blocks : list Pos)
         (visited : gset string) : option (list Pos * gset string) :=
  match offsets with
  | [] => Some (blocks, visited)
  | (dx, dy, dz) :: more =>
      match recurse (offset startPos dx dy dz) visited with
      | Some (found, visited') =>
          eachOffset recurse startPos more (blocks ++ found)%list visited'
      | None => None
      end
  end.

(** [MineTreeGoal.findConnectedTreeBlocks(startPos, visited, maxBlocks)]:
    the blocks found and the set [visited] as the call leaves it; [fuel]
    bounds the depth of the recursion. *)
Fixpoint dfs (fuel : nat) (w : World) (maxBlocks : Z) (startPos : Pos)
         (visited : gset string) : option (list Pos * gset string) :=
  match fuel with
  | O => None
  | S fuel' =>
      let key := posKey startPos in
      if (bool_decide (key ∈ visited) || (maxBlocks <=? Z.of_nat (size visited)))%bool
      then Some ([], visited)
      else if negb (Goals.goalIsTreeBlock (blockAt w startPos)) then Some ([], visited)
      else eachOffset (dfs fuel' w maxBlocks) startPos sixOffsets [startPos]
                      ({[key]} ∪ visited)
  end.

(** The call [this.findConnectedTreeBlocks(pos)] of [mineTree], with the
    defaults [visited = new Set()] and [maxBlocks = 50]. *)
Definition goalFindConnectedTreeBlocks (w : World) (startPos : Pos) : option (list Pos) :=
  fst <$> dfs 51 w 50 startPos ∅.

(** *** Notions the facts about the two searches are stated with *)

(** No comma among the characters of [s]. *)
Fixpoint commaFree (s : string) : bool :=
  match s with
  | EmptyString => true
  | String c rest => (negb (Ascii.eqb c ",") && commaFree rest)%bool
  end.

(** The positions the given offsets lead to from [p]. *)
Definition neighboursBy (offsets : list (Z * Z * Z)) (p : Pos) : list Pos :=
  List.map (fun '(dx, dy, dz) => offset p dx dy dz) offsets.

Definition neighbours6 : Pos -> list Pos := neighboursBy sixOffsets.

(** The keys of a list of positions. *)
Definition keys (l : list Pos) : gset string := list_to_set (posKey <$> l).

(** Every element of [l] but the first is next to an earlier one. *)
Definition chained (next : Pos -> list Pos) (l : list Pos) : Prop :=
  ∀ i p, l !! S i = Some p → ∃ j q, (j <= i)%nat ∧ l !! j = Some q ∧ p ∈ next q.

(** What holds whenever the [while] loop of the free function
    [findConnectedTreeBlocks] tests its condition. *)
Record bfsInvariant (w : World) (startPos : Pos) (maxBlocks : Z)
       (visited : gset string) (queue treeBlocks : list Pos) : Prop := mkBfsInvariant {
  inv_tree : ∀ p, p ∈ treeBlocks → Memory.isTreeBlock (blockAt w p) = true;
  inv_nodup : NoDup treeBlocks;
  inv_visited : ∀ p, p ∈ treeBlocks → posKey p ∈ visited;
  inv_length : Z.of_nat (List.length treeBlocks) <= Z.max 0 maxBlocks;
  inv_queue : (treeBlocks = [] ∧ queue = [startPos])
              ∨ (∀ p, p ∈ queue → ∃ q, q ∈ treeBlocks ∧ p ∈ neighbours26 q);
  inv_head : ∀ p, treeBlocks !! 0%nat = Some p → p = startPos;
  inv_chain : chained neighbours26 treeBlocks;
  inv_seen : ∀ p, posKey p ∈ visited → Memory.isTreeBlock (blockAt w p) = true →
                  p ∈ treeBlocks;
  inv_frontier : ∀ q n, q ∈ treeBlocks → n ∈ neighbours26 q →
                        Memory.isTreeBlock (blockAt w n) = true →
                        n ∈ treeBlocks ∨ n ∈ queue;
  inv_start : startPos ∈ queue ∨ posKey startPos ∈ visited
}.

(** What the [for] loop of [MineTreeGoal.findConnectedTreeBlocks] at
    [startPos] has done when it has gone through [offsets], pushed [extra]
    and turned [visited] into [visited']. *)
Record loopResult (w : World) (maxBlocks : Z) (startPos : Pos)
       (offsets : list (Z * Z * Z)) (visited : gset string)
       (extra : list Pos) (visited' : gset string) : Prop := mkLoopResult {
  loop_visited : visited' = visited ∪ keys extra;
  loop_tree : ∀ p, p ∈ extra → Goals.goalIsTreeBlock (blockAt w p) = true;
  loop_nodup : NoDup extra;
  loop_fresh : ∀ p, p ∈ extra → posKey p ∉ visited;
  loop_size : Z.of_nat (size visited') <= Z.max (Z.of_nat (size visited)) maxBlocks;
  loop_chain : ∀ i p, extra !! i = Some p →
                 p ∈ neighboursBy offsets startPos
                 ∨ ∃ j q, (j < i)%nat ∧ extra !! j = Some q ∧ p ∈ neighbours6 q;
  loop_closed : Z.of_nat (size visited') < maxBlocks →
                (∀ n, n ∈ neighboursBy offsets startPos →
                      Goals.goalIsTreeBlock (blockAt w n) = true → posKey n ∈ visited')
                ∧ (∀ q n, q ∈ extra → n ∈ neighbours6 q →
                          Goals.goalIsTreeBlock (blockAt w n) = true →
                          posKey n ∈ visited')
}.

(** What a call of [MineTreeGoal.findConnectedTreeBlocks] at [startPos] that
    returned [found] has done to [visited]. *)
Record dfsResult (w : World) (maxBlocks : Z) (startPos : Pos) (visited : gset string)
       (found : list Pos) (visited' : gset string) : Prop := mkDfsResult {
  res_visited : visited' = visited ∪ keys found;
  res_tree : ∀ p, p ∈ found → Goals.goalIsTreeBlock (blockAt w p) = true;
  res_nodup : NoDup found;
  res_fresh : ∀ p, p ∈ found → posKey p ∉ visited;
  res_size : Z.of_nat (size visited') <= Z.max (Z.of_nat (size visited)) maxBlocks;
  res_head : ∀ p, found !! 0%nat = Some p → p = startPos;
  res_chain : chained neighbours6 found;
  res_closed : Z.of_nat (size visited') < maxBlocks →
               (Goals.goalIsTreeBlock (blockAt w startPos) = true →
                posKey startPos ∈ visited')
               ∧ (∀ q n, q ∈ found → n ∈ neighbours6 q →
                         Goals.goalIsTreeBlock (blockAt w n) = true →
                         posKey n ∈ visited')
}.

End Flood.

(** ** Auto mode: decision cycles one after another *)

Module Loop.

Import Memory Executor Cycle.

(** Cycles that run one after another, each returning before the next
    begins, one per world: the results of the cycles, oldest first, and the
    state after the last one.  (The timer of [startAutoMode] does not wait
    for a cycle; cycles that overlap are made of [cycleBegin] and
    [cycleResume].) *)
Fixpoint cycles (cfg : Config.t) (ws : list World) (s : BotState)
  : list bool * BotState :=
  match ws with
  | [] => ([], s)
  | w :: rest =>
      let '(done, s1) := executeLLMDecision cfg w s in
      let '(more, s2) := cycles cfg rest s1 in
      (done :: more, s2)
  end.

(** The actions recorded by a sequence of memory operations, oldest first. *)
Fixpoint recordedActions (ops : list Trace.Op) : list JValue :=
  match ops with
  | [] => []
  | Trace.Record _ a :: rest => a :: recordedActions rest
  | _ :: rest => recordedActions rest
  end.

(** How many cycles of a run executed an action to completion. *)
Definition executed (results : list bool) : Z :=
  Z.of_nat (List.length (List.filter (fun b : bool => b) results)).

(** The three capped buffers are within their caps. *)
Definition buffersBounded (cfg : Config.t) (s : BotState) : Prop :=
  Z.of_nat (List.length (actionMemory (intel s))) <= Config.memoryDepth cfg
  ∧ Z.of_nat (List.length (lastPositions (intel s))) <= 10
  ∧ Z.of_nat (List.length (actionHistory (exec s))) <= Config.maxHistory cfg.

(** Every remembered action has no [type] property and is stored under the
    key [updateActionMemory] computes for such an action. *)
Definition plainMemory (s : BotState) : Prop :=
  Forall (fun e => key e = "undefined_{}" ∧ getProp "type" (action e) = None)
         (actionMemory (intel s)).

(** Worlds that differ at most in what the policy source answers. *)
Definition samePolicyFree (w w' : World) : Prop :=
  ∃ reply, w' = Context.withReply reply w.

End Loop.

(** ** Invariants of the goal system *)

Module Invariants.

Import Goals Selector.

(** The start timestamp is set exactly while the goal is active. *)
Definition startTimeIffActive (g : Goal) : Prop :=
  startTime g ≠ None ↔ isActive g = true.

(** The active set is within the configured bound and inside the registry. *)
Definition activeSetOk (cfg : Config.t) (s : GoalSelector) : Prop :=
  Z.of_nat (List.length (activeGoals s)) <= Config.maxActiveGoals cfg
  ∧ ∀ r, In r (activeGoals s) → In r (goals s).

End Invariants.

(** ** Tools: [getBestTool] and [getEstimatedDigTime] *)

Module Tools.

(** An item stack of [bot.inventory.items()]; the slot tells stacks of the
    same name apart. *)
Record Item : Type := mkItem { itemName : string; itemSlot : Z }.

(** The test that puts an item into [tools]. *)
Definition isTool (item : Item) : bool :=
  (includes "pickaxe" (itemName item) || includes "axe" (itemName item)
   || includes "shovel" (itemName item) || includes "hoe" (itemName item)
   || includes "sword" (itemName item))%bool.

(** [preferredToolType] for a block name already in lower case. *)
Definition preferredToolType (blockName : string) : option string :=
  if (includes "log" blockName || includes "wood" blockName
      || includes "planks" blockName)%bool then Some "axe"
  else if (includes "stone" blockName || includes "ore" blockName
           || includes "cobblestone" blockName || includes "obsidian" blockName)%bool
  then Some "pickaxe"
  else if (includes "dirt" blockName || includes "sand" blockName
           || includes "gravel" blockName || includes "clay" blockName)%bool
  then Some "shovel"
  else None.

(** [toolTiers], in the order of its keys. *)
Definition toolTiers : list (string * Q) :=
  [("wooden", 0 # 1); ("wood", 0 # 1); ("stone", 1 # 1); ("iron", 2 # 1);
   ("diamond", 3 # 1); ("netherite", 4 # 1); ("golden", 3 # 2)].

(** The [forEach] over the keys of a table: the last key the name includes
    gives the value. *)
Definition lastMatch (table : list (string * Q)) (initial : Q) (toolName : string) : Q :=
  fold_left (fun value m => if includes (fst m) toolName then snd m else value)
            table initial.

Definition tierOf (toolName : string) : Q := lastMatch toolTiers (0 # 1) toolName.

(** [a > b] *)
Definition Qgtb (a b : Q) : bool := negb (Qle_bool a b).

(** The name the comparisons are made on. *)
Definition lowerName (tool : Item) : string := toLowerCase (itemName tool).

(** The body of the [forEach] that looks for the best tool of the preferred
    type; the state is [bestTool] and [bestToolTier]. *)
Definition considerTool (ty : string) (state : option Item * Q) (tool : Item)
  : option Item * Q :=
  if includes ty (lowerName tool)
  then if Qgtb (tierOf (lowerName tool)) (snd state)
       then (Some tool, tierOf (lowerName tool))
       else state
  else state.

Definition pickPreferred (ty : string) (tools : list Item) : option Item * Q :=
  fold_left (considerTool ty) tools (None, (-1) # 1).

(** The callback of [tools.reduce]. *)
Definition better (best current : Item) : Item :=
  if (includes "pickaxe" (lowerName current)
      && negb (includes "pickaxe" (lowerName best)))%bool then current
  else if (includes "pickaxe" (lowerName best)
           && negb (includes "pickaxe" (lowerName current)))%bool then best
  else if Qgtb (tierOf (lowerName current)) (tierOf (lowerName best)) then current
  else best.

(** [getBestTool(botInstance, block)] over the items of the inventory;
    [None] is [null]. *)
Definition getBestTool (items : list Item) (block : Block) : option Item :=
  match List.filter isTool items with
  | [] => None
  | first :: others =>
      let tools := first :: others in
      let bestTool :=
        match preferredToolType (toLowerCase (blockName block)) with
        | Some ty => fst (pickPreferred ty tools)
        | None => None
        end in
      match bestTool with
      | Some tool => Some tool
      | None => Some (fold_left better others first)
      end
  end.

(** [blockHardness] and [toolMultipliers], in the order of their keys. *)
Definition blockHardness : list (string * Q) :=
  [("oak_log", 2 # 1); ("birch_log", 2 # 1); ("spruce_log", 2 # 1); ("jungle_log", 2 # 1);
   ("acacia_log", 2 # 1); ("dark_oak_log", 2 # 1); ("mangrove_log", 2 # 1);
   ("cherry_log", 2 # 1); ("stone", 3 # 2); ("cobblestone", 2 # 1); ("dirt", 1 # 2);
   ("grass_block", 3 # 5); ("sand", 1 # 2); ("gravel", 3 # 5); ("coal_ore", 3 # 1);
   ("iron_ore", 3 # 1)].

Definition toolMultipliers : list (string * Q) :=
  [("wooden", 2 # 1); ("stone", 4 # 1); ("iron", 6 # 1); ("diamond", 8 # 1);
   ("netherite", 9 # 1); ("golden", 12 # 1)].

(** The property names an object literal inherits from [Object.prototype]:
    looked up on a table, each yields a function or an object, never
    [undefined]. *)
Definition inheritedNames : list string :=
  ["constructor"; "__proto__"; "hasOwnProperty"; "isPrototypeOf";
   "propertyIsEnumerable"; "toString"; "toLocaleString"; "valueOf";
   "__defineGetter__"; "__defineSetter__"; "__lookupGetter__"; "__lookupSetter__"].

(** What [table[key]] yields on a table written as an object literal. *)
Inductive Property : Type :=
  | Own (v : Q)   (* an entry of the literal *)
  | Inherited     (* a function or an object of [Object.prototype] *)
  | Absent.       (* [undefined] *)

Fixpoint ownEntry (table : list (string * Q)) (key : string) : option Q :=
  match table with
  | [] => None
  | (k, v) :: rest => if String.eqb key k then Some v else ownEntry rest key
  end.

Definition property (table : list (string * Q)) (key : string) : Property :=
  match ownEntry table key with
  | Some v => Own v
  | None => if existsb (String.eqb key) inheritedNames then Inherited else Absent
  end.

(** [table[key] || fallback] as the number arithmetic makes of it: [None]
    is NaN, which is what a function or an object gives. *)
Definition entryOr (table : list (string * Q)) (key : string) (fallback : Q) : option Q :=
  match property table key with
  | Own v => Some (if Qeq_bool v (0 # 1) then fallback else v)
  | Inherited => None
  | Absent => Some fallback
  end.

(** [Math.max(a, b)] *)
Definition maxQ (a b : Q) : Q := if Qle_bool a b then b else a.

(** [getEstimatedDigTime(block, heldItem)], in milliseconds; [None] is NaN,
    which [Math.max] hands on. *)
Definition getEstimatedDigTime (block : Block) (heldItem : option Item) : option Q :=
  let multiplier :=
    match heldItem with
    | Some item => lastMatch toolMultipliers (1 # 1) (lowerName item)
    | None => 1 # 1
    end in
  match entryOr blockHardness (blockName block) (1 # 1) with
  | Some baseTime => Some (maxQ ((baseTime / multiplier) * (1000 # 1))%Q (250 # 1))
  | None => None
  end.

(** The timeout the tree-mining loop of [doAction] derives from the
    estimate: the fallback for an estimate that is NaN, zero or negative
    ([!digTime || digTime <= 0]), then [Math.max(digTime * 2, 5000)]. *)
Definition digTimeout (block : Block) (heldItem : option Item) : Q :=
  let fallback := if includes "log" (blockName block) then 3000 # 1 else 5000 # 1 in
  let digTime :=
    match getEstimatedDigTime block heldItem with
    | Some estimate => if Qle_bool estimate (0 # 1) then fallback else estimate
    | None => fallback
    end in
  maxQ (digTime * (2 # 1))%Q (5000 # 1).

End Tools.

(** ** Goal objects over time *)

Module Lifecycle.

Import Goals Selector Invariants.

(** Every goal object keeps its start timestamp in step with [isActive],
    and every goal that is running is in the active set. *)
Definition storeOk (s : GoalSelector) : Prop :=
  (∀ r, startTimeIffActive (heap s r))
  ∧ (∀ r, isActive (heap s r) = true → In r (activeGoals s)).

(** Consecutive calls of [goal.tick()], one per world and sensor reading. *)
Definition ticks (ts : list (World * SensorData)) (g : Goal) : Goal :=
  fold_left (fun g' t => snd (Goals.tick (fst t) (snd t) g')) ts g.

End Lifecycle.

(** ** Further scenarios *)

Module Scenarios.

Import Memory Goals Executor Cycle Examples.

(** The quiet world with the policy source answering a GOTO. *)
Definition repliedWorld : World := Context.withReply (Some gotoAction) quietWorld.

(** The log of [woodedWorld]. *)
Definition oakLog : Block := mkBlock "oak_log" (mkPos 1 64 0).

(** [{"goal_recommendations":[{"goal_name":"ExploreGoal",
    "priority_adjustment":a}]}] *)
Definition adviceFor (adjustment : JValue) : JValue :=
  JObj [("goal_recommendations",
         JArr [JObj [("goal_name", JStr "ExploreGoal");
                     ("priority_adjustment", adjustment)]])].

(** Advice with a null entry between two adjustments. *)
Definition adviceWithNull : JValue :=
  JObj [("goal_recommendations",
         JArr [JObj [("goal_name", JStr "ExploreGoal"); ("priority_adjustment", JNum 2)];
               JNull;
               JObj [("goal_name", JStr "MineTreeGoal"); ("priority_adjustment", JNum 5)]])].

(** The selector a finished call leaves. *)
Definition selectorOf (a : Registry.Applied) (s : Selector.GoalSelector)
  : Selector.GoalSelector :=
  match a with
  | Registry.Finished _ s' => s'
  | Registry.OffIntegers _ _ => s
  end.

(** An idle bot that has recorded three GOTO decisions. *)
Definition afterThreeGotos : BotState := mkBotState initialExecState threeGotos true.

(** The state a step hands on. *)
Definition stateOf (st : Step) : BotState :=
  match st with
  | Skip s => s
  | Execute _ s => s
  end.

(** Four goal ticks in the quiet world. *)
Definition fourTicks : list (World * SensorData) :=
  [(quietWorld, sensed quietWorld); (quietWorld, sensed quietWorld);
   (quietWorld, sensed quietWorld); (quietWorld, sensed quietWorld)].

End Scenarios.

(** * Facts *)

Import Memory Executor Cycle Trace Examples.

(** ** Lists and the capped buffers *)

Section ListFacts.

Context {A : Type}.

Lemma lastn_length (n : nat) (l : list A) :
  List.length (lastn n l) = Nat.min n (List.length l).
Proof. unfold lastn. rewrite length_drop. lia. Qed.

Lemma lastn_all (n : nat) (l : list A) :
  (List.length l <= n)%nat → lastn n l = l.
Proof.
  intros H. unfold lastn.
  replace (List.length l - n)%nat with 0%nat by lia. reflexivity.
Qed.

Lemma lastn_lastn (n m : nat) (l : list A) :
  (n <= m)%nat → lastn n (lastn m l) = lastn n l.
Proof.
  intros H. unfold lastn. rewrite length_drop, drop_drop.
  f_equal. lia.
Qed.

Lemma lastn_snoc (n : nat) (l : list A) (x : A) :
  lastn (S n) (l ++ [x])%list = (lastn n l ++ [x])%list.
Proof.
  unfold lastn. rewrite length_app. simpl.
  replace (List.length l + 1 - S n)%nat with (List.length l - n)%nat by lia.
  rewrite drop_app_le by lia. reflexivity.
Qed.

(** Pushing onto a buffer that holds the last [d] items keeps it so. *)
Lemma pushCapped_lastn (d : Z) (l : list A) (x : A) :
  0 <= d →
  pushCapped d x (lastn (Z.to_nat d) l) = lastn (Z.to_nat d) (l ++ [x])%list.
Proof.
  intros Hd. unfold pushCapped.
  rewrite length_app, lastn_length. simpl.
  destruct (Z.ltb_spec d (Z.of_nat (Nat.min (Z.to_nat d) (List.length l) + 1))) as [Hlt | Hge].
  - assert (Hlen : (Z.to_nat d <= List.length l)%nat) by lia.
    unfold lastn. rewrite length_app. simpl.
    rewrite <- drop_app_le by lia.
    rewrite drop_drop. f_equal. lia.
  - assert (Hlen : (List.length l < Z.to_nat d)%nat) by lia.
    rewrite (lastn_all _ l) by lia.
    rewrite lastn_all; [reflexivity | rewrite length_app; simpl; lia].
Qed.

(** [slice(-n)] keeps the last [n] items when [n] is positive. *)
Lemma slice_neg_lastn (n : Z) (l : list A) :
  0 < n → slice (- n) l = lastn (Z.to_nat n) l.
Proof.
  intros Hn. unfold slice, lastn.
  destruct (Z.ltb_spec (- n) 0); [| lia].
  f_equal. lia.
Qed.

Lemma pushCapped_last (d : Z) (l : list A) (x : A) :
  1 <= d → ∃ l', pushCapped d x l = (l' ++ [x])%list.
Proof.
  intros Hd. unfold pushCapped.
  destruct (d <? Z.of_nat (List.length (l ++ [x])%list)) eqn:E.
  - destruct l as [| y l]; simpl in *.
    + apply Z.ltb_lt in E. lia.
    + exists l. reflexivity.
  - exists l. reflexivity.
Qed.

(** [slice] with a negative literal. *)
Lemma slice_negative (p : positive) (l : list A) :
  slice (Z.neg p) l = lastn (Pos.to_nat p) l.
Proof.
  change (Z.neg p) with (- Z.pos p). rewrite slice_neg_lastn by lia.
  rewrite Z2Nat.inj_pos. reflexivity.
Qed.

Lemma lastn_app (n : nat) (l m : list A) :
  lastn (n + List.length m) (l ++ m)%list = (lastn n l ++ m)%list.
Proof.
  unfold lastn. rewrite length_app.
  replace (List.length l + List.length m - (n + List.length m))%nat
    with (List.length l - n)%nat by lia.
  rewrite drop_app_le by lia. reflexivity.
Qed.

(** Items a filter rejects do not count. *)
Lemma filter_app_rejected (f : A → bool) (l m : list A) :
  (∀ x, In x m → f x = false) →
  List.filter f (l ++ m)%list = List.filter f l.
Proof.
  intros Hm. rewrite List.filter_app.
  assert (Hnil : List.filter f m = []).
  { induction m as [| y m IH]; [reflexivity |].
    simpl. rewrite (Hm y) by (left; reflexivity).
    apply IH. intros x Hx. apply Hm. right. exact Hx. }
  rewrite Hnil. apply app_nil_r.
Qed.

End ListFacts.

(** ** Behavioural memory *)

Section MemoryFacts.

Variable cfg : Config.t.

Lemma bumpCounts_self (k : string) (c : gmap string Z) :
  bumpCounts k c !! k = Some (default 0 (c !! k) + 1).
Proof.
  unfold bumpCounts. rewrite map_lookup_imap, lookup_insert_eq. simpl.
  rewrite decide_True by reflexivity. reflexivity.
Qed.

Lemma bumpCounts_other (k k' : string) (c : gmap string Z) :
  k' ≠ k → bumpCounts k c !! k' = (fun _ => 0) <$> (c !! k').
Proof.
  intros Hne. unfold bumpCounts.
  rewrite map_lookup_imap, lookup_insert_ne by congruence.
  destruct (c !! k') as [v |]; simpl; [| reflexivity].
  rewrite decide_False by assumption. reflexivity.
Qed.

Lemma bumpCounts_nonNeg (k : string) (c : gmap string Z) :
  countsNonNeg c → countsNonNeg (bumpCounts k c).
Proof.
  intros Hc k' v Hk'.
  destruct (decide (k' = k)) as [-> | Hne].
  - rewrite bumpCounts_self in Hk'. injection Hk' as <-.
    destruct (c !! k) as [v0 |] eqn:E; simpl; [| lia].
    specialize (Hc _ _ E). lia.
  - rewrite bumpCounts_other in Hk' by assumption.
    destruct (c !! k'); simpl in Hk'; [| discriminate].
    injection Hk' as <-. lia.
Qed.

Lemma bumpCounts_exactlyOne (k : string) (c : gmap string Z) :
  countsNonNeg c → exactlyOneNonZero (bumpCounts k c).
Proof.
  intros Hc. exists k. split.
  - exists (default 0 (c !! k) + 1). split; [apply bumpCounts_self |].
    destruct (c !! k) as [v0 |] eqn:E; simpl; [| lia].
    specialize (Hc _ _ E). lia.
  - intros k' [v [Hk' Hv]].
    destruct (decide (k' = k)) as [| Hne]; [assumption |].
    rewrite bumpCounts_other in Hk' by assumption.
    destruct (c !! k'); simpl in Hk'; [| discriminate].
    injection Hk' as <-. contradiction.
Qed.

Lemma exactlyOne_atMostOne (c : gmap string Z) :
  exactlyOneNonZero c → atMostOneNonZero c.
Proof.
  intros [k [_ Huniq]] k1 k2 H1 H2.
  rewrite (Huniq _ H1), (Huniq _ H2). reflexivity.
Qed.

Lemma allZero_atMostOne (c : gmap string Z) : allZero c → atMostOneNonZero c.
Proof.
  intros Hz k1 k2 [v [Hk Hv]] _. specialize (Hz _ _ Hk). contradiction.
Qed.

Lemma allZero_not_exactlyOne (c : gmap string Z) : allZero c → ¬ exactlyOneNonZero c.
Proof.
  intros Hz [k [[v [Hk Hv]] _]]. specialize (Hz _ _ Hk). contradiction.
Qed.

Lemma zeroed_allZero (c : gmap string Z) : allZero ((fun _ : Z => 0) <$> c).
Proof.
  intros k v Hk. rewrite lookup_fmap in Hk.
  destruct (c !! k); simpl in Hk; [| discriminate].
  injection Hk as <-. reflexivity.
Qed.

Lemma allZero_nonNeg (c : gmap string Z) : allZero c → countsNonNeg c.
Proof. intros Hz k v Hk. rewrite (Hz _ _ Hk). lia. Qed.

Lemma resetStuck_counts (w : World) (b : bool) (s : BotIntelligence) :
  consecutiveActions (resetStuck w b s) = (fun _ : Z => 0) <$> consecutiveActions s.
Proof. reflexivity. Qed.

Lemma resetStuck_flag (w : World) (b : bool) (s : BotIntelligence) :
  isStuck (behaviorFlags (resetStuck w b s)) = false.
Proof. reflexivity. Qed.

Lemma resetStuck_memory (w : World) (b : bool) (s : BotIntelligence) :
  actionMemory (resetStuck w b s) = actionMemory s.
Proof. reflexivity. Qed.

(** The override either leaves the state alone and proposes nothing, or
    proposes an action and resets the stuck state. *)
Lemma override_cases (w : World) (s : BotIntelligence) :
  getIntelligentOverride cfg w s = (None, s)
  ∨ ∃ a b, getIntelligentOverride cfg w s = (Some a, resetStuck w b s).
Proof.
  unfold getIntelligentOverride.
  destruct (negb (Config.behavioralOverrides cfg) || negb (isStuck (behaviorFlags s)))%bool;
    [left; reflexivity |].
  destruct (3 <=? _); [right; eauto |].
  destruct (scanTreeBlocks w _); [| right; eauto].
  destruct (Config.proactiveActions cfg); [right; eauto | left; reflexivity].
Qed.

Lemma detect_counts (s : BotIntelligence) :
  consecutiveActions (snd (detectStuckBehavior cfg s)) = consecutiveActions s.
Proof.
  unfold detectStuckBehavior.
  destruct (negb _); [reflexivity |].
  destruct (_ <? _); [reflexivity |].
  destruct (allSame _); reflexivity.
Qed.

Lemma detect_memory (s : BotIntelligence) :
  actionMemory (snd (detectStuckBehavior cfg s)) = actionMemory s.
Proof.
  unfold detectStuckBehavior.
  destruct (negb _); [reflexivity |].
  destruct (_ <? _); [reflexivity |].
  destruct (allSame _); reflexivity.
Qed.

Lemma override_memory (w : World) (s : BotIntelligence) :
  actionMemory (snd (getIntelligentOverride cfg w s)) = actionMemory s.
Proof.
  destruct (override_cases w s) as [-> | [a [b ->]]]; reflexivity.
Qed.

(** Counts stay non-negative, and at most one is non-zero, along every
    sequence of operations. *)
Lemma run_counts (ops : list Op) :
  countsNonNeg (consecutiveActions (run cfg ops))
  ∧ atMostOneNonZero (consecutiveActions (run cfg ops)).
Proof.
  induction ops as [| o ops IH] using rev_ind.
  - split; [intros k v Hk | intros k1 k2 [v [Hk _]]];
      unfold run in Hk; simpl in Hk; rewrite lookup_empty in Hk; discriminate.
  - unfold run in *. rewrite fold_left_app. simpl.
    set (s := fold_left (step cfg) ops botIntelligence) in *.
    destruct IH as [Hnn Hone].
    destruct o as [w a | | w]; simpl.
    + split.
      * apply bumpCounts_nonNeg. exact Hnn.
      * apply exactlyOne_atMostOne, bumpCounts_exactlyOne. exact Hnn.
    + rewrite detect_counts. split; assumption.
    + destruct (override_cases w s) as [-> | [a [b ->]]]; [split; assumption |].
      simpl. split.
      * apply allZero_nonNeg, zeroed_allZero.
      * apply allZero_atMostOne, zeroed_allZero.
Qed.

Lemma recordedKeys_app (ops1 ops2 : list Op) :
  recordedKeys (ops1 ++ ops2) = (recordedKeys ops1 ++ recordedKeys ops2)%list.
Proof.
  induction ops1 as [| [w a | | w] ops1 IH]; simpl; [reflexivity | | assumption | assumption].
  rewrite IH. reflexivity.
Qed.

(** The buffer holds the last [memoryDepth] recorded signatures. *)
Lemma run_memory (ops : list Op) :
  0 <= Config.memoryDepth cfg →
  List.map key (actionMemory (run cfg ops))
  = lastn (Z.to_nat (Config.memoryDepth cfg)) (recordedKeys ops).
Proof.
  intros Hd.
  assert (Hgen : ∃ entries,
             actionMemory (run cfg ops) = lastn (Z.to_nat (Config.memoryDepth cfg)) entries
             ∧ List.map key entries = recordedKeys ops).
  { induction ops as [| o ops IH] using rev_ind.
    - exists []. split; reflexivity.
    - destruct IH as [entries [Hmem Hkeys]].
      unfold run in *. rewrite fold_left_app. simpl.
      set (s := fold_left (step cfg) ops botIntelligence) in *.
      rewrite recordedKeys_app.
      destruct o as [w a | | w]; simpl.
      + exists (entries ++ [mkEntry (actionKey a) (now w) a])%list. split.
        * rewrite Hmem. apply pushCapped_lastn. exact Hd.
        * rewrite map_app, Hkeys. reflexivity.
      + exists entries. rewrite detect_memory, app_nil_r. split; assumption.
      + exists entries. rewrite override_memory, app_nil_r. split; assumption. }
  destruct Hgen as [entries [Hmem Hkeys]].
  rewrite Hmem, <- Hkeys. unfold lastn.
  rewrite length_map. symmetry. apply skipn_map.
Qed.

Lemma allSame_replicate (l : list string) :
  allSame l = true ↔ ∃ k, l = replicate (List.length l) k.
Proof.
  unfold allSame. destruct l as [| k0 l].
  - simpl. split; [intros _; exists ""; reflexivity | reflexivity].
  - rewrite forallb_forall. split.
    + intros H. exists k0. simpl. f_equal.
      assert (Hall : ∀ x, In x l → x = k0).
      { intros x Hx. apply String.eqb_eq. apply H. right. exact Hx. }
      clear H. induction l as [| y l IH]; [reflexivity |].
      simpl. rewrite (Hall y) by (left; reflexivity).
      f_equal. apply IH. intros x Hx. apply Hall. right. exact Hx.
    + intros [k Hk] x Hx. apply String.eqb_eq.
      simpl in Hk. injection Hk as Hk0 Hl. subst k.
      destruct Hx as [-> | Hx]; [reflexivity |].
      rewrite Hl in Hx. apply list_elem_of_In, elem_of_replicate in Hx.
      tauto.
Qed.

(** What the stuck check returns, in terms of the buffer. *)
Lemma detect_result (s : BotIntelligence) :
  Config.behavioralOverrides cfg = true →
  0 < Config.stuckDetectionThreshold cfg →
  let n := Z.to_nat (Config.stuckDetectionThreshold cfg) in
  fst (detectStuckBehavior cfg s) = true
  ↔ (n <= List.length (actionMemory s))%nat
    ∧ ∃ k, lastn n (List.map key (actionMemory s)) = replicate n k.
Proof.
  intros Hon Hn n. unfold detectStuckBehavior. rewrite Hon. simpl.
  rewrite slice_neg_lastn by assumption. fold n.
  assert (Hmap : List.map key (lastn n (actionMemory s))
                 = lastn n (List.map key (actionMemory s))).
  { unfold lastn. rewrite length_map. symmetry. apply skipn_map. }
  destruct (Z.ltb_spec (Z.of_nat (List.length (lastn n (actionMemory s))))
                       (Config.stuckDetectionThreshold cfg)) as [Hlt | Hge];
    rewrite lastn_length in *.
  - simpl. split; [discriminate | intros [Hlen _]; lia].
  - assert (Hlen : (n <= List.length (actionMemory s))%nat) by lia.
    rewrite Hmap.
    destruct (allSame (lastn n (List.map key (actionMemory s)))) eqn:E; simpl.
    + split; [intros _ | reflexivity]. split; [exact Hlen |].
      apply allSame_replicate in E. destruct E as [k Hk]. exists k.
      rewrite lastn_length, length_map in Hk.
      replace (Nat.min n (List.length (actionMemory s))) with n in Hk by lia.
      exact Hk.
    + split; [discriminate |]. intros [_ [k Hk]].
      assert (Htrue : allSame (lastn n (List.map key (actionMemory s))) = true).
      { apply allSame_replicate. exists k.
        rewrite lastn_length, length_map.
        replace (Nat.min n (List.length (actionMemory s))) with n by lia.
        exact Hk. }
      congruence.
Qed.

End MemoryFacts.

Section MemoryClaims.

Variable cfg : Config.t.

Lemma pushCapped_keeps_suffix {A : Type} (d : Z) (x : A) (l suffix : list A) :
  Z.of_nat (List.length suffix) < d →
  ∃ l', pushCapped d x (l ++ suffix)%list = (l' ++ suffix ++ [x])%list.
Proof.
  intros Hd. unfold pushCapped.
  destruct (Z.ltb_spec d (Z.of_nat (List.length ((l ++ suffix) ++ [x])%list))) as [Hlt | Hge].
  - repeat rewrite length_app in Hlt. simpl in Hlt.
    destruct l as [| y l]; [simpl in Hlt; lia |].
    exists l. simpl. rewrite <- app_assoc. reflexivity.
  - exists l. rewrite <- app_assoc. reflexivity.
Qed.

Lemma updateActionMemory_memory (w : World) (a : JValue) (s : BotIntelligence) :
  actionMemory (updateActionMemory cfg w a s)
  = pushCapped (Config.memoryDepth cfg) (mkEntry (actionKey a) (now w) a) (actionMemory s).
Proof. reflexivity. Qed.

Lemma detect_true_state (s : BotIntelligence) :
  fst (detectStuckBehavior cfg s) = true →
  isStuck (behaviorFlags (snd (detectStuckBehavior cfg s))) = true.
Proof.
  unfold detectStuckBehavior.
  destruct (negb _); [discriminate |].
  destruct (_ <? _); [discriminate |].
  destruct (allSame _); [reflexivity | discriminate].
Qed.

Lemma detect_false_state (s : BotIntelligence) :
  fst (detectStuckBehavior cfg s) = false → snd (detectStuckBehavior cfg s) = s.
Proof.
  unfold detectStuckBehavior.
  destruct (negb _); [reflexivity |].
  destruct (_ <? _); [reflexivity |].
  destruct (allSame _); [discriminate | reflexivity].
Qed.

Lemma override_needs_flag (w : World) (s : BotIntelligence) :
  isStuck (behaviorFlags s) = false → getIntelligentOverride cfg w s = (None, s).
Proof.
  intros Hflag. unfold getIntelligentOverride. rewrite Hflag.
  rewrite orb_true_r. reflexivity.
Qed.

Lemma override_some_allZero (w : World) (s : BotIntelligence) (a : JValue) :
  fst (getIntelligentOverride cfg w s) = Some a →
  allZero (consecutiveActions (snd (getIntelligentOverride cfg w s))).
Proof.
  intros Hsome.
  destruct (override_cases cfg w s) as [Hnone | [a' [b Hres]]].
  - rewrite Hnone in Hsome. discriminate.
  - rewrite Hres. simpl. apply zeroed_allZero.
Qed.

Lemma override_none_state (w : World) (s : BotIntelligence) :
  fst (getIntelligentOverride cfg w s) = None →
  snd (getIntelligentOverride cfg w s) = s.
Proof.
  intros Hnone.
  destruct (override_cases cfg w s) as [Hsame | [a [b Hres]]].
  - rewrite Hsame. reflexivity.
  - rewrite Hres in Hnone. discriminate.
Qed.

(** C4 (amended): along every sequence of memory operations at most one
    signature has a non-zero consecutive count.  Recording a signature sets
    its count to its old value plus one and leaves no other signature with a
    non-zero count, so exactly one is non-zero right after a record.  The
    stuck check and an override that proposes nothing leave the counts as
    they are; an override that proposes an action sets every count to
    zero. *)
Theorem counts_at_most_one_nonzero (ops : list Op) :
  let s := run cfg ops in
  atMostOneNonZero (consecutiveActions s)
  ∧ (∀ w a,
        let s' := updateActionMemory cfg w a s in
        consecutiveActions s' !! actionKey a
        = Some (default 0 (consecutiveActions s !! actionKey a) + 1)
        ∧ (∀ k, k ≠ actionKey a → ¬ nonZeroAt (consecutiveActions s') k)
        ∧ exactlyOneNonZero (consecutiveActions s'))
  ∧ consecutiveActions (snd (detectStuckBehavior cfg s)) = consecutiveActions s
  ∧ (∀ w,
        fst (getIntelligentOverride cfg w s) = None →
        consecutiveActions (snd (getIntelligentOverride cfg w s)) = consecutiveActions s)
  ∧ (∀ w a,
        fst (getIntelligentOverride cfg w s) = Some a →
        allZero (consecutiveActions (snd (getIntelligentOverride cfg w s)))).
Proof.
  intros s. destruct (run_counts cfg ops) as [Hnn Hone]. fold s in Hnn, Hone.
  split; [exact Hone |]. split; [| split; [| split]].
  - intros w a s'. simpl. split; [apply bumpCounts_self |]. split.
    + intros k Hne [v [Hk Hv]].
      rewrite bumpCounts_other in Hk by assumption.
      destruct (consecutiveActions s !! k); simpl in Hk; [| discriminate].
      injection Hk as <-. contradiction.
    + apply bumpCounts_exactlyOne. exact Hnn.
  - apply detect_counts.
  - intros w Hnone. rewrite (override_none_state w s Hnone). reflexivity.
  - intros w a Hsome. exact (override_some_allZero w s a Hsome).
Qed.

(** The stuck check in terms of the keys [updateActionMemory] stored: with
    overrides enabled and a threshold N between 1 and the memory depth, the
    check on the state reached by any sequence of operations returns true
    exactly when at least N keys were stored and the last N of them are
    the same string; with fewer than N stored keys it returns false.  The
    key is [actionKey], which is the same string for every validated
    action. *)
Theorem stuck_iff_last_n_identical (ops : list Op) :
  Config.behavioralOverrides cfg = true →
  1 <= Config.stuckDetectionThreshold cfg →
  Config.stuckDetectionThreshold cfg <= Config.memoryDepth cfg →
  let n := Z.to_nat (Config.stuckDetectionThreshold cfg) in
  let keys := recordedKeys ops in
  (fst (detectStuckBehavior cfg (run cfg ops)) = true
   ↔ (n <= List.length keys)%nat ∧ ∃ k, lastn n keys = replicate n k)
  ∧ ((List.length keys < n)%nat → fst (detectStuckBehavior cfg (run cfg ops)) = false).
Proof.
  intros Hon Hlo Hhi n keys.
  assert (Hmem := run_memory cfg ops ltac:(lia)). fold keys in Hmem.
  assert (Hlen : List.length (actionMemory (run cfg ops))
                 = Nat.min (Z.to_nat (Config.memoryDepth cfg)) (List.length keys)).
  { rewrite <- (length_map key), Hmem. apply lastn_length. }
  assert (Hiff : fst (detectStuckBehavior cfg (run cfg ops)) = true
                 ↔ (n <= List.length keys)%nat ∧ ∃ k, lastn n keys = replicate n k).
  { rewrite detect_result by (assumption || lia). fold n.
    rewrite Hmem, Hlen, lastn_lastn by lia.
    split; intros [H1 H2]; (split; [lia | exact H2]). }
  split; [exact Hiff |].
  intros Hfew. destruct (fst (detectStuckBehavior cfg (run cfg ops))); [| reflexivity].
  destruct Hiff as [Hiff _]. destruct (Hiff eq_refl) as [Hn _]. lia.
Qed.

(** C9: while the stuck flag is false the override proposes nothing and
    leaves the memory as it is; in particular this is so right after a stuck
    check that returned false on a state whose flag was clear. *)
Theorem override_none_unless_stuck (w : World) (s : BotIntelligence) :
  isStuck (behaviorFlags s) = false →
  getIntelligentOverride cfg w s = (None, s)
  ∧ (fst (detectStuckBehavior cfg s) = false →
     getIntelligentOverride cfg w (snd (detectStuckBehavior cfg s)) = (None, s)).
Proof.
  intros Hflag. split; [apply override_needs_flag; exact Hflag |].
  intros Hfalse. rewrite (detect_false_state s Hfalse).
  apply override_needs_flag. exact Hflag.
Qed.

(** C7 (amended): after three GOTO decisions with one signature were
    recorded last (threshold 3, overrides and proactive actions enabled) the
    stuck check returns true and the override proposes an action: MINE_TREE
    on the first tree block found within the proximity radius, and
    otherwise a GOTO to a random exploration target.  Either way every
    consecutive count is zero afterwards and the stuck flag is cleared. *)
Theorem stuck_on_goto_override (w1 w2 w3 w : World) (a1 a2 a3 : JValue)
        (s : BotIntelligence) :
  Config.behavioralOverrides cfg = true →
  Config.proactiveActions cfg = true →
  Config.stuckDetectionThreshold cfg = 3 →
  3 <= Config.memoryDepth cfg →
  getProp "action" a1 = Some (JStr "GOTO") →
  getProp "action" a2 = Some (JStr "GOTO") →
  getProp "action" a3 = Some (JStr "GOTO") →
  actionKey a1 = actionKey a2 →
  actionKey a2 = actionKey a3 →
  let s3 := updateActionMemory cfg w3 a3
              (updateActionMemory cfg w2 a2 (updateActionMemory cfg w1 a1 s)) in
  let r := getIntelligentOverride cfg w (snd (detectStuckBehavior cfg s3)) in
  fst (detectStuckBehavior cfg s3) = true
  ∧ fst r = Some (match scanTreeBlocks w (Config.proximityMiningDistance cfg) with
                  | b :: _ => mineTreeAction b
                  | [] => exploreAction cfg w
                  end)
  ∧ allZero (consecutiveActions (snd r))
  ∧ isStuck (behaviorFlags (snd r)) = false.
Proof.
  intros Hon Hpro Hthr Hdepth Hg1 Hg2 Hg3 Hk12 Hk23 s3 r.
  set (e1 := mkEntry (actionKey a1) (now w1) a1).
  set (e2 := mkEntry (actionKey a2) (now w2) a2).
  set (e3 := mkEntry (actionKey a3) (now w3) a3).
  assert (Hmem : ∃ l, actionMemory s3 = (l ++ [e1; e2; e3])%list).
  { unfold s3. repeat rewrite updateActionMemory_memory. fold e1 e2 e3.
    destruct (pushCapped_keeps_suffix (Config.memoryDepth cfg) e1 (actionMemory s) [])
      as [l1 Hl1]; [simpl; lia |].
    rewrite app_nil_r in Hl1. change ([] ++ [e1])%list with [e1] in Hl1. rewrite Hl1.
    destruct (pushCapped_keeps_suffix (Config.memoryDepth cfg) e2 l1 [e1])
      as [l2 Hl2]; [simpl; lia |].
    rewrite Hl2.
    destruct (pushCapped_keeps_suffix (Config.memoryDepth cfg) e3 l2 ([e1] ++ [e2]))
      as [l3 Hl3]; [simpl; lia |].
    rewrite Hl3. exists l3. reflexivity. }
  destruct Hmem as [l Hmem].
  assert (Hstuck : fst (detectStuckBehavior cfg s3) = true).
  { apply detect_result; [assumption | lia |].
    rewrite Hthr, Hmem. change (Z.to_nat 3) with 3%nat. split.
    - rewrite length_app. simpl. lia.
    - exists (actionKey a3). rewrite map_app. simpl.
      unfold lastn. rewrite length_app. simpl.
      rewrite drop_app_length'; [| rewrite length_map; lia].
      rewrite Hk12, Hk23. reflexivity. }
  assert (Hflag := detect_true_state _ Hstuck).
  assert (Hmem4 := detect_memory cfg s3).
  set (s4 := snd (detectStuckBehavior cfg s3)) in *.
  assert (Hr : r = (Some (match scanTreeBlocks w (Config.proximityMiningDistance cfg) with
                          | b :: _ => mineTreeAction b
                          | [] => exploreAction cfg w
                          end),
                    resetStuck w (match scanTreeBlocks w (Config.proximityMiningDistance cfg) with
                                  | _ :: _ => false
                                  | [] => true
                                  end) s4)).
  { set (failed := fun a : MemoryEntry =>
                     (isMiningAction (action a) && (now w - timestamp a <? 60000))%bool).
    assert (Hfew : (List.length (List.filter failed (slice (-5) (actionMemory s4))) <= 2)%nat).
    { rewrite Hmem4, Hmem, slice_negative.
      change (Pos.to_nat 5) with (2 + List.length [e1; e2; e3])%nat.
      rewrite lastn_app, filter_app_rejected.
      - etransitivity; [apply List.filter_length_le |].
        rewrite lastn_length. lia.
      - intros e He. unfold failed, isMiningAction.
        destruct He as [<- | [<- | [<- | []]]]; simpl;
          [rewrite Hg1 | rewrite Hg2 | rewrite Hg3]; reflexivity. }
    unfold r, getIntelligentOverride. rewrite Hon, Hflag, Hpro.
    cbn [negb orb]. cbv zeta. fold failed.
    destruct (Z.leb_spec 3 (Z.of_nat (List.length
                (List.filter failed (slice (-5) (actionMemory s4)))))) as [Hmany | _];
      [lia |].
    destruct (scanTreeBlocks w (Config.proximityMiningDistance cfg)); reflexivity. }
  split; [exact Hstuck |]. rewrite Hr. simpl.
  split; [reflexivity |]. split; [apply zeroed_allZero | reflexivity].
Qed.

End MemoryClaims.

(** C4 (as stated) fails: after three recorded signatures, the stuck check
    and the override, no signature has a non-zero count. *)
Lemma override_leaves_no_nonzero_count :
  ¬ exactlyOneNonZero
      (consecutiveActions
         (run CONFIG [Record quietWorld gotoAction; Record quietWorld gotoAction;
                      Record quietWorld gotoAction; Detect; Override quietWorld])).
Proof.
  apply allZero_not_exactlyOne.
  change (run CONFIG _) with (snd (getIntelligentOverride CONFIG quietWorld stuckOnGoto)).
  assert (Hsome : ∃ a, fst (getIntelligentOverride CONFIG quietWorld stuckOnGoto) = Some a)
    by (eexists; vm_compute; reflexivity).
  destruct Hsome as [a Ha].
  exact (override_some_allZero CONFIG quietWorld stuckOnGoto a Ha).
Qed.

(** C7 (as stated) fails: stuck on three identical GOTO signatures with no
    tree block nearby, the override proposes another GOTO. *)
Lemma override_returns_goto_when_stuck_on_goto :
  fst (detectStuckBehavior CONFIG threeGotos) = true
  ∧ (getProp "action" <$> fst (getIntelligentOverride CONFIG quietWorld stuckOnGoto))
    = Some (Some (JStr "GOTO")).
Proof. split; vm_compute; reflexivity. Qed.

(** C6: the stuck check at three different actions.  A MOVE, an EAT and a
    GOTO, each schema-valid, are recorded in a row with the threshold at 3:
    their kinds differ, yet [updateActionMemory] stores the three under one
    key, built from the [type] and [parameters] properties none of them
    has, and [detectStuckBehavior] returns true. *)
Theorem stuck_on_different_actions :
  Config.stuckDetectionThreshold CONFIG = 3
  ∧ Forall (fun a => validateAction a = true) [moveAction; eatAction; gotoAction]
  ∧ List.map (getProp "action") [moveAction; eatAction; gotoAction]
    = [Some (JStr "MOVE"); Some (JStr "EAT"); Some (JStr "GOTO")]
  ∧ List.map action (actionMemory threeKinds) = [moveAction; eatAction; gotoAction]
  ∧ List.map key (actionMemory threeKinds)
    = ["undefined_{}"; "undefined_{}"; "undefined_{}"]
  ∧ fst (detectStuckBehavior CONFIG threeKinds) = true.
Proof.
  split; [reflexivity |].
  split; [repeat (apply Forall_cons; split; [reflexivity |]); apply Forall_nil; trivial |].
  repeat split; vm_compute; reflexivity.
Qed.

Lemma stuck_iff_last_n_identical_example :
  Config.behavioralOverrides CONFIG = true
  ∧ fst (detectStuckBehavior CONFIG
           (run CONFIG [Record quietWorld gotoAction; Record quietWorld gotoAction])) = false
  ∧ fst (detectStuckBehavior CONFIG
           (run CONFIG [Record quietWorld gotoAction; Record quietWorld gotoNoArgs;
                        Detect; Record quietWorld gotoAction])) = true.
Proof.
  split; [reflexivity |]. split.
  - apply (stuck_iff_last_n_identical CONFIG
             [Record quietWorld gotoAction; Record quietWorld gotoAction]);
      [reflexivity | simpl; lia | simpl; lia | simpl; lia].
  - apply (stuck_iff_last_n_identical CONFIG
             [Record quietWorld gotoAction; Record quietWorld gotoNoArgs;
              Detect; Record quietWorld gotoAction]);
      [reflexivity | simpl; lia | simpl; lia |].
    split; [simpl; lia |]. exists (actionKey gotoAction). reflexivity.
Defined.

Lemma override_none_unless_stuck_example :
  isStuck (behaviorFlags botIntelligence) = false
  ∧ getIntelligentOverride CONFIG quietWorld botIntelligence = (None, botIntelligence).
Proof.
  split; [reflexivity |].
  exact (proj1 (override_none_unless_stuck CONFIG quietWorld botIntelligence eq_refl)).
Defined.

Lemma stuck_on_goto_override_example :
  fst (detectStuckBehavior CONFIG threeGotos) = true
  ∧ fst (getIntelligentOverride CONFIG woodedWorld stuckOnGoto)
    = Some (mineTreeAction (mkBlock "oak_log" (mkPos 1 64 0))).
Proof.
  destruct (stuck_on_goto_override CONFIG quietWorld quietWorld quietWorld woodedWorld
              gotoAction gotoAction gotoAction botIntelligence)
    as [Hstuck [Hact _]];
    [reflexivity | reflexivity | reflexivity | simpl; lia
     | reflexivity | reflexivity | reflexivity | reflexivity | reflexivity |].
  split; [exact Hstuck |].
  etransitivity; [exact Hact |]. vm_compute. reflexivity.
Defined.

(** ** Validation, execution and the decision cycle *)

Section ExecutorFacts.

Variable cfg : Config.t.

Lemma doAction_clears (w : World) (a : JValue) (e : ExecState) :
  currentAction (snd (doAction cfg w a e)) = None
  ∧ actionStartTime (snd (doAction cfg w a e)) = None.
Proof.
  unfold doAction.
  destruct (handler w (getProp "action" a) (default (JObj []) (getProp "args" a)));
    split; reflexivity.
Qed.

(** Every path of [prepare] leaves the executor's globals untouched. *)
Lemma prepare_exec (w : World) (s : BotState) :
  match prepare cfg w s with
  | Skip s' => exec s' = exec s
  | Execute _ s' => exec s' = exec s
  end.
Proof.
  unfold prepare.
  destruct (Config.maxActions cfg <=? actionCount (exec s)); [reflexivity |].
  destruct (Config.actionSyncEnabled cfg && isActionInProgress (exec s))%bool;
    [reflexivity |].
  destruct (botReady w); cbn [negb]; [| reflexivity].
  destruct (detectStuckBehavior cfg (updatePositionTracking w (intel s))) as [stuck i2].
  destruct (getIntelligentOverride cfg w i2) as [[ov |] i3]; [reflexivity |].
  destruct (llmReply w) as [action |]; [| reflexivity].
  destruct (negb (validateAction action)); reflexivity.
Qed.

(** With synchronisation on, an action in flight makes the cycle return
    before it touches the memory. *)
Lemma prepare_busy (w : World) (s : BotState) :
  Config.actionSyncEnabled cfg = true →
  isActionInProgress (exec s) = true →
  ∃ s', prepare cfg w s = Skip s' ∧ exec s' = exec s ∧ intel s' = intel s.
Proof.
  intros Hsync Hbusy. unfold prepare. rewrite Hsync, Hbusy. simpl.
  destruct (Config.maxActions cfg <=? actionCount (exec s));
    eexists; split; try reflexivity; split; reflexivity.
Qed.

Lemma prepare_execute_idle (w : World) (s : BotState) (a : JValue) (s' : BotState) :
  Config.actionSyncEnabled cfg = true →
  prepare cfg w s = Execute a s' →
  isActionInProgress (exec s) = false.
Proof.
  intros Hsync Hprep. unfold prepare in Hprep. rewrite Hsync in Hprep.
  destruct (Config.maxActions cfg <=? actionCount (exec s)); [discriminate |].
  destruct (isActionInProgress (exec s)); [discriminate | reflexivity].
Qed.

(** [doAction] is its two pieces with the handler in between. *)
Lemma doAction_in_pieces (w : World) (a : JValue) (e : ExecState) :
  doAction cfg w a e
  = let '(record, e1) := doActionStart w a e in
    let outcome := handler w (crAction record) (crArgs record) in
    (outcome,
     doActionSettle cfg (now w + actionElapsed w) (handlerLogs w) record outcome e1).
Proof.
  unfold doAction, doActionStart, doActionSettle. cbn [crAction crArgs].
  destruct (handler w (getProp "action" a) (default (JObj []) (getProp "args" a)));
    reflexivity.
Qed.

(** Settling clears the globals, whatever they hold by then. *)
Lemma doActionSettle_clears (finished logs : Z) (record : ActionRecord)
      (outcome : Outcome) (e : ExecState) :
  currentAction (doActionSettle cfg finished logs record outcome e) = None
  ∧ actionStartTime (doActionSettle cfg finished logs record outcome e) = None.
Proof. destruct outcome; split; reflexivity. Qed.

(** [prepare] is the cycle's pieces with nothing running in between. *)
Lemma prepare_in_pieces (w : World) (s : BotState) :
  prepare cfg w s
  = match cycleBegin cfg w s with
    | Returned s' => Skip s'
    | Calls a s' => Execute a s'
    | Awaits s' => cycleResume cfg w (llmReply w) s'
    end.
Proof.
  unfold prepare, cycleBegin.
  destruct (Config.maxActions cfg <=? actionCount (exec s)); [reflexivity |].
  destruct (Config.actionSyncEnabled cfg && isActionInProgress (exec s))%bool;
    [reflexivity |].
  destruct (botReady w); cbn [negb]; [| reflexivity].
  destruct (detectStuckBehavior cfg (updatePositionTracking w (intel s))) as [stuck i2].
  destruct (getIntelligentOverride cfg w i2) as [[ov |] i3]; reflexivity.
Qed.

(** With synchronisation on, a cycle gets past its test only with nothing
    in flight, and it leaves the executor's globals alone up to there. *)
Lemma cycleBegin_idle (w : World) (s : BotState) :
  Config.actionSyncEnabled cfg = true →
  match cycleBegin cfg w s with
  | Returned _ => True
  | Calls _ s' | Awaits s' => exec s' = exec s ∧ isActionInProgress (exec s) = false
  end.
Proof.
  intros Hsync. unfold cycleBegin. rewrite Hsync.
  destruct (Config.maxActions cfg <=? actionCount (exec s)); [exact I |].
  destruct (isActionInProgress (exec s)); [exact I |]. cbn [andb].
  destruct (botReady w); cbn [negb]; [| exact I].
  destruct (detectStuckBehavior cfg (updatePositionTracking w (intel s))) as [stuck i2].
  destruct (getIntelligentOverride cfg w i2) as [[ov |] i3]; split; reflexivity.
Qed.

(** C1 (amended): whether [doAction] resolves or rejects, [currentAction]
    and [actionStartTime] are null when it settles, whatever they held by
    then.  With decision synchronisation enabled, a cycle that finds an
    action in flight at its test returns false without deciding or executing
    anything.  A cycle that gets past the test does so with nothing in
    flight: on the override path it calls [doAction] at once, so nothing is
    in flight at that call; on the policy path it first waits for the reply,
    and its call of [doAction] then finds the globals as the wait left them:
    empty if no action was started meanwhile, and otherwise not looked at
    again. *)
Theorem execution_state_cleared (w : World) (s : BotState) :
  Config.actionSyncEnabled cfg = true →
  (currentAction (exec s) = None → actionStartTime (exec s) = None) →
  (∀ a e,
      currentAction (snd (doAction cfg w a e)) = None
      ∧ actionStartTime (snd (doAction cfg w a e)) = None)
  ∧ (∀ finished logs record outcome e,
        currentAction (doActionSettle cfg finished logs record outcome e) = None
        ∧ actionStartTime (doActionSettle cfg finished logs record outcome e) = None)
  ∧ (isActionInProgress (exec s) = true →
     ∃ s', cycleBegin cfg w s = Returned s'
           ∧ prepare cfg w s = Skip s'
           ∧ executeLLMDecision cfg w s = (false, s')
           ∧ exec s' = exec s ∧ intel s' = intel s)
  ∧ (∀ a s',
        cycleBegin cfg w s = Calls a s' →
        currentAction (exec s') = None ∧ actionStartTime (exec s') = None)
  ∧ (∀ s1,
        cycleBegin cfg w s = Awaits s1 →
        (currentAction (exec s1) = None ∧ actionStartTime (exec s1) = None)
        ∧ ∀ w' reply s2 a s',
            cycleResume cfg w' reply s2 = Execute a s' →
            exec s' = exec s2
            ∧ (exec s2 = exec s1 →
               currentAction (exec s') = None ∧ actionStartTime (exec s') = None)).
Proof.
  intros Hsync Hwf.
  assert (Hidle : isActionInProgress (exec s) = false →
                  currentAction (exec s) = None ∧ actionStartTime (exec s) = None).
  { unfold isActionInProgress. intros Hfree.
    destruct (currentAction (exec s)) eqn:E; [discriminate |].
    split; [reflexivity | apply Hwf; reflexivity]. }
  assert (Hbegin := cycleBegin_idle w s Hsync).
  split; [intros a e; apply doAction_clears |].
  split; [intros finished logs record outcome e; apply doActionSettle_clears |].
  split; [| split].
  - intros Hbusy.
    destruct (prepare_busy w s Hsync Hbusy) as [s' [Hprep [Hexec Hintel]]].
    exists s'. unfold executeLLMDecision. rewrite Hprep.
    rewrite prepare_in_pieces in Hprep.
    destruct (cycleBegin cfg w s) as [s0 | a0 s0 | s0].
    + injection Hprep as ->. tauto.
    + discriminate.
    + destruct Hbegin as [_ Hfree]. congruence.
  - intros a s' Hcalls. rewrite Hcalls in Hbegin. destruct Hbegin as [-> Hfree].
    apply Hidle, Hfree.
  - intros s1 Hawaits. rewrite Hawaits in Hbegin. destruct Hbegin as [Hexec Hfree].
    assert (Hnone := Hidle Hfree). rewrite <- Hexec in Hnone.
    split; [exact Hnone |].
    intros w' reply s2 a s' Hresume.
    assert (Hkeep : exec s' = exec s2).
    { unfold cycleResume in Hresume. destruct reply as [action |]; [| discriminate].
      destruct (negb (validateAction action)); [discriminate |].
      injection Hresume as _ <-. reflexivity. }
    split; [exact Hkeep |]. intros Hsame. rewrite Hkeep, Hsame. exact Hnone.
Qed.

(** After a cycle nothing is in flight, provided nothing was before it. *)
Lemma cycle_leaves_idle (w : World) (s : BotState) :
  currentAction (exec s) = None →
  actionStartTime (exec s) = None →
  currentAction (exec (snd (executeLLMDecision cfg w s))) = None
  ∧ actionStartTime (exec (snd (executeLLMDecision cfg w s))) = None.
Proof.
  intros Hc Ht. unfold executeLLMDecision.
  assert (Hexec := prepare_exec w s).
  destruct (prepare cfg w s) as [s' | a s'].
  - simpl. rewrite Hexec. tauto.
  - destruct (doAction_clears w a (exec s')) as [H1 H2].
    destruct (doAction cfg w a (exec s')) as [[| msg] e]; simpl in *; tauto.
Qed.

End ExecutorFacts.

(** An object the validator accepts has no [type] and no [parameters]
    property, so every validated action is recorded under one signature. *)
Lemma validated_action_key (a : JValue) :
  validateAction a = true → actionKey a = "undefined_{}".
Proof.
  destruct a as [| | | | | fields]; try discriminate.
  unfold validateAction. rewrite andb_true_iff. intros [_ Hall].
  assert (Hno : ∀ k, k ≠ "action" → k ≠ "horizon_ms" → k ≠ "args" →
                     assoc k fields = None).
  { intros k H1 H2 H3. induction fields as [| [k' v] fields IH]; [reflexivity |].
    simpl in Hall. apply andb_true_iff in Hall. destruct Hall as [Hhd Htl].
    simpl. destruct (String.eqb_spec k k') as [<- | Hne]; [| apply IH; exact Htl].
    destruct (String.eqb_spec k "action"); [contradiction |].
    destruct (String.eqb_spec k "horizon_ms"); [contradiction |].
    destruct (String.eqb_spec k "args"); [contradiction | discriminate]. }
  unfold actionKey, getProp.
  rewrite (Hno "type"), (Hno "parameters") by discriminate.
  reflexivity.
Qed.

(** C10: the schema does not look inside [args].  The object
    [{"action":"GOTO","args":{}}] passes [validateAction], and [doAction]
    rejects it with the GOTO handler's missing-coordinates error whatever the
    world and the state; the verdict of [validateAction] is the same for
    every content of an [args] object. *)
Theorem schema_ignores_args_contents :
  validateAction gotoNoArgs = true
  ∧ (∀ cfg w e, fst (doAction cfg w gotoNoArgs e) = Threw "GOTO requires x,y,z")
  ∧ (∀ kind fields rest,
        validateAction (JObj (("action", JStr kind) :: ("args", JObj fields) :: rest))
        = validateAction (JObj (("action", JStr kind) :: ("args", JObj []) :: rest))).
Proof.
  split; [reflexivity |]. split.
  - intros cfg w e. reflexivity.
  - intros kind fields rest. reflexivity.
Qed.

Lemma execution_state_cleared_example :
  Config.actionSyncEnabled CONFIG = true
  ∧ currentAction (snd (doAction CONFIG quietWorld gotoNoArgs initialExecState)) = None
  ∧ actionStartTime (snd (doAction CONFIG quietWorld gotoNoArgs initialExecState)) = None.
Proof.
  split; [reflexivity |].
  exact (proj1 (execution_state_cleared CONFIG quietWorld initialBotState
                  eq_refl (fun _ => eq_refl))
               gotoNoArgs initialExecState).
Defined.

(** With synchronisation on, the idle bot's cycle passes its test and sends
    its request; a [POST /act] then starts a MOVE, which the endpoint does
    whatever is in flight; the reply arrives while the MOVE runs, and the
    cycle calls [doAction] on the GOTO it holds with the MOVE in flight. *)
Lemma action_in_flight_at_cycle_call :
  Config.actionSyncEnabled CONFIG = true
  ∧ isActionInProgress (exec initialBotState) = false
  ∧ cycleBegin CONFIG quietWorld initialBotState = Awaits requestSent
  ∧ actRequest moveAction requestSent = Execute moveAction requestSent
  ∧ currentAction (exec moveStarted)
    = Some (mkActionRecord (Some (JStr "MOVE"))
                           (JObj [("forward", JBool true); ("ms", JNum 3000)])
                           (Some 400))
  ∧ ∃ s', cycleResume CONFIG (atTime 1100 quietWorld) (Some gotoAction) moveStarted
          = Execute gotoAction s'
          ∧ exec s' = exec moveStarted
          ∧ isActionInProgress (exec s') = true.
Proof.
  repeat (split; [vm_compute; reflexivity |]).
  eexists. split; [reflexivity |]. split; reflexivity.
Qed.

(** A cycle that finds the MOVE in flight changes nothing. *)
Example busy_cycle_skips :
  executeLLMDecision CONFIG quietWorld busyState = (false, busyState).
Proof. reflexivity. Qed.

(** The schema does reject properties it does not name and horizons out of
    range. *)
Example schema_rejects_unknown_property :
  validateAction (JObj [("action", JStr "GOTO"); ("speed", JNum 1)]) = false
  ∧ validateAction (JObj [("action", JStr "GOTO"); ("horizon_ms", JNum 50)]) = false
  ∧ validateAction (JObj [("action", JStr "FLY")]) = false
  ∧ validateAction (JObj [("args", JObj [])]) = false.
Proof. repeat split. Qed.

(** ** Goals and the scheduler *)

Import Goals Invariants.
Import Selector.

Section GoalFacts.

Variable w : World.
Variable sd : SensorData.

Lemma baseStart_fields (g : Goal) :
  isActive (baseStart w g) = true ∧ startTime (baseStart w g) = Some (now w).
Proof. split; reflexivity. Qed.

Lemma start_fields (g : Goal) :
  isActive (start w sd g) = true ∧ startTime (start w sd g) = Some (now w).
Proof.
  unfold start. destruct (cls g); try (split; reflexivity).
  destruct (exploreOffset w). split; reflexivity.
Qed.

Lemma stop_fields (g : Goal) :
  isActive (stop g) = false ∧ startTime (stop g) = None.
Proof. split; reflexivity. Qed.

Lemma baseTick_fields (g : Goal) :
  isActive (baseTick w g) = isActive g ∧ startTime (baseTick w g) = startTime g
  ∧ cls (baseTick w g) = cls g.
Proof. unfold baseTick. destruct (negb (isActive g)); repeat split; reflexivity. Qed.

(** A goal tick either leaves [isActive] and [startTime] as they are or
    stops the goal. *)
Lemma tick_keeps_or_stops (g : Goal) :
  let g' := snd (Goals.tick w sd g) in
  (isActive g' = isActive g ∧ startTime g' = startTime g)
  ∨ (isActive g' = false ∧ startTime g' = None).
Proof.
  destruct (baseTick_fields g) as [Ha [Ht _]].
  unfold Goals.tick.
  destruct (cls g); simpl.
  - left. split; assumption.
  - unfold mineTreeTick.
    destruct (targetTree (baseTick w g)); [| left; split; assumption].
    destruct (dist2 (botPosition w) (resPosition r) <=? 16).
    + destruct (mineTreeError w); right; split; reflexivity.
    + destruct (negb (pathStarted (baseTick w g))); [| left; split; assumption].
      destruct (hasPathfinder w); left; split; assumption.
  - unfold survivalTick.
    destruct (List.filter _ _) as [| nearest rest]; [left; split; assumption |].
    destruct (Qltb (mobDistance nearest) (3 # 1)); [| left; split; assumption].
    destruct (attackError w); left; split; assumption.
  - unfold exploreTick.
    destruct (targetPosition (baseTick w g)) as [t |] eqn:Et.
    + destruct (negb (isMoving (baseTick w g)) && hasPathfinder w)%bool; simpl;
        rewrite ?Et;
        (destruct (dist2 (botPosition w) t <? 9);
         [right; split; reflexivity | left; split; assumption]).
    + rewrite Et. left. split; assumption.
  - unfold buildShelterTick.
    destruct (buildingPhase (baseTick w g));
      first [left; split; assumption | right; split; reflexivity].
Qed.

(** Only [SurvivalGoal.tick] can raise, and it raises before it changes
    anything but [lastTickTime]. *)
Lemma tick_threw (g : Goal) (e : string) (g' : Goal) :
  Goals.tick w sd g = (Threw e, g') →
  cls g = SurvivalGoal ∧ g' = baseTick w g ∧ attackError w = Some e.
Proof.
  unfold Goals.tick. destruct (cls g); try discriminate.
  unfold survivalTick.
  destruct (List.filter _ _) as [| nearest rest]; [discriminate |].
  destruct (Qltb (mobDistance nearest) (3 # 1)); [| discriminate].
  destruct (attackError w) as [msg |]; [| discriminate].
  intros H. injection H as <- <-. repeat split.
Qed.

Lemma startTimeIffActive_tick (g : Goal) :
  startTimeIffActive g → startTimeIffActive (snd (Goals.tick w sd g)).
Proof.
  unfold startTimeIffActive. intros Hg.
  destruct (tick_keeps_or_stops g) as [[Ha Ht] | [Ha Ht]]; rewrite Ha, Ht.
  - exact Hg.
  - split; [congruence | discriminate].
Qed.

(** C8: a goal's start timestamp is non-null exactly when the goal is
    active: after construction, after [start] and after [stop], for the base
    class and for every subclass. *)
Theorem start_time_iff_active :
  (∀ c p n, startTimeIffActive (newGoal c p n))
  ∧ (∀ g, startTimeIffActive (start w sd g))
  ∧ (∀ g, startTimeIffActive (stop g)).
Proof.
  unfold startTimeIffActive. split; [| split].
  - intros c p n. simpl. split; [congruence | discriminate].
  - intros g. destruct (start_fields g) as [-> ->]. split; [reflexivity | discriminate].
  - intros g. simpl. split; [congruence | discriminate].
Qed.

End GoalFacts.

Section SelectorFacts.

Variable cfg : Config.t.
Variable w : World.

Lemma upd_same (r : GoalRef) (g : Goal) (h : GoalRef → Goal) : upd r g h r = g.
Proof. unfold upd. rewrite Nat.eqb_refl. reflexivity. Qed.

Lemma upd_other (r r' : GoalRef) (g : Goal) (h : GoalRef → Goal) :
  r' ≠ r → upd r g h r' = h r'.
Proof.
  intros Hne. unfold upd. destruct (Nat.eqb_spec r' r); [contradiction | reflexivity].
Qed.

Lemma insertDesc_In {A : Type} (rank : A → Z) (x y : A) (l : list A) :
  In x (insertDesc rank y l) ↔ x = y ∨ In x l.
Proof.
  induction l as [| z l IH]; simpl.
  - intuition.
  - destruct (rank z <? rank y); simpl; [intuition |].
    rewrite IH. intuition.
Qed.

Lemma sortDesc_In {A : Type} (rank : A → Z) (x : A) (l : list A) :
  In x (sortDesc rank l) ↔ In x l.
Proof.
  unfold sortDesc.
  assert (Hgen : ∀ acc, In x (fold_left (fun acc y => insertDesc rank y acc) l acc)
                        ↔ In x l ∨ In x acc).
  { induction l as [| y l IH]; intros acc; simpl; [intuition |].
    rewrite IH, insertDesc_In. intuition. }
  rewrite Hgen. simpl. intuition.
Qed.

(** The removal pass keeps a sublist of the active set. *)
Lemma retire_kept (sd : SensorData) (l : list GoalRef) (h : GoalRef → Goal) :
  (List.length (fst (retire cfg w sd l h)) <= List.length l)%nat
  ∧ ∀ r, In r (fst (retire cfg w sd l h)) → In r l.
Proof.
  revert h. induction l as [| r0 l IH]; intros h; simpl; [split; [lia | tauto] |].
  destruct (hasTimedOut cfg w (h r0) || negb (canContinue w sd (h r0)))%bool.
  - destruct (IH (upd r0 (stop (h r0)) h)) as [Hlen Hin].
    split; [lia | intros r Hr; right; apply Hin; exact Hr].
  - destruct (IH h) as [Hlen Hin].
    destruct (retire cfg w sd l h) as [kept h']; simpl in *.
    split; [lia |]. intros r [-> | Hr]; [left; reflexivity | right; apply Hin; exact Hr].
Qed.



(** Activation respects the capacity and only adds available goals. *)
Lemma activate_bounded (sd : SensorData) (avail active : list GoalRef) (h : GoalRef → Goal) :
  Z.of_nat (List.length active) <= Config.maxActiveGoals cfg →
  Z.of_nat (List.length (fst (activate cfg w sd avail active h))) <= Config.maxActiveGoals cfg
  ∧ ∀ r, In r (fst (activate cfg w sd avail active h)) → In r active ∨ In r avail.
Proof.
  revert active h. induction avail as [| r0 avail IH]; intros active h Hlen; simpl.
  - split; [exact Hlen | intros r Hr; left; exact Hr].
  - destruct (Z.ltb_spec (Z.of_nat (List.length active)) (Config.maxActiveGoals cfg)) as [Hlt | Hge].
    + destruct (IH (active ++ [r0])%list (upd r0 (start w sd (h r0)) h)) as [Hb Hin].
      { rewrite length_app. simpl. lia. }
      split; [exact Hb |]. intros r Hr. apply Hin in Hr.
      rewrite in_app_iff in Hr. simpl in Hr. tauto.
    + simpl. split; [exact Hlen | intros r Hr; left; exact Hr].
Qed.

(** After activation a goal is as it was or was started just now. *)
Lemma activate_heap (sd : SensorData) (avail active : list GoalRef) (h : GoalRef → Goal)
      (r : GoalRef) :
  snd (activate cfg w sd avail active h) r = h r
  ∨ (isActive (snd (activate cfg w sd avail active h) r) = true
     ∧ startTime (snd (activate cfg w sd avail active h) r) = Some (now w)).
Proof.
  revert active h. induction avail as [| r0 avail IH]; intros active h; simpl;
    [left; reflexivity |].
  destruct (Z.of_nat (List.length active) <? Config.maxActiveGoals cfg);
    [| left; reflexivity].
  destruct (IH (active ++ [r0])%list (upd r0 (start w sd (h r0)) h)) as [Heq | Hst];
    [| right; exact Hst].
  rewrite Heq. destruct (Nat.eq_dec r r0) as [-> | Hne].
  - right. rewrite upd_same. apply start_fields.
  - left. apply upd_other. exact Hne.
Qed.

Lemma tickAll_other (sd : SensorData) (l : list GoalRef) (h : GoalRef → Goal) (r : GoalRef) :
  ¬ In r l → snd (tickAll w sd l h) r = h r.
Proof.
  revert h. induction l as [| r0 l IH]; intros h Hnot; simpl; [reflexivity |].
  assert (Hne : r ≠ r0) by (intros ->; apply Hnot; left; reflexivity).
  assert (Hrest : ¬ In r l) by (intros Hr; apply Hnot; right; exact Hr).
  destruct (Goals.tick w sd (h r0)) as [[| e] g'].
  - rewrite IH by assumption. apply upd_other. exact Hne.
  - simpl. apply upd_other. exact Hne.
Qed.



(** The loop over the active goals stops at the first goal whose tick
    raises. *)
Lemma tickAll_raise (sd : SensorData) (pre post : list GoalRef) (r : GoalRef)
      (h h1 : GoalRef → Goal) (e : string) (g' : Goal) :
  tickAll w sd pre h = (Completed, h1) →
  Goals.tick w sd (h1 r) = (Threw e, g') →
  tickAll w sd (pre ++ r :: post) h = (Threw e, upd r g' h1).
Proof.
  revert h. induction pre as [| r0 pre IH]; intros h Hpre Hr; simpl in *.
  - injection Hpre as <-. rewrite Hr. reflexivity.
  - destruct (Goals.tick w sd (h r0)) as [[| e0] g0]; [| discriminate].
    apply IH; assumption.
Qed.

Lemma tick_due (s : GoalSelector) :
  Config.tickInterval cfg <= now w - lastTickTime s →
  Selector.tick cfg w s = tickPass w (activationPass cfg w (removalPass cfg w s)).
Proof.
  intros Hdue. unfold Selector.tick.
  destruct (Z.ltb_spec (now w - lastTickTime s) (Config.tickInterval cfg)); [lia | reflexivity].
Qed.

Lemma removalPass_fields (s : GoalSelector) :
  goals (removalPass cfg w s) = goals s
  ∧ activeGoals (removalPass cfg w s) = fst (retire cfg w (sensed w) (activeGoals s) (heap s))
  ∧ heap (removalPass cfg w s) = snd (retire cfg w (sensed w) (activeGoals s) (heap s))
  ∧ sensorData (removalPass cfg w s) = sensed w.
Proof.
  unfold removalPass.
  destruct (retire cfg w (sensed w) (activeGoals s) (heap s)); repeat split.
Qed.

Lemma activationPass_fields (s : GoalSelector) :
  let avail := sortDesc (fun r => getDynamicPriority w (sensorData s) (heap s r))
                 (List.filter (fun r => (negb (includesRef r (activeGoals s))
                                         && canUse w (sensorData s) (heap s r))%bool)
                              (goals s)) in
  goals (activationPass cfg w s) = goals s
  ∧ activeGoals (activationPass cfg w s)
    = fst (activate cfg w (sensorData s) avail (activeGoals s) (heap s))
  ∧ heap (activationPass cfg w s)
    = snd (activate cfg w (sensorData s) avail (activeGoals s) (heap s))
  ∧ sensorData (activationPass cfg w s) = sensorData s.
Proof.
  intros avail. unfold activationPass. fold avail.
  destruct (activate cfg w (sensorData s) avail (activeGoals s) (heap s)); repeat split.
Qed.

Lemma tickPass_fields (s : GoalSelector) :
  fst (tickPass w s) = fst (tickAll w (sensorData s) (activeGoals s) (heap s))
  ∧ goals (snd (tickPass w s)) = goals s
  ∧ activeGoals (snd (tickPass w s)) = activeGoals s
  ∧ heap (snd (tickPass w s)) = snd (tickAll w (sensorData s) (activeGoals s) (heap s)).
Proof.
  unfold tickPass.
  destruct (tickAll w (sensorData s) (activeGoals s) (heap s)); repeat split.
Qed.

Lemma removalPass_ok (s : GoalSelector) :
  activeSetOk cfg s → activeSetOk cfg (removalPass cfg w s).
Proof.
  intros [Hlen Hsub]. destruct (removalPass_fields s) as [Hg [Ha _]].
  destruct (retire_kept (sensed w) (activeGoals s) (heap s)) as [Hl Hin].
  unfold activeSetOk. rewrite Hg, Ha. split; [lia |].
  intros r Hr. apply Hsub, Hin, Hr.
Qed.

Lemma activationPass_ok (s : GoalSelector) :
  activeSetOk cfg s → activeSetOk cfg (activationPass cfg w s).
Proof.
  intros [Hlen Hsub]. destruct (activationPass_fields s) as [Hg [Ha _]].
  unfold activeSetOk. rewrite Hg, Ha.
  destruct (activate_bounded (sensorData s)
              (sortDesc (fun r => getDynamicPriority w (sensorData s) (heap s r))
                 (List.filter (fun r => (negb (includesRef r (activeGoals s))
                                         && canUse w (sensorData s) (heap s r))%bool)
                              (goals s)))
              (activeGoals s) (heap s) Hlen) as [Hb Hin].
  split; [exact Hb |]. intros r Hr.
  destruct (Hin r Hr) as [Hact | Hav]; [apply Hsub; exact Hact |].
  apply sortDesc_In, List.filter_In in Hav. tauto.
Qed.

Lemma tick_ok (s : GoalSelector) :
  activeSetOk cfg s → activeSetOk cfg (snd (Selector.tick cfg w s)).
Proof.
  intros Hok. unfold Selector.tick.
  destruct (now w - lastTickTime s <? Config.tickInterval cfg); [exact Hok |].
  apply removalPass_ok, activationPass_ok in Hok.
  destruct (tickPass_fields (activationPass cfg w (removalPass cfg w s))) as [_ [Hg [Ha _]]].
  unfold activeSetOk. rewrite Hg, Ha. exact Hok.
Qed.

End SelectorFacts.

Section SchedulerClaims.

Variable cfg : Config.t.

(** C2: along every sequence of scheduler ticks, started in a state whose
    active set is within the configured maximum and inside the registry (as
    it is after start-up), the active set after each tick holds at most
    [maxActiveGoals] goals, all of them registered. *)
Theorem active_set_bounded (ws : list World) (s : GoalSelector) :
  activeSetOk cfg s → Forall (activeSetOk cfg) (tickTrace cfg ws s).
Proof.
  revert s. induction ws as [| w ws IH]; intros s Hok; simpl.
  - apply Forall_nil. trivial.
  - assert (Hnext := tick_ok cfg w s Hok).
    apply Forall_cons. split; [exact Hnext | apply IH; exact Hnext].
Qed.


(** C5 (amended): [GoalSelector.tick] has no catch around [goal.tick()].
    When a tick is due and the tick of an active goal raises, the exception
    leaves the scheduler's tick; that goal is still in the active set and as
    active as before, and goals not ticked before it are left as the
    activation pass left them.  Only [SurvivalGoal.tick] raises to the
    scheduler: the async [MineTreeGoal.tick] always returns, and a failed
    mining attempt stops that goal. *)
Theorem goal_error_propagates (w : World) (s : GoalSelector) (pre post : list GoalRef)
        (r : GoalRef) (h1 : GoalRef → Goal) (e : string) (g' : Goal) :
  Config.tickInterval cfg <= now w - lastTickTime s →
  let s1 := activationPass cfg w (removalPass cfg w s) in
  activeGoals s1 = (pre ++ r :: post)%list →
  tickAll w (sensorData s1) pre (heap s1) = (Completed, h1) →
  Goals.tick w (sensorData s1) (h1 r) = (Threw e, g') →
  fst (Selector.tick cfg w s) = Threw e
  ∧ activeGoals (snd (Selector.tick cfg w s)) = (pre ++ r :: post)%list
  ∧ isActive (heap (snd (Selector.tick cfg w s)) r) = isActive (h1 r)
  ∧ (∀ r', r' ≠ r → ¬ In r' pre → heap (snd (Selector.tick cfg w s)) r' = heap s1 r')
  ∧ (∀ sd g, cls g = MineTreeGoal →
             fst (Goals.tick w sd g) = Completed
             ∧ (∀ t msg, targetTree g = Some t →
                         dist2 (botPosition w) (resPosition t) <= 16 →
                         mineTreeError w = Some msg →
                         isActive (snd (Goals.tick w sd g)) = false)).
Proof.
  intros Hdue s1 Hact Hpre Hraise.
  rewrite (tick_due cfg w s Hdue). fold s1.
  destruct (tickPass_fields w s1) as [Hout [_ [Ha Hh]]].
  assert (Hall := tickAll_raise w (sensorData s1) pre post r (heap s1) h1 e g' Hpre Hraise).
  rewrite <- Hact in Hall.
  rewrite Hout, Ha, Hh, Hall. simpl.
  split; [reflexivity |]. split; [exact Hact |]. split; [| split].
  - rewrite upd_same.
    destruct (tick_threw w (sensorData s1) (h1 r) e g' Hraise) as [_ [-> _]].
    apply baseTick_fields.
  - intros r' Hne Hnot. rewrite upd_other by assumption.
    rewrite <- (tickAll_other w (sensorData s1) pre (heap s1) r' Hnot), Hpre.
    reflexivity.
  - intros sd g Hcls. unfold Goals.tick. rewrite Hcls. split; [reflexivity |].
    intros t msg Htree Hnear Herr. simpl. unfold mineTreeTick.
    assert (Htree' : targetTree (baseTick w g) = Some t).
    { unfold baseTick. destruct (negb (isActive g)); exact Htree. }
    rewrite Htree', Herr.
    destruct (Z.leb_spec (dist2 (botPosition w) (resPosition t)) 16); [reflexivity | lia].
Qed.

End SchedulerClaims.

(** C5 (as stated) fails: with a zombie two blocks away and [bot.attack]
    raising, the error of [SurvivalGoal.tick] leaves the scheduler's tick;
    the goal stays active and the exploration goal behind it is not
    ticked. *)
Lemma goal_error_escapes_scheduler :
  fst (Selector.tick CONFIG dangerWorld freshSelector) = Threw "attack failed"
  ∧ activeGoals (snd (Selector.tick CONFIG dangerWorld freshSelector)) = [0%nat; 3%nat]
  ∧ isActive (heap (snd (Selector.tick CONFIG dangerWorld freshSelector)) 0%nat) = true
  ∧ Goals.lastTickTime (heap (snd (Selector.tick CONFIG dangerWorld freshSelector)) 3%nat)
    = None.
Proof. repeat split; vm_compute; reflexivity. Qed.

Lemma active_set_bounded_example :
  activeSetOk CONFIG freshSelector
  ∧ Forall (activeSetOk CONFIG)
           (tickTrace CONFIG [quietWorld; atTime 40000 quietWorld] freshSelector).
Proof.
  assert (Hinit : activeSetOk CONFIG freshSelector).
  { split; [vm_compute; discriminate | intros r []]. }
  split; [exact Hinit |].
  exact (active_set_bounded CONFIG [quietWorld; atTime 40000 quietWorld] freshSelector Hinit).
Defined.


Lemma goal_error_propagates_example :
  fst (Selector.tick CONFIG dangerWorld freshSelector) = Threw "attack failed"
  ∧ activeGoals (snd (Selector.tick CONFIG dangerWorld freshSelector)) = [0%nat; 3%nat].
Proof.
  destruct (goal_error_propagates CONFIG dangerWorld freshSelector [] [3%nat] 0%nat
              (heap (activationPass CONFIG dangerWorld
                       (removalPass CONFIG dangerWorld freshSelector)))
              "attack failed"
              (baseTick dangerWorld
                 (heap (activationPass CONFIG dangerWorld
                          (removalPass CONFIG dangerWorld freshSelector)) 0%nat)))
    as [Hout [Hact _]].
  - vm_compute. discriminate.
  - reflexivity.
  - reflexivity.
  - reflexivity.
  - split; assumption.
Defined.


(** ** The active set never lists a goal twice *)

Section ActiveSetNoDup.

Variable cfg : Config.t.
Variable w : World.

Lemma includesRef_In (r : GoalRef) (l : list GoalRef) :
  includesRef r l = true ↔ In r l.
Proof.
  unfold includesRef. rewrite existsb_exists. split.
  - intros [x [Hx Heq]]. apply Nat.eqb_eq in Heq. subst. exact Hx.
  - intros Hr. exists r. split; [exact Hr | apply Nat.eqb_refl].
Qed.

Lemma insertDesc_NoDup {A : Type} (rank : A → Z) (x : A) (l : list A) :
  ¬ In x l → NoDup l → NoDup (insertDesc rank x l).
Proof.
  induction l as [| y l IH]; intros Hx Hnd; simpl.
  - apply NoDup_cons. split; [apply not_elem_of_nil | exact Hnd].
  - destruct (rank y <? rank x).
    + apply NoDup_cons. split; [rewrite list_elem_of_In; exact Hx | exact Hnd].
    + apply NoDup_cons in Hnd. destruct Hnd as [Hy Hnd].
      apply NoDup_cons. split.
      * rewrite list_elem_of_In, insertDesc_In. rewrite list_elem_of_In in Hy.
        intros [-> | Hin]; [apply Hx; left; reflexivity | contradiction].
      * apply IH; [intros Hin; apply Hx; right; exact Hin | exact Hnd].
Qed.

Lemma sortDesc_NoDup {A : Type} (rank : A → Z) (l : list A) :
  NoDup l → NoDup (sortDesc rank l).
Proof.
  unfold sortDesc.
  assert (Hgen : ∀ acc, NoDup acc → NoDup l → (∀ x, In x l → ¬ In x acc) →
                        NoDup (fold_left (fun acc y => insertDesc rank y acc) l acc)).
  { induction l as [| y l IH]; intros acc Hacc Hl Hdisj; simpl; [exact Hacc |].
    apply NoDup_cons in Hl. destruct Hl as [Hy Hl]. rewrite list_elem_of_In in Hy.
    apply IH; [| exact Hl |].
    - apply insertDesc_NoDup; [apply Hdisj; left; reflexivity | exact Hacc].
    - intros x Hx. rewrite insertDesc_In. intros [-> | Hin]; [contradiction |].
      apply (Hdisj x); [right; exact Hx | exact Hin]. }
  intros Hl. apply Hgen; [apply NoDup_nil; trivial | exact Hl | intros x _ []].
Qed.

Lemma retire_NoDup (sd : SensorData) (l : list GoalRef) (h : GoalRef → Goal) :
  NoDup l → NoDup (fst (retire cfg w sd l h)).
Proof.
  revert h. induction l as [| r0 l IH]; intros h Hnd; simpl; [exact Hnd |].
  apply NoDup_cons in Hnd. destruct Hnd as [Hr0 Hnd]. rewrite list_elem_of_In in Hr0.
  destruct (hasTimedOut cfg w (h r0) || negb (canContinue w sd (h r0)))%bool;
    [apply IH; exact Hnd |].
  assert (Hkept := proj2 (retire_kept cfg w sd l h)).
  specialize (IH h Hnd).
  destruct (retire cfg w sd l h) as [kept h']; simpl in *.
  apply NoDup_cons. split; [| exact IH].
  rewrite list_elem_of_In. intros Hin. apply Hr0, Hkept, Hin.
Qed.

Lemma activate_NoDup (sd : SensorData) (avail active : list GoalRef) (h : GoalRef → Goal) :
  NoDup (active ++ avail)%list → NoDup (fst (activate cfg w sd avail active h)).
Proof.
  revert active h. induction avail as [| r0 avail IH]; intros active h Hnd; simpl.
  - rewrite app_nil_r in Hnd. exact Hnd.
  - destruct (Z.of_nat (List.length active) <? Config.maxActiveGoals cfg).
    + apply IH. rewrite <- app_assoc. exact Hnd.
    + simpl. apply NoDup_app in Hnd. tauto.
Qed.

(** A scheduler tick keeps the active set free of repetitions. *)
Lemma tick_NoDup (s : GoalSelector) :
  NoDup (goals s) → NoDup (activeGoals s) →
  NoDup (activeGoals (snd (Selector.tick cfg w s))).
Proof.
  intros Hg Ha. unfold Selector.tick.
  destruct (now w - lastTickTime s <? Config.tickInterval cfg); [exact Ha |].
  destruct (tickPass_fields w (activationPass cfg w (removalPass cfg w s))) as [_ [_ [-> _]]].
  destruct (removalPass_fields cfg w s) as [Hg1 [Ha1 _]].
  set (s1 := removalPass cfg w s) in *.
  destruct (activationPass_fields cfg w s1) as [_ [-> _]].
  apply activate_NoDup, NoDup_app. split; [| split].
  - rewrite Ha1. apply retire_NoDup. exact Ha.
  - intros r Hr Hav. rewrite list_elem_of_In in Hr, Hav.
    apply sortDesc_In, List.filter_In in Hav. destruct Hav as [_ Hav].
    apply andb_true_iff in Hav. destruct Hav as [Hnot _].
    apply negb_true_iff in Hnot.
    apply includesRef_In in Hr. congruence.
  - apply sortDesc_NoDup, NoDup_ListNoDup, List.NoDup_filter, NoDup_ListNoDup.
    rewrite Hg1. exact Hg.
Qed.

End ActiveSetNoDup.

(** ** The stuck flag across decision cycles *)

Section StuckFlag.

Variable cfg : Config.t.

(** With proactive actions enabled, a cycle that starts with the stuck flag
    clear ends with it clear: the flag is only ever set between the stuck
    check and the override that follows it. *)
Lemma cycle_keeps_flag_clear (w : World) (s : BotState) :
  Config.proactiveActions cfg = true →
  isStuck (behaviorFlags (intel s)) = false →
  isStuck (behaviorFlags (intel (snd (executeLLMDecision cfg w s)))) = false.
Proof.
  intros Hpro Hflag.
  assert (Hprep : match prepare cfg w s with
                  | Skip s' | Execute _ s' => isStuck (behaviorFlags (intel s')) = false
                  end).
  { unfold prepare.
    destruct (Config.maxActions cfg <=? actionCount (exec s)); [exact Hflag |].
    destruct (Config.actionSyncEnabled cfg && isActionInProgress (exec s))%bool;
      [exact Hflag |].
    destruct (botReady w); cbn [negb]; [| exact Hflag].
    set (i1 := updatePositionTracking w (intel s)).
    assert (Hi1 : isStuck (behaviorFlags i1) = false) by exact Hflag.
    assert (Hov : isStuck (behaviorFlags (snd (getIntelligentOverride cfg w
                                                 (snd (detectStuckBehavior cfg i1))))) = false).
    { unfold detectStuckBehavior.
      destruct (Config.behavioralOverrides cfg) eqn:Hon; simpl.
      - destruct (_ <? _); simpl; [rewrite override_needs_flag; assumption |].
        destruct (allSame _); simpl; [| rewrite override_needs_flag; assumption].
        unfold getIntelligentOverride. rewrite Hon, Hpro. simpl.
        destruct (3 <=? _); [reflexivity |].
        destruct (scanTreeBlocks w _); reflexivity.
      - rewrite override_needs_flag; assumption. }
    destruct (detectStuckBehavior cfg i1) as [stuck i2]. simpl in Hov.
    destruct (getIntelligentOverride cfg w i2) as [[ov |] i3]; simpl in Hov;
      [exact Hov |].
    destruct (llmReply w) as [action |]; [| exact Hov].
    destruct (negb (validateAction action)); exact Hov. }
  unfold executeLLMDecision.
  destruct (prepare cfg w s) as [s' | a s']; [exact Hprep |].
  destruct (doAction cfg w a (exec s')) as [[| msg] e]; exact Hprep.
Qed.

End StuckFlag.

(** ** Consecutive counts across decision cycles *)

Section CycleCounts.

Variable cfg : Config.t.

(** The override's reset never outlives a cycle: the cycle records the
    override action right after, so a cycle leaves the counts as they were
    or with exactly one of them non-zero. *)
Lemma cycle_restores_single_count (w : World) (s : BotState) :
  countsNonNeg (consecutiveActions (intel s)) →
  let s' := snd (executeLLMDecision cfg w s) in
  consecutiveActions (intel s') = consecutiveActions (intel s)
  ∨ exactlyOneNonZero (consecutiveActions (intel s')).
Proof.
  intros Hnn.
  assert (Hprep : match prepare cfg w s with
                  | Skip s' | Execute _ s' =>
                      consecutiveActions (intel s') = consecutiveActions (intel s)
                      ∨ exactlyOneNonZero (consecutiveActions (intel s'))
                  end).
  { unfold prepare.
    destruct (Config.maxActions cfg <=? actionCount (exec s)); [left; reflexivity |].
    destruct (Config.actionSyncEnabled cfg && isActionInProgress (exec s))%bool;
      [left; reflexivity |].
    destruct (botReady w); cbn [negb]; [| left; reflexivity].
    set (i1 := updatePositionTracking w (intel s)).
    assert (Hi2 := detect_counts cfg i1).
    destruct (detectStuckBehavior cfg i1) as [stuck i2]. simpl in Hi2.
    destruct (override_cases cfg w i2) as [Hnone | [a [b Hres]]].
    - rewrite Hnone.
      destruct (llmReply w) as [action |]; [| left; exact Hi2].
      destruct (negb (validateAction action)); [left; exact Hi2 |].
      right. simpl. apply bumpCounts_exactlyOne. rewrite Hi2. exact Hnn.
    - rewrite Hres. right. simpl.
      apply bumpCounts_exactlyOne, allZero_nonNeg, zeroed_allZero. }
  unfold executeLLMDecision.
  destruct (prepare cfg w s) as [s' | a s']; [exact Hprep |].
  destruct (doAction cfg w a (exec s')) as [[| msg] e]; exact Hprep.
Qed.

End CycleCounts.

(** * Further facts: executor and decision cycle *)

Import Context Loop.

Section ValidatedActions.

Lemma assoc_In (k : string) (fields : list (string * JValue)) (v : JValue) :
  assoc k fields = Some v → In (k, v) fields.
Proof.
  induction fields as [| [k' v'] fields IH]; simpl; [discriminate |].
  destruct (String.eqb_spec k k') as [<- | Hne].
  - intros H. injection H as <-. left. reflexivity.
  - intros H. right. apply IH. exact H.
Qed.

(** What the validator guarantees about the three properties [doAction]
    reads. *)
Lemma validateAction_props (a : JValue) :
  validateAction a = true →
  (∃ s k, getProp "action" a = Some (JStr s) ∧ kindOfString s = Some k)
  ∧ (getProp "args" a = None ∨ ∃ fs, getProp "args" a = Some (JObj fs))
  ∧ (getProp "horizon_ms" a = None
     ∨ ∃ n, getProp "horizon_ms" a = Some (JNum n) ∧ 100 <= n <= 5000).
Proof.
  destruct a as [| | | | | fields]; try discriminate.
  unfold validateAction. rewrite andb_true_iff, forallb_forall. intros [Hreq Hall].
  simpl. split; [| split].
  - destruct (assoc "action" fields) as [v |] eqn:E; [| discriminate].
    specialize (Hall _ (assoc_In _ _ _ E)). simpl in Hall.
    destruct v; try discriminate. simpl in Hall.
    destruct (kindOfString s) as [k |] eqn:Ek; [| discriminate].
    exists s, k. split; [reflexivity | exact Ek].
  - destruct (assoc "args" fields) as [v |] eqn:E; [| left; reflexivity].
    specialize (Hall _ (assoc_In _ _ _ E)). simpl in Hall.
    destruct v; try discriminate. right. eexists. reflexivity.
  - destruct (assoc "horizon_ms" fields) as [v |] eqn:E; [| left; reflexivity].
    specialize (Hall _ (assoc_In _ _ _ E)). simpl in Hall.
    destruct v; try discriminate. simpl in Hall.
    apply andb_true_iff in Hall. destruct Hall as [Hlo Hhi].
    right. exists n. split; [reflexivity | lia].
Qed.

End ValidatedActions.

Section ExecutorExtras.

Variable cfg : Config.t.

Lemma doAction_history_eq (w : World) (a : JValue) (e : ExecState) :
  let record := mkActionRecord (getProp "action" a)
                               (default (JObj []) (getProp "args" a))
                               (clampHorizon (getProp "horizon_ms" a)) in
  let entry :=
    mkHistoryEntry (now w + actionElapsed w) record
      (match fst (doAction cfg w a e) with Completed => "completed" | Threw _ => "failed" end)
      (match fst (doAction cfg w a e) with Completed => None | Threw m => Some m end)
      (Z.of_nat (List.length (actionHistory e)) + 1)
      (if now w =? 0 then 0 else actionElapsed w) in
  actionHistory (snd (doAction cfg w a e))
  = if Config.maxHistory cfg <? Z.of_nat (List.length (actionHistory e ++ [entry])%list)
    then drop 1 (actionHistory e ++ [entry])%list
    else (actionHistory e ++ [entry])%list.
Proof.
  intros record entry. unfold entry, record, doAction.
  destruct (handler w (getProp "action" a) (default (JObj []) (getProp "args" a)));
    simpl; destruct (now w =? 0);
    repeat match goal with
           | |- context [now w + actionElapsed w - now w] =>
               replace (now w + actionElapsed w - now w) with (actionElapsed w) by lia
           end; reflexivity.
Qed.

(** One action appends one entry and evicts the oldest one at the limit. *)
Lemma doAction_history_step (w : World) (a : JValue) (e : ExecState) :
  1 <= Config.maxHistory cfg →
  Z.of_nat (List.length (actionHistory e)) <= Config.maxHistory cfg →
  let e' := snd (doAction cfg w a e) in
  Z.of_nat (List.length (actionHistory e')) <= Config.maxHistory cfg
  ∧ ∃ entry,
      actionHistory e'
      = ((if Z.of_nat (List.length (actionHistory e)) =? Config.maxHistory cfg
          then drop 1 (actionHistory e) else actionHistory e) ++ [entry])%list
      ∧ crAction (entryAction entry) = getProp "action" a
      ∧ entryResult entry
        = match fst (doAction cfg w a e) with
          | Completed => "completed"
          | Threw _ => "failed"
          end
      ∧ entryError entry
        = match fst (doAction cfg w a e) with
          | Completed => None
          | Threw m => Some m
          end.
Proof.
  intros Hmax Hlen e'. unfold e'. rewrite doAction_history_eq.
  set (entry := mkHistoryEntry _ _ _ _ _ _).
  rewrite length_app. simpl.
  destruct (Z.ltb_spec (Config.maxHistory cfg)
              (Z.of_nat (List.length (actionHistory e) + 1))) as [Hfull | Hroom].
  - assert (Heq : Z.of_nat (List.length (actionHistory e)) = Config.maxHistory cfg) by lia.
    rewrite (proj2 (Z.eqb_eq _ _) Heq).
    destruct (actionHistory e) as [| h0 hs] eqn:Eh; [simpl in Heq; lia |].
    split.
    + rewrite length_drop, length_app. simpl in *. lia.
    + exists entry. repeat split.
  - destruct (Z.eqb_spec (Z.of_nat (List.length (actionHistory e))) (Config.maxHistory cfg));
      [lia |].
    split; [rewrite length_app; simpl; lia |].
    exists entry. repeat split.
Qed.

(** X1: [doAction] appends exactly one history entry for the action it ran,
    marked completed or failed as the call ended, and keeps the history
    within [maxHistory] by evicting the oldest entry. *)
Theorem doAction_history_bounded (w : World) (a : JValue) (e : ExecState) :
  1 <= Config.maxHistory cfg →
  Z.of_nat (List.length (actionHistory e)) <= Config.maxHistory cfg →
  let e' := snd (doAction cfg w a e) in
  Z.of_nat (List.length (actionHistory e')) <= Config.maxHistory cfg
  ∧ ∃ entry,
      actionHistory e'
      = ((if Z.of_nat (List.length (actionHistory e)) =? Config.maxHistory cfg
          then drop 1 (actionHistory e) else actionHistory e) ++ [entry])%list
      ∧ crAction (entryAction entry) = getProp "action" a
      ∧ entryResult entry
        = match fst (doAction cfg w a e) with
          | Completed => "completed"
          | Threw _ => "failed"
          end
      ∧ entryError entry
        = match fst (doAction cfg w a e) with
          | Completed => None
          | Threw m => Some m
          end.
Proof. apply doAction_history_step. Qed.

Lemma clampHorizon_range (h : option JValue) (n : Z) :
  clampHorizon h = Some n → 100 <= n <= 5000.
Proof.
  unfold clampHorizon, clamp.
  destruct h as [[| [|] | m | s | l | fs] |]; simpl;
    try discriminate; try (intros H; injection H as <-; lia).
  - destruct (m =? 0); simpl; intros H; injection H as <-; lia.
  - destruct (String.eqb s ""); simpl; [intros H; injection H as <-; lia | discriminate].
Qed.

(** X2: the horizon [doAction] tracks and records is always within 100 and
    5000 ms; for a schema-valid action it is the action's own [horizon_ms],
    and 400 when the action has none. *)
Theorem recorded_horizon (w : World) (a : JValue) (e : ExecState) :
  (∀ entry n, last (actionHistory (snd (doAction cfg w a e))) = Some entry →
              crHorizon (entryAction entry) = Some n → 100 <= n <= 5000)
  ∧ (validateAction a = true →
     1 <= Config.maxHistory cfg →
     ∃ entry, last (actionHistory (snd (doAction cfg w a e))) = Some entry
              ∧ crHorizon (entryAction entry)
                = Some (match getProp "horizon_ms" a with
                        | Some (JNum n) => n
                        | _ => 400
                        end)).
Proof.
  assert (Hlast : 1 <= Config.maxHistory cfg →
                  ∃ entry, last (actionHistory (snd (doAction cfg w a e))) = Some entry
                           ∧ crHorizon (entryAction entry)
                             = clampHorizon (getProp "horizon_ms" a)).
  { intros Hmax. rewrite doAction_history_eq.
    set (entry := mkHistoryEntry _ _ _ _ _ _).
    exists entry. split; [| reflexivity].
    destruct (_ <? _) eqn:E; [| apply last_snoc].
    destruct (actionHistory e) as [| h0 hs]; simpl.
    - simpl in E. apply Z.ltb_lt in E. lia.
    - apply last_snoc. }
  split.
  - intros entry n Hl Hn.
    rewrite doAction_history_eq in Hl.
    set (new := mkHistoryEntry _ _ _ _ _ _) in Hl.
    assert (Hentry : entry = new).
    { destruct (_ <? _) in Hl.
      - destruct (actionHistory e) as [| h0 hs]; [discriminate |].
        change (drop 1 ((h0 :: hs) ++ [new])%list) with (hs ++ [new])%list in Hl.
        rewrite last_snoc in Hl. congruence.
      - rewrite last_snoc in Hl. congruence. }
    subst entry. simpl in Hn. eapply clampHorizon_range. exact Hn.
  - intros Hvalid Hmax. destruct (Hlast Hmax) as [entry [Hl Hh]].
    exists entry. split; [exact Hl |]. rewrite Hh.
    destruct (validateAction_props a Hvalid) as [_ [_ [-> | [n [-> Hn]]]]].
    + reflexivity.
    + unfold clampHorizon, clamp. simpl.
      destruct (Z.eqb_spec n 0); [lia |]. simpl. f_equal. lia.
Qed.

Lemma doAction_outcome (w : World) (a : JValue) (e : ExecState) :
  fst (doAction cfg w a e)
  = handler w (getProp "action" a) (default (JObj []) (getProp "args" a)).
Proof. unfold doAction. destruct (handler _ _ _); reflexivity. Qed.



End ExecutorExtras.

Section CycleExtras.

Variable cfg : Config.t.

Lemma doAction_count (w : World) (a : JValue) (e : ExecState) :
  actionCount (snd (doAction cfg w a e)) = actionCount e + 2 + handlerLogs w.
Proof.
  unfold doAction. destruct (handler _ _ _); simpl; lia.
Qed.

Lemma cycle_count (w : World) (s : BotState) :
  0 <= handlerLogs w →
  actionCount (exec s) <= actionCount (exec (snd (executeLLMDecision cfg w s)))
  ∧ (fst (executeLLMDecision cfg w s) = true →
     actionCount (exec s) < Config.maxActions cfg
     ∧ actionCount (exec s) + 2 <= actionCount (exec (snd (executeLLMDecision cfg w s)))).
Proof.
  intros Hlogs. unfold executeLLMDecision.
  assert (Hexec := prepare_exec cfg w s).
  assert (Hlim : ∀ a s', prepare cfg w s = Execute a s' →
                         actionCount (exec s) < Config.maxActions cfg).
  { intros a s' Hp. unfold prepare in Hp.
    destruct (Z.leb_spec (Config.maxActions cfg) (actionCount (exec s)));
      [discriminate | assumption]. }
  destruct (prepare cfg w s) as [s' | a s'] eqn:Hp.
  - simpl. rewrite Hexec. split; [lia | discriminate].
  - assert (Hc := doAction_count w a (exec s')).
    specialize (Hlim a s' eq_refl).
    destruct (doAction cfg w a (exec s')) as [[| msg] e]; simpl in *;
      rewrite Hc, Hexec; split; try lia; intros _; lia.
Qed.

(** Once the action limit is reached a cycle only switches auto mode off. *)
Lemma cycle_at_limit (w : World) (s : BotState) :
  Config.maxActions cfg <= actionCount (exec s) →
  executeLLMDecision cfg w s = (false, mkBotState (exec s) (intel s) false).
Proof.
  intros Hlim. unfold executeLLMDecision, prepare.
  destruct (Z.leb_spec (Config.maxActions cfg) (actionCount (exec s))); [reflexivity | lia].
Qed.

(** X4: auto mode against the action limit, for cycles that run one after
    another, each returning before the next begins.  Every executed action
    moves the logger's count up by at least two, and a cycle executes only
    below [maxActions], so such a run that completes n >= 1 actions
    satisfies 2(n-1) + count < maxActions; from the limit on every cycle
    returns false and leaves executor and memory alone.  Whatever else is
    running, a cycle that begins at or above the limit returns at once with
    executor and memory as they are. *)
Theorem auto_mode_action_limit (ws : list World) (s : BotState) :
  Forall (fun w => 0 <= handlerLogs w) ws →
  let n := executed (fst (cycles cfg ws s)) in
  (n = 0 ∨ 2 * (n - 1) + actionCount (exec s) < Config.maxActions cfg)
  ∧ (Config.maxActions cfg <= actionCount (exec s) →
     Forall (fun b => b = false) (fst (cycles cfg ws s))
     ∧ exec (snd (cycles cfg ws s)) = exec s
     ∧ intel (snd (cycles cfg ws s)) = intel s)
  ∧ (∀ w s', Config.maxActions cfg <= actionCount (exec s') →
             cycleBegin cfg w s' = Returned (mkBotState (exec s') (intel s') false)).
Proof.
  intros Hlogs.
  assert (Hbegin : ∀ w s', Config.maxActions cfg <= actionCount (exec s') →
                           cycleBegin cfg w s'
                           = Returned (mkBotState (exec s') (intel s') false)).
  { intros w s' Hlim. unfold cycleBegin.
    destruct (Z.leb_spec (Config.maxActions cfg) (actionCount (exec s')));
      [reflexivity | lia]. }
  revert s. induction Hlogs as [| w ws Hw _ IH]; intros s n.
  - split; [left; reflexivity |]. split; [| exact Hbegin].
    intros _. simpl. repeat split. apply Forall_nil. trivial.
  - unfold n. simpl.
    destruct (cycle_count w s Hw) as [Hmono Htrue].
    assert (Hat := cycle_at_limit w s).
    destruct (executeLLMDecision cfg w s) as [done s1] eqn:Hc. simpl in *.
    specialize (IH s1). cbv zeta in IH. destruct IH as [IHn [IHlim _]].
    destruct (cycles cfg ws s1) as [more s2] eqn:Hr. simpl in *.
    split; [| split; [| exact Hbegin]].
    + unfold executed in *. simpl.
      destruct done; simpl.
      * destruct (Htrue eq_refl) as [Hbelow Hup]. right.
        destruct IHn as [H0 | Hn].
        -- assert (List.length (List.filter (fun b : bool => b) more) = 0%nat) by lia.
           lia.
        -- lia.
      * destruct IHn as [H0 | Hn]; [left; exact H0 | right; lia].
    + intros Hlim. specialize (Hat Hlim). injection Hat as Hd Hs1. subst done s1.
      simpl in IHlim.
      destruct (IHlim Hlim) as [Hall [He Hi]].
      split; [apply Forall_cons; split; [reflexivity | exact Hall] |].
      split; assumption.
Qed.

(** The stuck check reads the action memory and the configuration only. *)
Lemma detect_positions (w : World) (i : BotIntelligence) :
  fst (detectStuckBehavior cfg (updatePositionTracking w i))
  = fst (detectStuckBehavior cfg i).
Proof.
  unfold detectStuckBehavior. simpl.
  destruct (negb _); [reflexivity |].
  destruct (_ <? _); [reflexivity |].
  destruct (allSame _); reflexivity.
Qed.

(** X5: a cycle that is neither stuck nor given a schema-valid reply takes
    no action: it returns false, the executor's state is as before, and
    nothing is recorded in the behavioural memory. *)
Theorem undecided_cycle_changes_nothing (w : World) (s : BotState) :
  isStuck (behaviorFlags (intel s)) = false →
  fst (detectStuckBehavior cfg (intel s)) = false →
  (botReady w = false ∨ llmReply w = None
   ∨ ∃ a, llmReply w = Some a ∧ validateAction a = false) →
  let r := executeLLMDecision cfg w s in
  fst r = false
  ∧ exec (snd r) = exec s
  ∧ actionMemory (intel (snd r)) = actionMemory (intel s)
  ∧ consecutiveActions (intel (snd r)) = consecutiveActions (intel s)
  ∧ lastLLMDecision (intel (snd r)) = lastLLMDecision (intel s).
Proof.
  intros Hflag Hdet Hreply r. unfold r, executeLLMDecision, prepare.
  destruct (Config.maxActions cfg <=? actionCount (exec s)); [repeat split |].
  destruct (Config.actionSyncEnabled cfg && isActionInProgress (exec s))%bool;
    [repeat split |].
  destruct (botReady w) eqn:Hready; cbn [negb]; [| repeat split].
  set (i1 := updatePositionTracking w (intel s)).
  assert (Hd1 : fst (detectStuckBehavior cfg i1) = false)
    by (unfold i1; rewrite detect_positions; exact Hdet).
  assert (Hs1 := detect_false_state cfg i1 Hd1).
  destruct (detectStuckBehavior cfg i1) as [stuck i2]. simpl in Hs1. subst i2.
  rewrite (override_needs_flag cfg w i1 Hflag).
  destruct Hreply as [Hno | [Hnone | [a [Hsome Hbad]]]].
  - discriminate.
  - rewrite Hnone. simpl. repeat split.
  - rewrite Hsome, Hbad. simpl. repeat split.
Qed.

(** A cycle whose stuck check fires runs the override, whatever the policy
    source would answer. *)
Lemma stuck_cycle_skips_policy (w : World) (s : BotState) (reply : option JValue) :
  Config.proactiveActions cfg = true →
  isActionInProgress (exec s) = false →
  actionCount (exec s) < Config.maxActions cfg →
  botReady w = true →
  fst (detectStuckBehavior cfg (intel s)) = true →
  executeLLMDecision cfg (withReply reply w) s = executeLLMDecision cfg w s
  ∧ ∃ a s',
      s' = mkBotState (exec s)
             (setLastDecision a
                (updateActionMemory cfg w a
                   (snd (getIntelligentOverride cfg w
                           (snd (detectStuckBehavior cfg
                                   (updatePositionTracking w (intel s))))))))
             (autoModeTimer s)
      ∧ cycleBegin cfg w s = Calls a s'
      ∧ prepare cfg w s = Execute a s'
      ∧ fst (getIntelligentOverride cfg w
               (snd (detectStuckBehavior cfg (updatePositionTracking w (intel s)))))
        = Some a.
Proof.
  intros Hpro Hidle Hbelow Hready Hstuck.
  set (i1 := updatePositionTracking w (intel s)).
  assert (Hd1 : fst (detectStuckBehavior cfg i1) = true)
    by (unfold i1; rewrite detect_positions; exact Hstuck).
  assert (Hflag := detect_true_state cfg i1 Hd1).
  assert (Hon : Config.behavioralOverrides cfg = true).
  { unfold detectStuckBehavior in Hd1.
    destruct (Config.behavioralOverrides cfg); [reflexivity | discriminate]. }
  assert (Hsome : ∃ a, fst (getIntelligentOverride cfg w (snd (detectStuckBehavior cfg i1)))
                       = Some a).
  { unfold getIntelligentOverride. rewrite Hon, Hflag, Hpro. simpl.
    destruct (3 <=? _); [eexists; reflexivity |].
    destruct (scanTreeBlocks w _); eexists; reflexivity. }
  destruct Hsome as [a Ha].
  set (s' := mkBotState (exec s)
               (setLastDecision a
                  (updateActionMemory cfg w a
                     (snd (getIntelligentOverride cfg w (snd (detectStuckBehavior cfg i1))))))
               (autoModeTimer s)).
  assert (Hprep : ∀ w', (∀ i, getIntelligentOverride cfg w' i = getIntelligentOverride cfg w i) →
                        updatePositionTracking w' (intel s) = i1 →
                        (∀ x i, updateActionMemory cfg w' x i = updateActionMemory cfg w x i) →
                        botReady w' = true →
                        prepare cfg w' s = Execute a s').
  { intros w' Hov Hpos Hrec Hr'. unfold prepare.
    destruct (Z.leb_spec (Config.maxActions cfg) (actionCount (exec s))); [lia |].
    rewrite Hidle, andb_false_r, Hr', Hpos. cbn [negb].
    unfold s'.
    destruct (detectStuckBehavior cfg i1) as [stuck i2]. simpl in *.
    rewrite Hov.
    destruct (getIntelligentOverride cfg w i2) as [ov i3]. simpl in *.
    subst ov. rewrite Hrec. reflexivity. }
  assert (Hbegin : cycleBegin cfg w s = Calls a s').
  { unfold cycleBegin.
    destruct (Z.leb_spec (Config.maxActions cfg) (actionCount (exec s))); [lia |].
    rewrite Hidle, andb_false_r, Hready. cbn [negb]. fold i1.
    unfold s'.
    destruct (detectStuckBehavior cfg i1) as [stuck i2]. simpl in *.
    destruct (getIntelligentOverride cfg w i2) as [ov i3]. simpl in *.
    subst ov. reflexivity. }
  split.
  - unfold executeLLMDecision.
    rewrite (Hprep (withReply reply w)) by (intros; first [reflexivity | exact Hready]).
    rewrite (Hprep w) by (intros; first [reflexivity | exact Hready]).
    reflexivity.
  - exists a, s'. split; [reflexivity |]. split; [exact Hbegin |].
    split; [| exact Ha]. apply Hprep; intros; first [reflexivity | exact Hready].
Qed.

(** X6: when the stuck check fires in an idle cycle below the action limit
    (proactive actions enabled, [bot.entity] set), the cycle calls [doAction]
    on the override before it first gives way and never sends a request to
    the policy source: its result is the same whatever the reply would have
    been. *)
Theorem override_precedes_policy (w : World) (s : BotState) (reply : option JValue) :
  Config.proactiveActions cfg = true →
  isActionInProgress (exec s) = false →
  actionCount (exec s) < Config.maxActions cfg →
  botReady w = true →
  fst (detectStuckBehavior cfg (intel s)) = true →
  executeLLMDecision cfg (withReply reply w) s = executeLLMDecision cfg w s
  ∧ ∃ a s',
      s' = mkBotState (exec s)
             (setLastDecision a
                (updateActionMemory cfg w a
                   (snd (getIntelligentOverride cfg w
                           (snd (detectStuckBehavior cfg
                                   (updatePositionTracking w (intel s))))))))
             (autoModeTimer s)
      ∧ cycleBegin cfg w s = Calls a s'
      ∧ prepare cfg w s = Execute a s'
      ∧ fst (getIntelligentOverride cfg w
               (snd (detectStuckBehavior cfg (updatePositionTracking w (intel s)))))
        = Some a.
Proof. apply stuck_cycle_skips_policy. Qed.

(** X7: every action a cycle is about to execute has just been recorded: it
    is the newest entry of the action memory and the last decision, and it
    is either a schema-valid reply of the policy source or one of the two
    actions the override builds. *)
Theorem executed_action_is_recorded (w : World) (s : BotState) (a : JValue)
        (s' : BotState) :
  1 <= Config.memoryDepth cfg →
  prepare cfg w s = Execute a s' →
  last (actionMemory (intel s')) = Some (mkEntry (actionKey a) (now w) a)
  ∧ lastLLMDecision (intel s') = Some a
  ∧ ((llmReply w = Some a ∧ validateAction a = true)
     ∨ a = exploreAction cfg w
     ∨ ∃ b, a = mineTreeAction b).
Proof.
  intros Hdepth Hp. unfold prepare in Hp.
  destruct (Config.maxActions cfg <=? actionCount (exec s)); [discriminate |].
  destruct (Config.actionSyncEnabled cfg && isActionInProgress (exec s))%bool;
    [discriminate |].
  destruct (botReady w); cbn [negb] in Hp; [| discriminate].
  destruct (detectStuckBehavior cfg (updatePositionTracking w (intel s))) as [stuck i2].
  assert (Hlast : ∀ x i, last (actionMemory (setLastDecision x (updateActionMemory cfg w x i)))
                         = Some (mkEntry (actionKey x) (now w) x)).
  { intros x i. simpl.
    destruct (pushCapped_last (Config.memoryDepth cfg) (actionMemory i)
                (mkEntry (actionKey x) (now w) x) Hdepth) as [l' ->].
    apply last_snoc. }
  assert (Hkind : ∀ ov i3, getIntelligentOverride cfg w i2 = (Some ov, i3) →
                           ov = exploreAction cfg w ∨ ∃ b, ov = mineTreeAction b).
  { intros ov i3. unfold getIntelligentOverride.
    destruct (negb _ || negb _)%bool; [discriminate |].
    destruct (3 <=? _); [intros H; injection H as <- _; left; reflexivity |].
    destruct (scanTreeBlocks w _) as [| b bs].
    - destruct (Config.proactiveActions cfg); [| discriminate].
      intros H; injection H as <- _; left; reflexivity.
    - intros H; injection H as <- _; right; exists b; reflexivity. }
  destruct (getIntelligentOverride cfg w i2) as [[ov |] i3].
  - injection Hp as <- <-. split; [apply Hlast |]. split; [reflexivity |].
    right. eapply Hkind. reflexivity.
  - destruct (llmReply w) as [action |]; [| discriminate].
    destruct (validateAction action) eqn:Hv; [| discriminate].
    injection Hp as <- <-. split; [apply Hlast |]. split; [reflexivity |].
    left. split; [reflexivity | exact Hv].
Qed.

(** What the override's scan finds is a tree block of the world. *)
Lemma scanTreeBlocks_found (w : World) (radius : Z) (b : Block) :
  In b (scanTreeBlocks w radius) →
  ∃ p, blockAt w p = Some b ∧ isTreeBlock (Some b) = true.
Proof.
  unfold scanTreeBlocks. rewrite <- list_elem_of_In.
  setoid_rewrite list_elem_of_bind. setoid_rewrite list_elem_of_bind.
  setoid_rewrite list_elem_of_bind.
  intros [x [[y [[z [Hb _]] _]] _]].
  exists (offset (botPosition w) x y z).
  destruct (blockAt w (offset (botPosition w) x y z)) as [b' |] eqn:Eb;
    [| apply elem_of_nil in Hb; contradiction].
  destruct (isTreeBlock (Some b')) eqn:Et; [| apply elem_of_nil in Hb; contradiction].
  apply list_elem_of_singleton in Hb. subst b'. split; [reflexivity | exact Et].
Qed.

(** X12: the override's actions against schema and executor, in the world
    the override was computed in ([bot.entity] set, every block where the
    world says it is).  The GOTO it builds for exploration is schema-valid;
    the MINE_TREE it builds carries a horizon of 10000 ms, which the schema
    rejects, yet [doAction] takes it (the override is not validated) and
    clamps the horizon to 5000.  The GOTO passes the checks of its case, and
    so does the MINE_TREE for a block the override's scan found, so their
    outcome is that of the rest of the case. *)
Theorem override_actions_executable (w : World) (b : Block) (e : ExecState) :
  botReady w = true →
  (∀ p block, blockAt w p = Some block → blockPosition block = p) →
  validateAction (exploreAction cfg w) = true
  ∧ validateAction (mineTreeAction b) = false
  ∧ (∃ args, fst (doAction cfg w (exploreAction cfg w) e) = actuate w GOTO args)
  ∧ (In b (scanTreeBlocks w (Config.proximityMiningDistance cfg)) →
     ∃ args, fst (doAction cfg w (mineTreeAction b) e) = actuate w MINE_TREE args)
  ∧ clampHorizon (getProp "horizon_ms" (mineTreeAction b)) = Some 5000
  ∧ clampHorizon (getProp "horizon_ms" (exploreAction cfg w)) = Some 1200.
Proof.
  intros Hready Hplaced.
  split; [unfold exploreAction;
          destruct (randomOffset w (Config.explorationDistance cfg)); reflexivity |].
  split; [reflexivity |].
  split.
  { unfold exploreAction.
    destruct (randomOffset w (Config.explorationDistance cfg)) as [dx dz].
    eexists. rewrite doAction_outcome. unfold handler. cbn [getProp assoc String.eqb Ascii.eqb Bool.eqb kindOf kindOfString default].
    unfold checks. cbn. rewrite Hready. reflexivity. }
  split.
  { intros Hscan. destruct (scanTreeBlocks_found w _ b Hscan) as [p [Hat Htree]].
    assert (Hpos := Hplaced p b Hat). subst p.
    assert (Htarget : mkPos (px (blockPosition b)) (py (blockPosition b))
                            (pz (blockPosition b)) = blockPosition b)
      by (destruct (blockPosition b); reflexivity).
    eexists. rewrite doAction_outcome. unfold handler, mineTreeAction.
    cbn [getProp assoc String.eqb Ascii.eqb Bool.eqb kindOf kindOfString default].
    unfold checks. cbn. rewrite Htarget, Hat, Htree. reflexivity. }
  split; [reflexivity |].
  unfold exploreAction. destruct (randomOffset w (Config.explorationDistance cfg)).
  reflexivity.
Qed.

End CycleExtras.

Section MemoryExtras.

Variable cfg : Config.t.

Lemma pushCapped_length {A : Type} (cap : Z) (x : A) (l : list A) :
  0 <= cap → Z.of_nat (List.length l) <= cap →
  Z.of_nat (List.length (pushCapped cap x l)) <= cap
  ∧ (List.length l <= List.length (pushCapped cap x l))%nat.
Proof.
  intros Hcap Hlen. unfold pushCapped. rewrite length_app. simpl.
  destruct (Z.ltb_spec cap (Z.of_nat (List.length l + 1))).
  - rewrite length_drop, length_app. simpl. lia.
  - rewrite length_app. simpl. lia.
Qed.

Lemma pushCapped_Forall {A : Type} (P : A → Prop) (cap : Z) (x : A) (l : list A) :
  P x → Forall P l → Forall P (pushCapped cap x l).
Proof.
  intros Hx Hl. unfold pushCapped.
  assert (Hall : Forall P (l ++ [x])%list).
  { apply Forall_app. split; [exact Hl |]. apply Forall_cons. split; [exact Hx |].
    apply Forall_nil. trivial. }
  destruct (_ <? _); [apply Forall_drop |]; exact Hall.
Qed.

(** What a cycle does to the action memory: nothing, or one push of the
    action it is about to execute. *)
Lemma cycle_memory (w : World) (s : BotState) :
  actionMemory (intel (snd (executeLLMDecision cfg w s))) = actionMemory (intel s)
  ∨ ∃ a, actionMemory (intel (snd (executeLLMDecision cfg w s)))
         = pushCapped (Config.memoryDepth cfg) (mkEntry (actionKey a) (now w) a)
                      (actionMemory (intel s))
         ∧ ((llmReply w = Some a ∧ validateAction a = true)
            ∨ a = exploreAction cfg w ∨ ∃ b, a = mineTreeAction b).
Proof.
  assert (Hprep : match prepare cfg w s with
                  | Skip s' => actionMemory (intel s') = actionMemory (intel s)
                  | Execute a s' =>
                      actionMemory (intel s')
                      = pushCapped (Config.memoryDepth cfg) (mkEntry (actionKey a) (now w) a)
                                   (actionMemory (intel s))
                      ∧ ((llmReply w = Some a ∧ validateAction a = true)
                         ∨ a = exploreAction cfg w ∨ ∃ b, a = mineTreeAction b)
                  end).
  { unfold prepare.
    destruct (Config.maxActions cfg <=? actionCount (exec s)); [reflexivity |].
    destruct (Config.actionSyncEnabled cfg && isActionInProgress (exec s))%bool;
      [reflexivity |].
    destruct (botReady w); cbn [negb]; [| reflexivity].
    set (i1 := updatePositionTracking w (intel s)).
    assert (Hm2 := detect_memory cfg i1).
    destruct (detectStuckBehavior cfg i1) as [stuck i2]. simpl in Hm2.
    assert (Hm3 := override_memory cfg w i2).
    assert (Hkind : ∀ ov i3, getIntelligentOverride cfg w i2 = (Some ov, i3) →
                             ov = exploreAction cfg w ∨ ∃ b, ov = mineTreeAction b).
    { intros ov i3. unfold getIntelligentOverride.
      destruct (negb _ || negb _)%bool; [discriminate |].
      destruct (3 <=? _); [intros H; injection H as <- _; left; reflexivity |].
      destruct (scanTreeBlocks w _) as [| b bs].
      - destruct (Config.proactiveActions cfg); [| discriminate].
        intros H; injection H as <- _; left; reflexivity.
      - intros H; injection H as <- _; right; exists b; reflexivity. }
    destruct (getIntelligentOverride cfg w i2) as [[ov |] i3]; simpl in Hm3.
    - split; [simpl; rewrite Hm3, Hm2; reflexivity |].
      right. eapply Hkind. reflexivity.
    - destruct (llmReply w) as [action |]; [| simpl; congruence].
      destruct (validateAction action) eqn:Hv; [| simpl; congruence].
      split; [simpl; rewrite Hm3, Hm2; reflexivity |].
      left. split; [reflexivity | exact Hv]. }
  unfold executeLLMDecision.
  destruct (prepare cfg w s) as [s' | a s']; [left; exact Hprep |].
  right. exists a.
  destruct (doAction cfg w a (exec s')) as [[| msg] e]; exact Hprep.
Qed.

Lemma cycle_positions (w : World) (s : BotState) :
  lastPositions (intel (snd (executeLLMDecision cfg w s))) = lastPositions (intel s)
  ∨ lastPositions (intel (snd (executeLLMDecision cfg w s)))
    = pushCapped 10 (botPosition w, now w) (lastPositions (intel s)).
Proof.
  assert (Hdet : ∀ i, lastPositions (snd (detectStuckBehavior cfg i)) = lastPositions i).
  { intros i. unfold detectStuckBehavior.
    destruct (negb _); [reflexivity |]. destruct (_ <? _); [reflexivity |].
    destruct (allSame _); reflexivity. }
  assert (Hov : ∀ i, lastPositions (snd (getIntelligentOverride cfg w i)) = lastPositions i).
  { intros i. destruct (override_cases cfg w i) as [-> | [a [b ->]]]; reflexivity. }
  assert (Hprep : match prepare cfg w s with
                  | Skip s' | Execute _ s' =>
                      lastPositions (intel s') = lastPositions (intel s)
                      ∨ lastPositions (intel s')
                        = pushCapped 10 (botPosition w, now w) (lastPositions (intel s))
                  end).
  { unfold prepare.
    destruct (Config.maxActions cfg <=? actionCount (exec s)); [left; reflexivity |].
    destruct (Config.actionSyncEnabled cfg && isActionInProgress (exec s))%bool;
      [left; reflexivity |].
    destruct (botReady w); cbn [negb]; [| left; reflexivity].
    set (i1 := updatePositionTracking w (intel s)).
    specialize (Hdet i1).
    destruct (detectStuckBehavior cfg i1) as [stuck i2]. simpl in Hdet.
    specialize (Hov i2).
    destruct (getIntelligentOverride cfg w i2) as [[ov |] i3]; simpl in Hov.
    - right. simpl. rewrite Hov, Hdet. reflexivity.
    - destruct (llmReply w) as [action |]; [| right; simpl; congruence].
      destruct (negb (validateAction action)); right; simpl; congruence. }
  unfold executeLLMDecision.
  destruct (prepare cfg w s) as [s' | a s']; [exact Hprep |].
  destruct (doAction cfg w a (exec s')) as [[| msg] e]; exact Hprep.
Qed.

Lemma cycle_history (w : World) (s : BotState) :
  actionHistory (exec (snd (executeLLMDecision cfg w s))) = actionHistory (exec s)
  ∨ ∃ a, actionHistory (exec (snd (executeLLMDecision cfg w s)))
         = actionHistory (snd (doAction cfg w a (exec s))).
Proof.
  unfold executeLLMDecision.
  assert (Hexec := prepare_exec cfg w s).
  destruct (prepare cfg w s) as [s' | a s']; [left; simpl; congruence |].
  right. exists a. rewrite <- Hexec.
  destruct (doAction cfg w a (exec s')) as [[| msg] e]; reflexivity.
Qed.

(** X8: a decision cycle keeps the action memory within [memoryDepth], the
    position samples within 10 and the action history within [maxHistory];
    so these bounds hold along every run of cycles that starts within them. *)
Theorem buffers_stay_bounded (ws : list World) (s : BotState) :
  0 <= Config.memoryDepth cfg →
  1 <= Config.maxHistory cfg →
  buffersBounded cfg s →
  buffersBounded cfg (snd (cycles cfg ws s)).
Proof.
  intros Hdepth Hhist. revert s. induction ws as [| w ws IH]; intros s Hb; [exact Hb |].
  simpl.
  assert (Hnext : buffersBounded cfg (snd (executeLLMDecision cfg w s))).
  { destruct Hb as [Hm [Hp Hh]]. split; [| split].
    - destruct (cycle_memory w s) as [-> | [a [-> _]]]; [exact Hm |].
      apply pushCapped_length; assumption.
    - destruct (cycle_positions w s) as [-> | ->]; [exact Hp |].
      apply pushCapped_length; [lia | exact Hp].
    - destruct (cycle_history w s) as [-> | [a ->]]; [exact Hh |].
      apply doAction_history_step; assumption. }
  destruct (executeLLMDecision cfg w s) as [done s1]. simpl in Hnext.
  specialize (IH s1 Hnext).
  destruct (cycles cfg ws s1) as [more s2]. exact IH.
Qed.

Lemma override_action_plain (w : World) (b : Block) :
  (actionKey (exploreAction cfg w) = "undefined_{}"
   ∧ getProp "type" (exploreAction cfg w) = None)
  ∧ (actionKey (mineTreeAction b) = "undefined_{}"
     ∧ getProp "type" (mineTreeAction b) = None).
Proof.
  unfold exploreAction. destruct (randomOffset w _). repeat split.
Qed.

Lemma validated_no_type (a : JValue) :
  validateAction a = true → getProp "type" a = None.
Proof.
  destruct a as [| | | | | fields]; try discriminate.
  unfold validateAction. rewrite andb_true_iff, forallb_forall. intros [_ Hall].
  simpl. destruct (assoc "type" fields) as [v |] eqn:E; [| reflexivity].
  specialize (Hall _ (assoc_In _ _ _ E)). discriminate.
Qed.

(** Cycles only ever remember actions without a [type] property. *)
Lemma cycle_plainMemory (w : World) (s : BotState) :
  plainMemory s → plainMemory (snd (executeLLMDecision cfg w s)).
Proof.
  unfold plainMemory. intros Hs.
  destruct (cycle_memory w s) as [-> | [a [-> Hkind]]]; [exact Hs |].
  apply pushCapped_Forall; [| exact Hs]. simpl.
  destruct Hkind as [[_ Hv] | [-> | [b ->]]].
  - split; [apply validated_action_key | apply validated_no_type]; exact Hv.
  - apply override_action_plain. exact (mkBlock "" (mkPos 0 0 0)).
  - apply (override_action_plain quietWorld b).
Qed.

Lemma cycles_plainMemory (ws : list World) (s : BotState) :
  plainMemory s → plainMemory (snd (cycles cfg ws s)).
Proof.
  revert s. induction ws as [| w ws IH]; intros s Hs; [exact Hs |].
  simpl. assert (Hnext := cycle_plainMemory w s Hs).
  destruct (executeLLMDecision cfg w s) as [done s1]. simpl in Hnext.
  specialize (IH s1 Hnext). destruct (cycles cfg ws s1) as [more s2]. exact IH.
Qed.

(** With every key the same, the stuck check fires as soon as the memory
    holds [stuckDetectionThreshold] entries. *)
Lemma plain_memory_stuck (s : BotState) :
  Config.behavioralOverrides cfg = true →
  1 <= Config.stuckDetectionThreshold cfg →
  plainMemory s →
  Config.stuckDetectionThreshold cfg <= Z.of_nat (List.length (actionMemory (intel s))) →
  fst (detectStuckBehavior cfg (intel s)) = true.
Proof.
  intros Hon Hn Hplain Hlen.
  apply detect_result; [exact Hon | lia |]. split; [lia |].
  exists "undefined_{}".
  set (n := Z.to_nat (Config.stuckDetectionThreshold cfg)).
  assert (Hkeys : Forall (fun k => k = "undefined_{}")
                         (lastn n (List.map key (actionMemory (intel s))))).
  { unfold lastn. apply Forall_drop. apply Forall_forall.
    intros k Hk. apply list_elem_of_In, in_map_iff in Hk. destruct Hk as [e [<- He]].
    unfold plainMemory in Hplain. rewrite Forall_forall in Hplain.
    apply Hplain, list_elem_of_In, He. }
  assert (Hl : List.length (lastn n (List.map key (actionMemory (intel s)))) = n).
  { rewrite lastn_length, length_map. unfold n. lia. }
  revert Hkeys Hl. generalize (lastn n (List.map key (actionMemory (intel s)))).
  generalize n. clear. intros n l Hkeys. revert n.
  induction Hkeys as [| k l -> _ IH]; intros n Hl; simpl in Hl; subst n; [reflexivity |].
  simpl. f_equal. apply IH. reflexivity.
Qed.

(** X9: the signature of every action a cycle records is the same string,
    so once the memory holds [stuckDetectionThreshold] entries every later
    cycle is decided by the stuck override: the run does not depend on what
    the policy source answers in any of its cycles. *)
Theorem policy_ignored_after_threshold (ws ws' : list World) (s : BotState) :
  Config.behavioralOverrides cfg = true →
  Config.proactiveActions cfg = true →
  1 <= Config.stuckDetectionThreshold cfg →
  Config.stuckDetectionThreshold cfg <= Config.memoryDepth cfg →
  plainMemory s →
  Z.of_nat (List.length (actionMemory (intel s))) <= Config.memoryDepth cfg →
  Config.stuckDetectionThreshold cfg <= Z.of_nat (List.length (actionMemory (intel s))) →
  Forall2 samePolicyFree ws ws' →
  cycles cfg ws' s = cycles cfg ws s.
Proof.
  intros Hon Hpro Hn Hnd Hplain Hcap Hlen Hws. revert s Hplain Hcap Hlen.
  induction Hws as [| w w' ws ws' [reply ->] _ IH]; intros s Hplain Hcap Hlen;
    [reflexivity |].
  simpl.
  assert (Hsame : executeLLMDecision cfg (withReply reply w) s
                  = executeLLMDecision cfg w s).
  { destruct (Z.leb_spec (Config.maxActions cfg) (actionCount (exec s))) as [Hlim | Hbelow].
    - rewrite !cycle_at_limit by assumption. reflexivity.
    - destruct (botReady w) eqn:Hready.
      + destruct (isActionInProgress (exec s)) eqn:Hbusy.
        * unfold executeLLMDecision, prepare. rewrite Hbusy.
          destruct (Config.maxActions cfg <=? actionCount (exec s)); [reflexivity |].
          destruct (Config.actionSyncEnabled cfg); [reflexivity |].
          change (botReady (withReply reply w)) with (botReady w).
          rewrite Hready. cbn [andb negb].
          assert (Hstuck := plain_memory_stuck s Hon Hn Hplain Hlen).
          set (i1 := updatePositionTracking w (intel s)).
          change (updatePositionTracking (withReply reply w) (intel s)) with i1.
          assert (Hd1 : fst (detectStuckBehavior cfg i1) = true)
            by (unfold i1; rewrite detect_positions; exact Hstuck).
          assert (Hflag := detect_true_state cfg i1 Hd1).
          destruct (detectStuckBehavior cfg i1) as [stuck i2]. simpl in Hflag.
          change (getIntelligentOverride cfg (withReply reply w) i2)
            with (getIntelligentOverride cfg w i2).
          assert (Hsome : ∃ a, fst (getIntelligentOverride cfg w i2) = Some a).
          { unfold getIntelligentOverride. rewrite Hon, Hflag, Hpro. simpl.
            destruct (3 <=? _); [eexists; reflexivity |].
            destruct (scanTreeBlocks w _); eexists; reflexivity. }
          destruct Hsome as [a Ha].
          destruct (getIntelligentOverride cfg w i2) as [[ov |] i3]; [| discriminate].
          reflexivity.
        * apply stuck_cycle_skips_policy; try assumption.
          apply plain_memory_stuck; assumption.
      + unfold executeLLMDecision, prepare.
        change (botReady (withReply reply w)) with (botReady w).
        rewrite Hready. cbn [negb].
        destruct (Config.maxActions cfg <=? actionCount (exec s)); [reflexivity |].
        destruct (Config.actionSyncEnabled cfg && isActionInProgress (exec s))%bool;
          reflexivity. }
  rewrite Hsame.
  assert (Hplain1 := cycle_plainMemory w s Hplain).
  assert (Hmem := cycle_memory w s).
  destruct (executeLLMDecision cfg w s) as [done s1]. simpl in *.
  rewrite IH; [reflexivity | exact Hplain1 | |].
  - destruct Hmem as [-> | [a [-> _]]]; [exact Hcap |].
    apply pushCapped_length; [lia | exact Hcap].
  - destruct Hmem as [-> | [a [-> _]]]; [exact Hlen |].
    destruct (pushCapped_length (Config.memoryDepth cfg)
                (mkEntry (actionKey a) (now w) a) (actionMemory (intel s))) as [_ Hge];
      [lia | exact Hcap |]. lia.
Qed.

(** X10: [shouldUseContextAwareDecision] tests the [type] property of the
    last remembered action, which no action recorded by a cycle has; in
    every state a run of cycles reaches from a memory of such actions it
    returns false, whatever the world. *)
Theorem context_awareness_never_fires (contextAwareness : bool) (ws : list World)
        (w : World) (s : BotState) :
  plainMemory s →
  shouldUseContextAwareDecision contextAwareness cfg w (intel (snd (cycles cfg ws s)))
  = false.
Proof.
  intros Hplain. assert (Hrun := cycles_plainMemory ws s Hplain).
  unfold shouldUseContextAwareDecision. destruct (negb contextAwareness); [reflexivity |].
  destruct (last (actionMemory (intel (snd (cycles cfg ws s))))) as [e |] eqn:El;
    [| reflexivity].
  unfold plainMemory in Hrun. rewrite Forall_forall in Hrun.
  assert (He : e ∈ actionMemory (intel (snd (cycles cfg ws s)))).
  { apply last_Some in El. destruct El as [l' ->]. apply elem_of_app. right.
    apply list_elem_of_singleton. reflexivity. }
  destruct (Hrun e He) as [_ ->]. reflexivity.
Qed.

End MemoryExtras.

Section ScanFacts.

(** X11: [findNearbyTrees] returns exactly the tree blocks found at integer
    offsets within the radius horizontally and within two blocks
    vertically, and it is the scan the stuck override runs. *)
Theorem findNearbyTrees_spec (w : World) (radius : Z) (b : Block) :
  (In b (findNearbyTrees w radius)
   ↔ ∃ x y z, - radius <= x <= radius ∧ -2 <= y <= 2 ∧ - radius <= z <= radius
              ∧ blockAt w (offset (botPosition w) x y z) = Some b
              ∧ isTreeBlock (Some b) = true)
  ∧ findNearbyTrees w radius = scanTreeBlocks w radius.
Proof.
  split; [| reflexivity].
  unfold findNearbyTrees. rewrite <- list_elem_of_In.
  setoid_rewrite list_elem_of_bind. setoid_rewrite list_elem_of_bind.
  setoid_rewrite list_elem_of_bind. setoid_rewrite elem_of_seqZ.
  split.
  - intros [x [[y [[z [Hb Hz]] Hy]] Hx]]. exists x, y, z.
    destruct (blockAt w (offset (botPosition w) x y z)) as [b' |] eqn:Eb;
      [| apply elem_of_nil in Hb; contradiction].
    destruct (isTreeBlock (Some b')) eqn:Et; [| apply elem_of_nil in Hb; contradiction].
    apply list_elem_of_singleton in Hb. subst b'.
    repeat split; try lia. exact Et.
  - intros [x [y [z [Hx [Hy [Hz [Hb Ht]]]]]]].
    exists x. split; [| lia]. exists y. split; [| lia]. exists z. split; [| lia].
    rewrite Hb, Ht. apply list_elem_of_singleton. reflexivity.
Qed.

End ScanFacts.

(** * Further facts: registry, activation order and goal life cycle *)

Import Registry.

Section SortFacts.

Context {A : Type} (rank : A → Z).

(** [b] does not rank above [a]. *)
Let desc (a b : A) : Prop := rank b <= rank a.

Lemma insertDesc_sorted (x : A) (l : list A) :
  StronglySorted desc l → StronglySorted desc (insertDesc rank x l).
Proof.
  induction 1 as [| y l Hl IH Hy]; simpl.
  - apply SSorted_cons; [apply SSorted_nil | apply Forall_nil; trivial].
  - destruct (Z.ltb_spec (rank y) (rank x)) as [Hlt | Hge].
    + apply SSorted_cons; [apply SSorted_cons; assumption |].
      apply Forall_cons. split; [unfold desc; lia |].
      eapply Forall_impl; [exact Hy |]. unfold desc. intros z Hz. lia.
    + apply SSorted_cons; [exact IH |].
      apply Forall_forall. intros z Hz.
      apply list_elem_of_In, insertDesc_In in Hz. destruct Hz as [-> | Hz].
      * unfold desc. lia.
      * rewrite Forall_forall in Hy. apply Hy, list_elem_of_In, Hz.
Qed.

Lemma insertDesc_perm (x : A) (l : list A) : insertDesc rank x l ≡ₚ x :: l.
Proof.
  induction l as [| y l IH]; simpl; [reflexivity |].
  destruct (rank y <? rank x); [reflexivity |].
  rewrite IH. apply Permutation_swap.
Qed.

Lemma insertDesc_filter (x : A) (l : list A) (k : Z) :
  StronglySorted desc l →
  List.filter (fun y => rank y =? k) (insertDesc rank x l)
  = (List.filter (fun y => rank y =? k) l
     ++ (if rank x =? k then [x] else []))%list.
Proof.
  induction 1 as [| y l Hl IH Hy]; simpl; [reflexivity |].
  destruct (Z.ltb_spec (rank y) (rank x)) as [Hlt | Hge]; simpl.
  - destruct (Z.eqb_spec (rank x) k) as [Hk | Hk].
    + assert (Hnone : List.filter (fun z => rank z =? k) l = []).
      { clear IH Hl. induction l as [| z l IHl]; [reflexivity |].
        apply Forall_cons in Hy. destruct Hy as [Hz Hy]. simpl.
        destruct (Z.eqb_spec (rank z) k); [unfold desc in Hz; lia | apply IHl; exact Hy]. }
      destruct (Z.eqb_spec (rank y) k); [lia |]. rewrite Hnone. reflexivity.
    + rewrite app_nil_r. reflexivity.
  - rewrite IH. destruct (rank y =? k); reflexivity.
Qed.

(** The sort the code uses on goal lists: the result is in descending
    order, has the same elements, and keeps elements of equal rank in their
    original order. *)
Lemma sortDesc_spec (l : list A) :
  StronglySorted desc (sortDesc rank l)
  ∧ sortDesc rank l ≡ₚ l
  ∧ ∀ k, List.filter (fun y => rank y =? k) (sortDesc rank l)
         = List.filter (fun y => rank y =? k) l.
Proof.
  unfold sortDesc.
  assert (Hgen : ∀ acc, StronglySorted desc acc →
             StronglySorted desc (fold_left (fun acc y => insertDesc rank y acc) l acc)
             ∧ fold_left (fun acc y => insertDesc rank y acc) l acc ≡ₚ (acc ++ l)%list
             ∧ ∀ k, List.filter (fun y => rank y =? k)
                                (fold_left (fun acc y => insertDesc rank y acc) l acc)
                    = (List.filter (fun y => rank y =? k) acc
                       ++ List.filter (fun y => rank y =? k) l)%list).
  { induction l as [| x l IH]; intros acc Hacc; simpl.
    - rewrite app_nil_r. split; [exact Hacc |]. split; [reflexivity |].
      intros k. rewrite app_nil_r. reflexivity.
    - destruct (IH (insertDesc rank x acc) (insertDesc_sorted x acc Hacc)) as [Hs [Hp Hf]].
      split; [exact Hs |]. split.
      + rewrite Hp, insertDesc_perm. simpl. apply Permutation_middle.
      + intros k. rewrite Hf, insertDesc_filter by assumption.
        rewrite <- app_assoc. f_equal. destruct (rank x =? k); reflexivity. }
  destruct (Hgen [] (SSorted_nil _)) as [Hs [Hp Hf]].
  split; [exact Hs |]. split; [exact Hp |]. intros k. apply Hf.
Qed.

Lemma sorted_split (l1 l2 : list A) :
  StronglySorted desc (l1 ++ l2)%list →
  ∀ a b, In a l1 → In b l2 → rank b <= rank a.
Proof.
  induction l1 as [| x l1 IH]; intros Hs a b Ha Hb; [destruct Ha |].
  simpl in Hs. apply StronglySorted_inv in Hs. destruct Hs as [Hs Hx].
  destruct Ha as [<- | Ha]; [| apply (IH Hs a b Ha Hb)].
  rewrite Forall_forall in Hx. apply Hx, list_elem_of_In, in_app_iff. right. exact Hb.
Qed.

End SortFacts.

Section RegistryFacts.

Variable cfg : Config.t.
Variable w : World.

(** X13: [addGoal] leaves the registry sorted by descending dynamic
    priority (as computed when the goal is added); the registry holds the
    new goal and the old ones, goals of equal priority in the order they
    were registered; the active set is not touched. *)
Theorem addGoal_sorted (r : GoalRef) (g : Goal) (s : GoalSelector) :
  let s' := addGoal w r g s in
  let prio := fun x => getDynamicPriority w (sensorData s) (heap s' x) in
  StronglySorted (fun a b => prio b <= prio a) (goals s')
  ∧ goals s' ≡ₚ (goals s ++ [r])%list
  ∧ (∀ k, List.filter (fun x => prio x =? k) (goals s')
          = List.filter (fun x => prio x =? k) (goals s ++ [r])%list)
  ∧ heap s' r = g
  ∧ activeGoals s' = activeGoals s.
Proof.
  intros s' prio.
  destruct (sortDesc_spec prio (goals s ++ [r])%list) as [Hs [Hp Hf]].
  split; [exact Hs |]. split; [exact Hp |]. split; [exact Hf |].
  split; [apply upd_same | reflexivity].
Qed.

Lemma activate_take (sd : SensorData) (avail active : list GoalRef) (h : GoalRef → Goal) :
  fst (activate cfg w sd avail active h)
  = (active ++ take (Z.to_nat (Config.maxActiveGoals cfg - Z.of_nat (List.length active)))
                    avail)%list.
Proof.
  revert active h. induction avail as [| r0 avail IH]; intros active h; simpl.
  - rewrite take_nil, app_nil_r. reflexivity.
  - destruct (Z.ltb_spec (Z.of_nat (List.length active)) (Config.maxActiveGoals cfg)) as [Hlt | Hge].
    + rewrite IH, length_app. simpl.
      replace (Z.to_nat (Config.maxActiveGoals cfg - Z.of_nat (List.length active)))
        with (S (Z.to_nat (Config.maxActiveGoals cfg
                           - Z.of_nat (List.length active + 1)))) by lia.
      simpl. rewrite <- app_assoc. reflexivity.
    + replace (Z.to_nat (Config.maxActiveGoals cfg - Z.of_nat (List.length active)))
        with 0%nat by lia.
      simpl. rewrite app_nil_r. reflexivity.
Qed.

(** X14: activation fills the free capacity with the usable inactive goals
    of highest dynamic priority, registry order breaking ties, and never
    displaces a goal that is already active: the new active set is the old
    one followed by the first k goals of the sorted candidates, k being the
    free capacity, and no candidate left out ranks above an activated
    one. *)
Theorem activation_by_priority (s : GoalSelector) :
  let prio := fun r => getDynamicPriority w (sensorData s) (heap s r) in
  let candidates :=
    List.filter (fun r => (negb (includesRef r (activeGoals s))
                           && canUse w (sensorData s) (heap s r))%bool) (goals s) in
  let sorted := sortDesc prio candidates in
  let k := Z.to_nat (Config.maxActiveGoals cfg - Z.of_nat (List.length (activeGoals s))) in
  activeGoals (activationPass cfg w s) = (activeGoals s ++ take k sorted)%list
  ∧ sorted ≡ₚ candidates
  ∧ (∀ p, List.filter (fun r => prio r =? p) sorted
          = List.filter (fun r => prio r =? p) candidates)
  ∧ (∀ r r', In r (take k sorted) → In r' (drop k sorted) → prio r' <= prio r).
Proof.
  intros prio candidates sorted k.
  destruct (activationPass_fields cfg w s) as [_ [Ha _]].
  destruct (sortDesc_spec prio candidates) as [Hs [Hp Hf]].
  split; [rewrite Ha; apply activate_take |].
  split; [exact Hp |]. split; [exact Hf |].
  intros r r' Hr Hr'.
  apply (sorted_split prio (take k sorted) (drop k sorted)); try assumption.
  rewrite take_drop. exact Hs.
Qed.

(** X15: [removeGoal] drops every goal with the given name from the registry
    and from the active set and keeps the others, each list in the order it
    had (what is left is the longest subsequence free of that name); it
    does not stop the goals it removes (the objects are left as they are);
    removing the same name again changes nothing, and a bounded, registered
    active set stays so. *)
Theorem removeGoal_spec (goalName : string) (s : GoalSelector) :
  let s' := removeGoal goalName s in
  (∀ r, In r (goals s') ↔ In r (goals s) ∧ name (heap s r) ≠ goalName)
  ∧ (∀ r, In r (activeGoals s') ↔ In r (activeGoals s) ∧ name (heap s r) ≠ goalName)
  ∧ sublist (goals s') (goals s)
  ∧ sublist (activeGoals s') (activeGoals s)
  ∧ (∀ l, sublist l (goals s) → (∀ r, In r l → name (heap s r) ≠ goalName) →
          sublist l (goals s'))
  ∧ (∀ l, sublist l (activeGoals s) → (∀ r, In r l → name (heap s r) ≠ goalName) →
          sublist l (activeGoals s'))
  ∧ heap s' = heap s
  ∧ removeGoal goalName s' = s'
  ∧ (activeSetOk cfg s → activeSetOk cfg s').
Proof.
  intros s'.
  assert (Hkeep : ∀ r, negb (String.eqb (name (heap s r)) goalName) = true
                       ↔ name (heap s r) ≠ goalName).
  { intros r. rewrite negb_true_iff. destruct (String.eqb_spec (name (heap s r)) goalName);
      split; congruence. }
  assert (Hin : ∀ l r, In r (List.filter (fun r => negb (String.eqb (name (heap s r)) goalName)) l)
                       ↔ In r l ∧ name (heap s r) ≠ goalName).
  { intros l r. rewrite List.filter_In, Hkeep. reflexivity. }
  assert (Hidem : ∀ l : list GoalRef,
             List.filter (fun r => negb (String.eqb (name (heap s r)) goalName))
               (List.filter (fun r => negb (String.eqb (name (heap s r)) goalName)) l)
             = List.filter (fun r => negb (String.eqb (name (heap s r)) goalName)) l).
  { intros l. induction l as [| x l IH]; [reflexivity |]. simpl.
    destruct (negb (String.eqb (name (heap s x)) goalName)) eqn:E; [| exact IH].
    simpl. rewrite E, IH. reflexivity. }
  assert (Hsubl : ∀ l : list GoalRef,
             sublist (List.filter (fun r => negb (String.eqb (name (heap s r)) goalName)) l)
                     l).
  { intros l. induction l as [| x l IH]; [constructor |]. simpl.
    destruct (negb (String.eqb (name (heap s x)) goalName)); constructor; exact IH. }
  split; [intros r; apply Hin |]. split; [intros r; apply Hin |].
  assert (Hmax : ∀ l l' : list GoalRef,
             sublist l' l → (∀ r, In r l' → name (heap s r) ≠ goalName) →
             sublist l' (List.filter (fun r => negb (String.eqb (name (heap s r)) goalName))
                                     l)).
  { intros l l' Hsub. induction Hsub as [| x l1 l2 _ IH | x l1 l2 _ IH]; intros Hall.
    - constructor.
    - simpl. rewrite (proj2 (Hkeep x) (Hall x (or_introl eq_refl))).
      constructor. apply IH. intros r Hr. apply Hall. right. exact Hr.
    - simpl. destruct (negb (String.eqb (name (heap s x)) goalName));
        [constructor |]; apply IH; exact Hall. }
  split; [apply Hsubl |]. split; [apply Hsubl |].
  split; [apply Hmax |]. split; [apply Hmax |].
  split; [reflexivity |]. split.
  - unfold s', removeGoal. simpl. rewrite !Hidem. reflexivity.
  - intros [Hlen Hsub]. split.
    + unfold s'. simpl.
      assert (Hle := List.filter_length_le
                       (fun r => negb (String.eqb (name (heap s r)) goalName)) (activeGoals s)).
      lia.
    + intros r Hr. apply Hin in Hr. apply Hin. destruct Hr as [Hr Hn].
      split; [apply Hsub; exact Hr | exact Hn].
Qed.

Lemma stopAll_spec (l : list GoalRef) (h : GoalRef → Goal) (r : GoalRef) :
  (In r l → stopAll l h r = stop (h r))
  ∧ (¬ In r l → stopAll l h r = h r).
Proof.
  unfold stopAll. revert h. induction l as [| r0 l IH]; intros h; simpl.
  - split; [intros [] | reflexivity].
  - destruct (IH (upd r0 (stop (h r0)) h)) as [Hin Hout].
    destruct (Nat.eq_dec r r0) as [-> | Hne].
    + split; [intros _ | intros Hn; exfalso; apply Hn; left; reflexivity].
      destruct (in_dec Nat.eq_dec r0 l) as [Hl | Hl].
      * rewrite (Hin Hl), upd_same. reflexivity.
      * rewrite (Hout Hl), upd_same. reflexivity.
    + split.
      * intros [-> | Hl]; [contradiction |]. rewrite (Hin Hl), upd_other by assumption.
        reflexivity.
      * intros Hn. rewrite Hout by (intros Hl; apply Hn; right; exact Hl).
        apply upd_other. exact Hne.
Qed.

(** X16: [cleanupGoalSystem] stops every active goal and no other, and
    leaves the stopped goals listed in [activeGoals]. *)
Theorem cleanup_stops_active (s : GoalSelector) (r : GoalRef) :
  let s' := cleanupGoalSystem s in
  (In r (activeGoals s) →
   isActive (heap s' r) = false ∧ startTime (heap s' r) = None)
  ∧ (¬ In r (activeGoals s) → heap s' r = heap s r)
  ∧ activeGoals s' = activeGoals s
  ∧ goals s' = goals s.
Proof.
  intros s'. destruct (stopAll_spec (activeGoals s) (heap s) r) as [Hin Hout].
  split; [| split; [exact Hout | split; reflexivity]].
  intros Hr. unfold s'. simpl. rewrite (Hin Hr). split; reflexivity.
Qed.

Lemma clampPriority_range (x : JsNumber) (p : Z) :
  clampPriority x = Some p → 1 <= p <= 10.
Proof.
  destruct x as [| negative | [n d]]; simpl; [discriminate | |].
  - destruct negative; intros H; injection H as <-; lia.
  - unfold Qle_bool, isInteger. simpl.
    destruct (Z.leb_spec (n * 1) (1 * Z.pos d)) as [_ | Hlo];
      [intros Hp; injection Hp as <-; lia |].
    destruct (Z.leb_spec (10 * Z.pos d) (n * 1)) as [_ | Hhi];
      [intros Hp; injection Hp as <-; lia |].
    destruct (Z.eqb_spec (n mod Z.pos d) 0) as [Hmod |]; [| discriminate].
    intros Hp. injection Hp as <-.
    assert (Hn : n = Z.pos d * (n / Z.pos d)) by (apply Z.div_exact; lia).
    nia.
Qed.

Lemma clampPriority_integer (z : Z) :
  clampPriority (Finite (inject_Z z)) = Some (Z.max 1 (Z.min 10 z)).
Proof.
  unfold clampPriority, Qle_bool, isInteger, inject_Z. cbn [Qnum Qden].
  rewrite Z.mod_1_r, Z.div_1_r, Z.eqb_refl.
  repeat match goal with
         | |- context [?a <=? ?b] => destruct (Z.leb_spec a b)
         end; f_equal; lia.
Qed.

Lemma adjustedFrom_refl (h : GoalRef → Goal) : adjustedFrom h h.
Proof. intros r. repeat split. left. reflexivity. Qed.

Lemma adjustedFrom_trans (h1 h2 h3 : GoalRef → Goal) :
  adjustedFrom h1 h2 → adjustedFrom h2 h3 → adjustedFrom h1 h3.
Proof.
  intros H12 H23 r. destruct (H12 r) as [Hp [Ha [Ht Hn]]].
  destruct (H23 r) as [Hp' [Ha' [Ht' Hn']]].
  split; [| split; [congruence | split; congruence]].
  destruct Hp' as [Hp' | Hp']; [| right; exact Hp']. rewrite Hp'. exact Hp.
Qed.

Lemma adjustedFrom_set (h : GoalRef → Goal) (r0 : GoalRef) (p : Z) :
  1 <= p <= 10 → adjustedFrom h (upd r0 (setPriority p (h r0)) h).
Proof.
  intros Hp r. destruct (Nat.eq_dec r r0) as [-> | Hne].
  - rewrite upd_same. simpl. repeat split. right. exact Hp.
  - rewrite upd_other by assumption. repeat split. left. reflexivity.
Qed.

Lemma applyRecommendation_fields (registry : list GoalRef) (h : GoalRef → Goal)
      (rec : JValue) :
  match applyRecommendation registry h rec with
  | Next h' | Raise _ h' => adjustedFrom h h'
  | Off r value => In r registry ∧ clampPriority value = None
  end.
Proof.
  unfold applyRecommendation.
  destruct (isNull rec); [apply adjustedFrom_refl |].
  destruct (List.find _ registry) as [r0 |] eqn:Hfind; [| apply adjustedFrom_refl].
  destruct (truthy (getProp "priority_adjustment" rec)); [| apply adjustedFrom_refl].
  destruct (addAdjustment _ _) as [value |]; [| apply adjustedFrom_refl].
  destruct (clampPriority value) as [p |] eqn:Hclamp.
  - assert (Hset := adjustedFrom_set h r0 p (clampPriority_range value p Hclamp)).
    cbn zeta. destruct (printable _); exact Hset.
  - split; [| exact Hclamp]. apply List.find_some in Hfind. apply Hfind.
Qed.

Lemma forEachRecommendation_fields (registry : list GoalRef) (recs : list JValue)
      (h : GoalRef → Goal) :
  match forEachRecommendation registry h recs with
  | Next h' | Raise _ h' => adjustedFrom h h'
  | Off r value => In r registry ∧ clampPriority value = None
  end.
Proof.
  revert h. induction recs as [| rec recs IH]; intros h; simpl;
    [apply adjustedFrom_refl |].
  assert (Hone := applyRecommendation_fields registry h rec).
  destruct (applyRecommendation registry h rec) as [h1 | message h1 | r value];
    [| exact Hone | exact Hone].
  specialize (IH h1).
  destruct (forEachRecommendation registry h1 recs) as [h2 | message h2 | r value];
    [| | exact IH]; eapply adjustedFrom_trans; eassumption.
Qed.

Lemma plainRecommendation_next (registry : list GoalRef) (h : GoalRef → Goal)
      (rec : JValue) :
  plainRecommendation rec = true → ∃ h', applyRecommendation registry h rec = Next h'.
Proof.
  unfold plainRecommendation, applyRecommendation.
  rewrite !andb_true_iff, negb_true_iff. intros [[-> Hadj] ->].
  destruct (List.find _ registry) as [r0 |]; [| eexists; reflexivity].
  destruct (getProp "priority_adjustment" rec) as [[| b | n | | |] |];
    try discriminate; try (eexists; reflexivity).
  - destruct (truthy (Some (JBool b))); [| eexists; reflexivity].
    cbn [from_option id addAdjustment]. rewrite clampPriority_integer.
    eexists. reflexivity.
  - destruct (truthy (Some (JNum n))); [| eexists; reflexivity].
    cbn [from_option id addAdjustment]. rewrite clampPriority_integer.
    eexists. reflexivity.
Qed.

Lemma plainRecommendations_next (registry : list GoalRef) (recs : list JValue)
      (h : GoalRef → Goal) :
  forallb plainRecommendation recs = true →
  ∃ h', forEachRecommendation registry h recs = Next h'.
Proof.
  revert h. induction recs as [| rec recs IH]; intros h; simpl;
    [intros _; eexists; reflexivity |].
  rewrite andb_true_iff. intros [Hrec Hrest].
  destruct (plainRecommendation_next registry h rec Hrec) as [h1 ->].
  apply IH. exact Hrest.
Qed.

(** A null entry ends the loop where it stands. *)
Lemma forEachRecommendation_null (registry : list GoalRef) (before after : list JValue)
      (h h1 : GoalRef → Goal) :
  forEachRecommendation registry h before = Next h1 →
  forEachRecommendation registry h (before ++ JNull :: after) = Raise readOfNull h1.
Proof.
  revert h. induction before as [| rec before IH]; intros h; simpl.
  - intros H. injection H as <-. reflexivity.
  - destruct (applyRecommendation registry h rec) as [h2 | message h2 | r value];
      [apply IH | discriminate | discriminate].
Qed.

(** X17: [applyLLMRecommendations] on whatever the advisor's text parsed
    to.  However the call ends, as long as priorities stay integers: each
    goal's base priority is what it was or lies between 1 and 10, no goal is
    started or stopped, the active set is as before, and the registry holds
    the same goals; it is sorted afresh by dynamic priority when the call
    returns after reading recommendations, and left in its old order when
    the call raises.  The call raises on a null response, on
    recommendations that are no array, and at a null entry, which ends the
    loop with the entries before it applied and the registry not re-sorted.
    An adjustment that is a string, an array or an object is joined to the
    priority as text; when the number read back is NaN or no integer the
    priority leaves the integers ([OffIntegers]).  A response whose
    adjustments are absent, null, booleans or numbers is applied to the
    end. *)
Theorem recommendations_adjust_priorities_only (llmResponse : JValue) (s : GoalSelector) :
  match applyLLMRecommendations w llmResponse s with
  | Finished outcome s' =>
      (∀ r, (priority (heap s' r) = priority (heap s r) ∨ 1 <= priority (heap s' r) <= 10)
            ∧ isActive (heap s' r) = isActive (heap s r)
            ∧ startTime (heap s' r) = startTime (heap s r)
            ∧ name (heap s' r) = name (heap s r))
      ∧ goals s' ≡ₚ goals s
      ∧ activeGoals s' = activeGoals s
      ∧ match outcome with
        | Completed =>
            truthy (getProp "goal_recommendations" llmResponse) = true →
            StronglySorted (fun a b => getDynamicPriority w (sensorData s) (heap s' b)
                                       <= getDynamicPriority w (sensorData s) (heap s' a))
                           (goals s')
        | Threw _ => goals s' = goals s
        end
  | OffIntegers r value => In r (goals s) ∧ clampPriority value = None
  end
  ∧ applyLLMRecommendations w JNull s = Finished (Threw readOfNull) s
  ∧ (llmResponse ≠ JNull →
     truthy (getProp "goal_recommendations" llmResponse) = false →
     applyLLMRecommendations w llmResponse s = Finished Completed s)
  ∧ (truthy (getProp "goal_recommendations" llmResponse) = true →
     loggable (getProp "threat_level" llmResponse) = true →
     loggable (getProp "immediate_priority" llmResponse) = true →
     (∀ recs, getProp "goal_recommendations" llmResponse ≠ Some (JArr recs)) →
     applyLLMRecommendations w llmResponse s = Finished (Threw notAFunction) s)
  ∧ (∀ before after h1,
        loggable (getProp "threat_level" llmResponse) = true →
        loggable (getProp "immediate_priority" llmResponse) = true →
        getProp "goal_recommendations" llmResponse = Some (JArr (before ++ JNull :: after)) →
        forEachRecommendation (goals s) (heap s) before = Next h1 →
        applyLLMRecommendations w llmResponse s
        = Finished (Threw readOfNull)
                   (mkSelector h1 (goals s) (activeGoals s) (lastTickTime s) (sensorData s)))
  ∧ (plainResponse llmResponse = true →
     ∃ s', applyLLMRecommendations w llmResponse s = Finished Completed s').
Proof.
  assert (Hsame : adjustedFrom (heap s) (heap s)) by apply adjustedFrom_refl.
  split.
  { unfold applyLLMRecommendations.
    destruct (isNull llmResponse);
      [split; [exact Hsame | split; [reflexivity | split; reflexivity]] |].
    destruct (truthy (getProp "goal_recommendations" llmResponse)) eqn:Htruthy;
      cbn [negb].
    2:{ split; [exact Hsame |]. split; [reflexivity |]. split; [reflexivity |].
        intros H. discriminate. }
    destruct (loggable (getProp "threat_level" llmResponse)
              && loggable (getProp "immediate_priority" llmResponse))%bool; cbn [negb].
    2:{ split; [exact Hsame |]. split; [reflexivity | split; reflexivity]. }
    assert (Hstop : adjustedFrom (heap s) (heap s)
                    ∧ goals s ≡ₚ goals s ∧ activeGoals s = activeGoals s
                    ∧ goals s = goals s)
      by (split; [exact Hsame | split; [reflexivity | split; reflexivity]]).
    destruct (getProp "goal_recommendations" llmResponse)
      as [[| b | n | text | recs | fields] |]; try exact Hstop.
    assert (Hloop := forEachRecommendation_fields (goals s) recs (heap s)).
    destruct (forEachRecommendation (goals s) (heap s) recs) as [h | message h | r value];
      [| split; [exact Hloop | split; [reflexivity | split; reflexivity]] | exact Hloop].
    cbn zeta.
    destruct (if truthy (getProp "strategic_actions" llmResponse)
              then joinActions (getProp "strategic_actions" llmResponse)
              else None) as [message |].
    - split; [exact Hloop | split; [reflexivity | split; reflexivity]].
    - destruct (sortDesc_spec (fun r => getDynamicPriority w (sensorData s) (h r))
                              (goals s)) as [Hs [Hp _]].
      split; [exact Hloop |]. split; [exact Hp |]. split; [reflexivity |].
      intros _. exact Hs. }
  split; [reflexivity |].
  split.
  { intros Hnot Hfalsy. unfold applyLLMRecommendations. rewrite Hfalsy.
    destruct llmResponse; first [contradiction | reflexivity]. }
  split.
  { intros Htruthy Hlog1 Hlog2 Hnoarray. unfold applyLLMRecommendations.
    rewrite Htruthy, Hlog1, Hlog2. cbn [negb andb].
    destruct (isNull llmResponse) eqn:Hnull;
      [destruct llmResponse; discriminate |].
    destruct (getProp "goal_recommendations" llmResponse)
      as [[| b | n | text | recs | fields] |]; try reflexivity.
    exfalso. exact (Hnoarray recs eq_refl). }
  split.
  { intros before after h1 Hlog1 Hlog2 Hrecs Hbefore. unfold applyLLMRecommendations.
    assert (Hnull : isNull llmResponse = false)
      by (destruct llmResponse; first [discriminate | reflexivity]).
    rewrite Hnull, Hrecs, Hlog1, Hlog2. cbn [truthy negb andb].
    rewrite (forEachRecommendation_null (goals s) before after (heap s) h1 Hbefore).
    reflexivity. }
  unfold plainResponse, applyLLMRecommendations.
  rewrite !andb_true_iff, negb_true_iff. intros [[[[-> ->] ->] Hrecs] Hactions].
  cbn [negb andb].
  destruct (truthy (getProp "goal_recommendations" llmResponse)) eqn:Htruthy;
    cbn [negb]; [| eexists; reflexivity].
  destruct (getProp "goal_recommendations" llmResponse)
    as [[| b | n | text | recs | fields] |];
    try (rewrite Htruthy in Hrecs; discriminate).
  destruct (plainRecommendations_next (goals s) recs (heap s) Hrecs) as [h ->].
  cbn zeta. unfold joinActions.
  destruct (getProp "strategic_actions" llmResponse)
    as [[| b | n | text | actions | fields] |];
    try (eexists; reflexivity);
    try (destruct (truthy _); [discriminate | eexists; reflexivity]).
  cbn [truthy]. rewrite Hactions. eexists. reflexivity.
Qed.

Lemma countItem_fields (summary : Inventory) (itemName : string) :
  total (countItem summary itemName) = total summary + 1
  ∧ wood summary <= wood (countItem summary itemName)
  ∧ stone summary <= stone (countItem summary itemName)
  ∧ food summary <= food (countItem summary itemName)
  ∧ tools summary <= tools (countItem summary itemName)
  ∧ wood (countItem summary itemName) + stone (countItem summary itemName)
    + food (countItem summary itemName) + tools (countItem summary itemName)
    <= wood summary + stone summary + food summary + tools summary + 1.
Proof.
  unfold countItem.
  destruct (includes "log" itemName || includes "wood" itemName)%bool;
    [simpl; lia |].
  destruct (includes "stone" itemName || includes "cobblestone" itemName)%bool;
    [simpl; lia |].
  destruct (includes "bread" itemName || includes "meat" itemName)%bool;
    [simpl; lia |].
  destruct (includes "pickaxe" itemName || includes "axe" itemName
            || includes "shovel" itemName)%bool; simpl; lia.
Qed.

(** X18: the inventory summary counts every item stack once in [total] and
    in at most one of the four categories, so the category counts are
    non-negative and add up to at most [total], the number of stacks. *)
Theorem inventory_summary_counts (items : list string) :
  let summary := getInventorySummary items in
  total summary = Z.of_nat (List.length items)
  ∧ 0 <= wood summary ∧ 0 <= stone summary ∧ 0 <= food summary ∧ 0 <= tools summary
  ∧ wood summary + stone summary + food summary + tools summary <= total summary.
Proof.
  unfold getInventorySummary.
  assert (Hgen : ∀ acc,
             let summary := fold_left countItem items acc in
             total summary = total acc + Z.of_nat (List.length items)
             ∧ wood acc <= wood summary ∧ stone acc <= stone summary
             ∧ food acc <= food summary ∧ tools acc <= tools summary
             ∧ wood summary + stone summary + food summary + tools summary
               <= wood acc + stone acc + food acc + tools acc
                  + Z.of_nat (List.length items)).
  { induction items as [| x items IH]; intros acc; simpl; [lia |].
    specialize (IH (countItem acc x)). cbv zeta in IH.
    assert (Hx := countItem_fields acc x). lia. }
  specialize (Hgen (mkInventory 0 0 0 0 0)). simpl in Hgen. simpl. lia.
Qed.

End RegistryFacts.

(** * Further facts: the flood fills over tree blocks *)

Import Flood.

Section KeyFacts.

Lemma pretty_N_go_commaFree (x : N) (s : string) :
  commaFree (pretty_N_go x s) = commaFree s.
Proof.
  revert s. induction (N.lt_wf_0 x) as [x _ IH]; intros s.
  destruct (N.eq_dec x 0%N) as [-> | Hx]; [reflexivity |].
  rewrite pretty_N_go_step by lia.
  rewrite IH by (apply N.div_lt; lia).
  simpl. unfold pretty_N_char. repeat case_match; reflexivity.
Qed.

Lemma pretty_Z_commaFree (z : Z) : commaFree (pretty z) = true.
Proof.
  destruct z as [| p | p]; [reflexivity | |].
  - unfold pretty, pretty_Z, pretty, pretty_positive, pretty, pretty_N.
    case_decide; [reflexivity |]. rewrite pretty_N_go_commaFree. reflexivity.
  - unfold pretty, pretty_Z, pretty, pretty_positive, pretty, pretty_N.
    case_decide; [reflexivity |].
    change (commaFree (pretty_N_go (N.pos p) "") = true).
    rewrite pretty_N_go_commaFree. reflexivity.
Qed.

Lemma comma_split (a a' r r' : string) :
  commaFree a = true → commaFree a' = true →
  String.append a (String "," r) = String.append a' (String "," r') →
  a = a' ∧ r = r'.
Proof.
  revert a'. induction a as [| c a IH]; intros [| c' a'] Ha Ha' Heq; simpl in *.
  - injection Heq as ->. split; reflexivity.
  - injection Heq as <- _. discriminate.
  - injection Heq as -> _. discriminate.
  - injection Heq as -> Heq.
    apply andb_prop in Ha, Ha'. destruct Ha as [_ Ha], Ha' as [_ Ha'].
    destruct (IH a' Ha Ha' Heq) as [-> ->]. split; reflexivity.
Qed.

(** Two positions with the same key are the same position. *)
Lemma posKey_inj (p q : Pos) : posKey p = posKey q → p = q.
Proof.
  destruct p as [x y z], q as [x' y' z']. unfold posKey. simpl px. simpl py. simpl pz.
  intros Heq.
  apply (comma_split (pretty x) (pretty x')) in Heq; try apply pretty_Z_commaFree.
  destruct Heq as [Hx Heq].
  apply (comma_split (pretty y) (pretty y')) in Heq; try apply pretty_Z_commaFree.
  destruct Heq as [Hy Hz].
  apply (inj pretty) in Hx, Hy, Hz. subst. reflexivity.
Qed.

Lemma chained_app (next : Pos → list Pos) (l k : list Pos) :
  chained next l → chained next k →
  (∀ p, k !! 0%nat = Some p → ∃ q, q ∈ l ∧ p ∈ next q) →
  chained next (l ++ k).
Proof.
  intros Hl Hk Hhead i p Hp.
  destruct (Nat.lt_ge_cases (S i) (List.length l)) as [Hlt | Hge].
  - rewrite lookup_app_l in Hp by exact Hlt.
    destruct (Hl i p Hp) as [j [q [Hj [Hq Hn]]]].
    exists j, q. split; [exact Hj |]. split; [| exact Hn].
    rewrite lookup_app_l by lia. exact Hq.
  - rewrite lookup_app_r in Hp by exact Hge.
    destruct (S i - List.length l)%nat as [| m] eqn:Hm.
    + destruct (Hhead p Hp) as [q [Hq Hn]].
      apply list_elem_of_lookup in Hq. destruct Hq as [j Hq].
      assert (Hjl := lookup_lt_Some _ _ _ Hq).
      exists j, q. split; [lia |]. split; [| exact Hn].
      rewrite lookup_app_l by lia. exact Hq.
    + destruct (Hk m p Hp) as [j [q [Hj [Hq Hn]]]].
      exists (List.length l + j)%nat, q. split; [lia |]. split; [| exact Hn].
      rewrite lookup_app_r by lia.
      replace (List.length l + j - List.length l)%nat with j by lia. exact Hq.
Qed.

Lemma chained_single (next : Pos → list Pos) (p : Pos) : chained next [p].
Proof. intros i q Hq. destruct i; discriminate. Qed.

Lemma chained_nil (next : Pos → list Pos) : chained next [].
Proof. intros i q Hq. discriminate. Qed.

End KeyFacts.

Section BfsFacts.

Variable w : World.
Variable startPos : Pos.
Variable maxBlocks : Z.

Lemma neighbours26_length (p : Pos) : List.length (neighbours26 p) = 26%nat.
Proof. reflexivity. Qed.

Lemma bfs_unfold (fuel : nat) (visited : gset string) (queue treeBlocks : list Pos) :
  bfs (S fuel) w maxBlocks visited queue treeBlocks
  = match queue with
    | [] => Some treeBlocks
    | currentPos :: rest =>
        if negb (Z.of_nat (List.length treeBlocks) <? maxBlocks) then Some treeBlocks
        else if bool_decide (posKey currentPos ∈ visited)
        then bfs fuel w maxBlocks visited rest treeBlocks
        else if negb (Memory.isTreeBlock (blockAt w currentPos))
        then bfs fuel w maxBlocks ({[posKey currentPos]} ∪ visited) rest treeBlocks
        else bfs fuel w maxBlocks ({[posKey currentPos]} ∪ visited)
               (rest ++ List.filter
                          (fun n => negb (bool_decide
                                            (posKey n ∈ {[posKey currentPos]} ∪ visited)))
                          (neighbours26 currentPos))%list
               (treeBlocks ++ [currentPos])%list
    end.
Proof. reflexivity. Qed.

Lemma bfs_total (fuel : nat) (visited : gset string) (queue treeBlocks : list Pos) :
  Z.of_nat (List.length queue)
  + 26 * Z.max 0 (maxBlocks - Z.of_nat (List.length treeBlocks)) < Z.of_nat fuel →
  is_Some (bfs fuel w maxBlocks visited queue treeBlocks).
Proof.
  revert visited queue treeBlocks.
  induction fuel as [| fuel IH]; intros visited queue treeBlocks Hfuel; [lia |].
  rewrite bfs_unfold. destruct queue as [| currentPos rest]; [eexists; reflexivity |].
  destruct (Z.ltb_spec (Z.of_nat (List.length treeBlocks)) maxBlocks) as [Hlt | Hge];
    cbn [negb]; [| eexists; reflexivity].
  rewrite length_cons in Hfuel.
  destruct (bool_decide (posKey currentPos ∈ visited)); [apply IH; lia |].
  destruct (Memory.isTreeBlock (blockAt w currentPos)); cbn [negb]; [| apply IH; lia].
  apply IH. rewrite !length_app, length_cons, length_nil.
  assert (Hf := List.filter_length_le
                  (fun n => negb (bool_decide (posKey n ∈ {[posKey currentPos]} ∪ visited)))
                  (neighbours26 currentPos)).
  rewrite neighbours26_length in Hf. lia.
Qed.

Lemma bfs_skip (visited : gset string) (currentPos : Pos) (rest treeBlocks : list Pos) :
  bfsInvariant w startPos maxBlocks visited (currentPos :: rest) treeBlocks →
  posKey currentPos ∈ visited →
  bfsInvariant w startPos maxBlocks visited rest treeBlocks.
Proof.
  intros [Ht Hn Hv Hl Hq Hh Hc Hs Hf Hst] Hkey.
  split; try assumption.
  - destruct Hq as [[_ Hq] | Hq].
    + injection Hq as _ ->. right. intros p Hp. inversion Hp.
    + right. intros p Hp. apply Hq. right. exact Hp.
  - intros q n Hq' Hn' Htree.
    destruct (Hf q n Hq' Hn' Htree) as [Hin | Hin]; [left; exact Hin |].
    apply elem_of_cons in Hin. destruct Hin as [-> | Hin]; [| right; exact Hin].
    left. apply Hs; assumption.
  - destruct Hst as [Hin | Hin]; [| right; exact Hin].
    apply elem_of_cons in Hin. destruct Hin as [-> | Hin]; [right | left]; assumption.
Qed.

Lemma bfs_reject (visited : gset string) (currentPos : Pos) (rest treeBlocks : list Pos) :
  bfsInvariant w startPos maxBlocks visited (currentPos :: rest) treeBlocks →
  Memory.isTreeBlock (blockAt w currentPos) = false →
  bfsInvariant w startPos maxBlocks ({[posKey currentPos]} ∪ visited) rest treeBlocks.
Proof.
  intros [Ht Hn Hv Hl Hq Hh Hc Hs Hf Hst] Hno.
  split; try assumption.
  - intros p Hp. apply elem_of_union_r, Hv, Hp.
  - destruct Hq as [[_ Hq] | Hq].
    + injection Hq as _ ->. right. intros p Hp. inversion Hp.
    + right. intros p Hp. apply Hq. right. exact Hp.
  - intros p Hp Htree. apply elem_of_union in Hp. destruct Hp as [Hp | Hp].
    + apply elem_of_singleton, posKey_inj in Hp. subst p. congruence.
    + apply Hs; assumption.
  - intros q n Hq' Hn' Htree.
    destruct (Hf q n Hq' Hn' Htree) as [Hin | Hin]; [left; exact Hin |].
    apply elem_of_cons in Hin. destruct Hin as [-> | Hin]; [congruence | right; exact Hin].
  - destruct Hst as [Hin | Hin]; [| right; apply elem_of_union_r; exact Hin].
    apply elem_of_cons in Hin. destruct Hin as [-> | Hin]; [right | left; exact Hin].
    apply elem_of_union_l, elem_of_singleton. reflexivity.
Qed.

Lemma bfs_collect (visited : gset string) (currentPos : Pos) (rest treeBlocks : list Pos) :
  bfsInvariant w startPos maxBlocks visited (currentPos :: rest) treeBlocks →
  posKey currentPos ∉ visited →
  Memory.isTreeBlock (blockAt w currentPos) = true →
  Z.of_nat (List.length treeBlocks) < maxBlocks →
  bfsInvariant w startPos maxBlocks ({[posKey currentPos]} ∪ visited)
    (rest ++ List.filter
               (fun n => negb (bool_decide (posKey n ∈ {[posKey currentPos]} ∪ visited)))
               (neighbours26 currentPos))%list
    (treeBlocks ++ [currentPos])%list.
Proof.
  intros [Ht Hn Hv Hl Hq Hh Hc Hs Hf Hst] Hkey Htree Hlen.
  assert (Hseen : ∀ p, posKey p ∈ {[posKey currentPos]} ∪ visited →
                       Memory.isTreeBlock (blockAt w p) = true →
                       p ∈ (treeBlocks ++ [currentPos])%list).
  { intros p Hp Hp'. apply elem_of_app. apply elem_of_union in Hp. destruct Hp as [Hp | Hp].
    - apply elem_of_singleton, posKey_inj in Hp. subst p. right. apply list_elem_of_singleton.
      reflexivity.
    - left. apply Hs; assumption. }
  split.
  - intros p Hp. apply elem_of_app in Hp. destruct Hp as [Hp | Hp]; [apply Ht, Hp |].
    apply list_elem_of_singleton in Hp. subst p. exact Htree.
  - apply NoDup_app. split; [exact Hn |]. split; [| apply NoDup_singleton].
    intros p Hp Hp'. apply list_elem_of_singleton in Hp'. subst p. apply Hkey, Hv, Hp.
  - intros p Hp. apply elem_of_app in Hp. destruct Hp as [Hp | Hp].
    + apply elem_of_union_r, Hv, Hp.
    + apply list_elem_of_singleton in Hp. subst p.
      apply elem_of_union_l, elem_of_singleton. reflexivity.
  - rewrite length_app. simpl. lia.
  - right. intros p Hp. apply elem_of_app in Hp. destruct Hp as [Hp | Hp].
    + destruct Hq as [[_ Hq] | Hq].
      * injection Hq as _ ->. inversion Hp.
      * destruct (Hq p) as [q [Hq1 Hq2]]; [right; exact Hp |].
        exists q. split; [apply elem_of_app; left; exact Hq1 | exact Hq2].
    + apply list_elem_of_In, List.filter_In in Hp. destruct Hp as [Hp _].
      exists currentPos. split; [| apply list_elem_of_In; exact Hp].
      apply elem_of_app. right. apply list_elem_of_singleton. reflexivity.
  - intros p Hp. destruct treeBlocks as [| t0 ts].
    + simpl in Hp. injection Hp as <-.
      destruct Hq as [[_ Hq] | Hq]; [injection Hq as ->; reflexivity |].
      destruct (Hq currentPos) as [q [Hq1 _]]; [left |]. inversion Hq1.
    + apply Hh. exact Hp.
  - destruct Hq as [[-> _] | Hq]; [apply chained_single |].
    apply chained_app; [exact Hc | apply chained_single |].
    intros p Hp. simpl in Hp. injection Hp as <-. apply Hq. left.
  - exact Hseen.
  - intros q n Hq' Hn' Hnt. apply elem_of_app in Hq'. destruct Hq' as [Hq' | Hq'].
    + destruct (Hf q n Hq' Hn' Hnt) as [Hin | Hin].
      * left. apply elem_of_app. left. exact Hin.
      * apply elem_of_cons in Hin. destruct Hin as [-> | Hin].
        -- left. apply elem_of_app. right. apply list_elem_of_singleton. reflexivity.
        -- right. apply elem_of_app. left. exact Hin.
    + apply list_elem_of_singleton in Hq'. subst q.
      destruct (bool_decide (posKey n ∈ {[posKey currentPos]} ∪ visited)) eqn:Hd.
      * left. apply Hseen; [| exact Hnt]. apply bool_decide_eq_true in Hd. exact Hd.
      * right. apply elem_of_app. right. apply list_elem_of_In, List.filter_In.
        split; [apply list_elem_of_In; exact Hn' | rewrite Hd; reflexivity].
  - destruct Hst as [Hin | Hin]; [| right; apply elem_of_union_r; exact Hin].
    apply elem_of_cons in Hin. destruct Hin as [-> | Hin].
    + right. apply elem_of_union_l, elem_of_singleton. reflexivity.
    + left. apply elem_of_app. left. exact Hin.
Qed.

Lemma bfs_initial : bfsInvariant w startPos maxBlocks ∅ [startPos] [].
Proof.
  split.
  - intros p Hp. inversion Hp.
  - apply NoDup_nil. trivial.
  - intros p Hp. inversion Hp.
  - simpl. lia.
  - left. split; reflexivity.
  - intros p Hp. discriminate.
  - apply chained_nil.
  - intros p Hp. apply elem_of_empty in Hp. destruct Hp.
  - intros q n Hq. inversion Hq.
  - left. left.
Qed.

(** When the loop ends, the invariant holds with the queue empty or the
    result at its limit. *)
Lemma bfs_final (fuel : nat) (visited : gset string) (queue treeBlocks result : list Pos) :
  bfs fuel w maxBlocks visited queue treeBlocks = Some result →
  bfsInvariant w startPos maxBlocks visited queue treeBlocks →
  ∃ visited' queue',
    bfsInvariant w startPos maxBlocks visited' queue' result
    ∧ (queue' = [] ∨ maxBlocks <= Z.of_nat (List.length result)).
Proof.
  revert visited queue treeBlocks.
  induction fuel as [| fuel IH]; intros visited queue treeBlocks Hrun Hinv; [discriminate |].
  rewrite bfs_unfold in Hrun. destruct queue as [| currentPos rest].
  { injection Hrun as <-. exists visited, []. split; [exact Hinv | left; reflexivity]. }
  destruct (Z.ltb_spec (Z.of_nat (List.length treeBlocks)) maxBlocks) as [Hlt | Hge];
    cbn [negb] in Hrun.
  2: { injection Hrun as <-. exists visited, (currentPos :: rest).
       split; [exact Hinv | right; exact Hge]. }
  destruct (bool_decide (posKey currentPos ∈ visited)) eqn:Hd.
  { apply bool_decide_eq_true in Hd. apply (IH _ _ _ Hrun). apply bfs_skip with currentPos;
      assumption. }
  apply bool_decide_eq_false in Hd.
  destruct (Memory.isTreeBlock (blockAt w currentPos)) eqn:Htree; cbn [negb] in Hrun.
  - apply (IH _ _ _ Hrun). apply bfs_collect; assumption.
  - apply (IH _ _ _ Hrun). apply bfs_reject; assumption.
Qed.

(** X19: the free function [findConnectedTreeBlocks] always returns.  Its
    result holds at most [maxBlocks] positions, all different and all tree
    blocks; it starts with the start position, and every later position is
    one of the 26 neighbours of an earlier one.  When the result is shorter
    than [maxBlocks] it is the whole tree: it holds the start position if
    that is a tree block, and every tree block next to a position of the
    result. *)
Theorem findConnectedTreeBlocks_flood_fill :
  ∃ result,
    findConnectedTreeBlocks w startPos maxBlocks = Some result
    ∧ Z.of_nat (List.length result) <= Z.max 0 maxBlocks
    ∧ NoDup result
    ∧ (∀ p, p ∈ result → Memory.isTreeBlock (blockAt w p) = true)
    ∧ (∀ p, result !! 0%nat = Some p → p = startPos)
    ∧ chained neighbours26 result
    ∧ (Z.of_nat (List.length result) < maxBlocks →
       (Memory.isTreeBlock (blockAt w startPos) = true → startPos ∈ result)
       ∧ ∀ q n, q ∈ result → n ∈ neighbours26 q →
                Memory.isTreeBlock (blockAt w n) = true → n ∈ result).
Proof.
  unfold findConnectedTreeBlocks.
  destruct (bfs_total (bfsFuel maxBlocks) ∅ [startPos] []) as [result Hrun].
  { unfold bfsFuel. rewrite length_cons, !length_nil. lia. }
  exists result. split; [exact Hrun |].
  destruct (bfs_final _ _ _ _ _ Hrun bfs_initial)
    as [visited' [queue' [[Ht Hn Hv Hl Hq Hh Hc Hs Hf Hst] Hend]]].
  repeat (split; [assumption |]).
  intros Hshort. destruct Hend as [-> | Hfull]; [| lia].
  split.
  - intros Htree. destruct Hst as [Hin | Hin]; [inversion Hin |]. apply Hs; assumption.
  - intros q n Hq' Hn' Hnt. destruct (Hf q n Hq' Hn' Hnt) as [Hin | Hin]; [exact Hin |].
    inversion Hin.
Qed.
End BfsFacts.

Section DfsFacts.

Variable w : World.
Variable maxBlocks : Z.

Lemma dfs_unfold (fuel : nat) (startPos : Pos) (visited : gset string) :
  dfs (S fuel) w maxBlocks startPos visited
  = if (bool_decide (posKey startPos ∈ visited)
        || (maxBlocks <=? Z.of_nat (size visited)))%bool
    then Some ([], visited)
    else if negb (Goals.goalIsTreeBlock (blockAt w startPos)) then Some ([], visited)
    else eachOffset (dfs fuel w maxBlocks) startPos sixOffsets [startPos]
                    ({[posKey startPos]} ∪ visited).
Proof. reflexivity. Qed.

Lemma keys_nil : keys [] = ∅.
Proof. reflexivity. Qed.

Lemma keys_app (l k : list Pos) : keys (l ++ k) = keys l ∪ keys k.
Proof. unfold keys. rewrite fmap_app, list_to_set_app_L. reflexivity. Qed.

Lemma keys_cons (p : Pos) (l : list Pos) : keys (p :: l) = {[posKey p]} ∪ keys l.
Proof. reflexivity. Qed.

Lemma elem_of_keys (p : Pos) (l : list Pos) : posKey p ∈ keys l ↔ p ∈ l.
Proof.
  unfold keys. rewrite elem_of_list_to_set, list_elem_of_fmap. split.
  - intros [q [Hk Hq]]. apply posKey_inj in Hk. subst q. exact Hq.
  - intros Hp. exists p. split; [reflexivity | exact Hp].
Qed.

Lemma size_keys (l : list Pos) : NoDup l → size (keys l) = List.length l.
Proof.
  intros Hl. unfold keys. rewrite size_list_to_set.
  - apply length_fmap.
  - apply NoDup_fmap_2; [| exact Hl]. intros p q. apply posKey_inj.
Qed.

(** The loop over the offsets, given that the calls it makes return. *)
Lemma eachOffset_spec (fuel : nat) (startPos : Pos)
      (Hcall : ∀ pos visited,
          maxBlocks + 1 <= Z.of_nat fuel + Z.of_nat (size visited) →
          ∃ found visited',
            dfs fuel w maxBlocks pos visited = Some (found, visited')
            ∧ dfsResult w maxBlocks pos visited found visited')
      (offsets : list (Z * Z * Z)) (blocks : list Pos) (visited : gset string) :
  maxBlocks + 1 <= Z.of_nat fuel + Z.of_nat (size visited) →
  ∃ extra visited',
    eachOffset (dfs fuel w maxBlocks) startPos offsets blocks visited
    = Some ((blocks ++ extra)%list, visited')
    ∧ loopResult w maxBlocks startPos offsets visited extra visited'.
Proof.
  revert blocks visited.
  induction offsets as [| [[dx dy] dz] offsets IH]; intros blocks visited Hfuel; simpl.
  - exists [], visited. rewrite app_nil_r. split; [reflexivity |]. split.
    + rewrite keys_nil, (right_id_L ∅ (∪)). reflexivity.
    + intros p Hp. inversion Hp.
    + apply NoDup_nil. trivial.
    + intros p Hp. inversion Hp.
    + lia.
    + intros i p Hp. discriminate.
    + intros _. split; [intros n Hn; inversion Hn | intros q n Hq; inversion Hq].
  - destruct (Hcall (offset startPos dx dy dz) visited Hfuel)
      as [found [visited1 [Hrun [Hv1 Ht1 Hn1 Hf1 Hs1 Hh1 Hc1 Hcl1]]]].
    rewrite Hrun.
    assert (Hsub : visited ⊆ visited1) by (rewrite Hv1; apply union_subseteq_l).
    assert (Hsize := subseteq_size _ _ Hsub).
    destruct (IH (blocks ++ found)%list visited1) as [extra [visited' [Hloop Hres]]];
      [lia |].
    destruct Hres as [Hv2 Ht2 Hn2 Hf2 Hs2 Hc2 Hcl2].
    assert (Hsub2 : visited1 ⊆ visited') by (rewrite Hv2; apply union_subseteq_l).
    assert (Hsize2 := subseteq_size _ _ Hsub2).
    exists (found ++ extra)%list, visited'. rewrite app_assoc. split; [exact Hloop |].
    split.
    + rewrite keys_app, Hv2, Hv1, (assoc_L (∪)). reflexivity.
    + intros p Hp. apply elem_of_app in Hp. destruct Hp as [Hp | Hp]; auto.
    + apply NoDup_app. split; [exact Hn1 |]. split; [| exact Hn2].
      intros p Hp Hp'. apply (Hf2 p Hp'). rewrite Hv1. apply elem_of_union_r, elem_of_keys, Hp.
    + intros p Hp. apply elem_of_app in Hp. destruct Hp as [Hp | Hp]; [apply Hf1, Hp |].
      intros Hin. apply (Hf2 p Hp). apply Hsub, Hin.
    + lia.
    + intros i p Hp.
      destruct (Nat.lt_ge_cases i (List.length found)) as [Hlt | Hge].
      * rewrite lookup_app_l in Hp by exact Hlt. destruct i as [| i].
        -- left. rewrite (Hh1 p Hp). left.
        -- right. destruct (Hc1 i p Hp) as [j [q [Hj [Hq Hnb]]]].
           exists j, q. split; [lia |]. split; [| exact Hnb].
           rewrite lookup_app_l by lia. exact Hq.
      * rewrite lookup_app_r in Hp by exact Hge.
        destruct (Hc2 _ p Hp) as [Hnb | [j [q [Hj [Hq Hnb]]]]].
        -- left. right. exact Hnb.
        -- right. exists (List.length found + j)%nat, q. split; [lia |].
           split; [| exact Hnb]. rewrite lookup_app_r by lia.
           replace (List.length found + j - List.length found)%nat with j by lia. exact Hq.
    + intros Hsmall. destruct Hcl2 as [Hnear2 Hfar2]; [exact Hsmall |].
      destruct Hcl1 as [Hnear1 Hfar1]; [lia |]. split.
      * intros n Hn Htree. apply elem_of_cons in Hn. destruct Hn as [-> | Hn].
        -- apply Hsub2, Hnear1, Htree.
        -- apply Hnear2; assumption.
      * intros q n Hq Hn Htree. apply elem_of_app in Hq. destruct Hq as [Hq | Hq].
        -- apply Hsub2. apply (Hfar1 q n); assumption.
        -- apply (Hfar2 q n); assumption.
Qed.

(** A call returns when its fuel covers the room left in [visited]. *)
Lemma dfs_spec (fuel : nat) (startPos : Pos) (visited : gset string) :
  (1 <= fuel)%nat →
  maxBlocks + 1 <= Z.of_nat fuel + Z.of_nat (size visited) →
  ∃ found visited',
    dfs fuel w maxBlocks startPos visited = Some (found, visited')
    ∧ dfsResult w maxBlocks startPos visited found visited'.
Proof.
  revert startPos visited.
  induction fuel as [| fuel IH]; intros startPos visited Hpos Hfuel; [lia |].
  rewrite dfs_unfold.
  destruct (bool_decide (posKey startPos ∈ visited)) eqn:Hseen.
  { apply bool_decide_eq_true in Hseen. simpl. exists [], visited. split; [reflexivity |].
    split.
    - rewrite keys_nil, (right_id_L ∅ (∪)). reflexivity.
    - intros p Hp. inversion Hp.
    - apply NoDup_nil. trivial.
    - intros p Hp. inversion Hp.
    - lia.
    - intros p Hp. discriminate.
    - apply chained_nil.
    - intros _. split; [intros _; exact Hseen | intros q n Hq; inversion Hq]. }
  apply bool_decide_eq_false in Hseen. simpl.
  destruct (Z.leb_spec maxBlocks (Z.of_nat (size visited))) as [Hfull | Hroom].
  { exists [], visited. split; [reflexivity |]. split.
    - rewrite keys_nil, (right_id_L ∅ (∪)). reflexivity.
    - intros p Hp. inversion Hp.
    - apply NoDup_nil. trivial.
    - intros p Hp. inversion Hp.
    - lia.
    - intros p Hp. discriminate.
    - apply chained_nil.
    - intros Hsmall. lia. }
  destruct (Goals.goalIsTreeBlock (blockAt w startPos)) eqn:Htree; simpl.
  2: { exists [], visited. split; [reflexivity |]. split.
       - rewrite keys_nil, (right_id_L ∅ (∪)). reflexivity.
       - intros p Hp. inversion Hp.
       - apply NoDup_nil. trivial.
       - intros p Hp. inversion Hp.
       - lia.
       - intros p Hp. discriminate.
       - apply chained_nil.
       - intros _. split; [intros Hno; congruence | intros q n Hq; inversion Hq]. }
  assert (Hsz : size ({[posKey startPos]} ∪ visited) = S (size visited)).
  { rewrite size_union.
    - rewrite size_singleton. reflexivity.
    - intros k Hk Hk'. apply elem_of_singleton in Hk. subst k. exact (Hseen Hk'). }
  destruct (eachOffset_spec fuel startPos) with
    (offsets := sixOffsets) (blocks := [startPos])
    (visited := {[posKey startPos]} ∪ visited)
    as [extra [visited' [Hrun [Hv Ht Hn Hf Hs Hc Hcl]]]].
  { intros pos vis Hvis. apply IH; [lia | exact Hvis]. }
  { rewrite Hsz. lia. }
  exists (startPos :: extra), visited'. split; [exact Hrun |]. split.
  - rewrite keys_cons, Hv, (assoc_L (∪)), (comm_L (∪) visited). reflexivity.
  - intros p Hp. apply elem_of_cons in Hp. destruct Hp as [-> | Hp]; auto.
  - apply NoDup_cons. split; [| exact Hn].
    intros Hin. apply (Hf _ Hin). apply elem_of_union_l, elem_of_singleton. reflexivity.
  - intros p Hp. apply elem_of_cons in Hp. destruct Hp as [-> | Hp]; [exact Hseen |].
    intros Hin. apply (Hf _ Hp). apply elem_of_union_r, Hin.
  - rewrite Hsz in Hs. lia.
  - intros p Hp. simpl in Hp. injection Hp as <-. reflexivity.
  - intros i p Hp. simpl in Hp.
    destruct (Hc i p Hp) as [Hnb | [j [q [Hj [Hq Hnb]]]]].
    + exists 0%nat, startPos. split; [lia |]. split; [reflexivity | exact Hnb].
    + exists (S j), q. split; [lia |]. split; [exact Hq | exact Hnb].
  - intros Hsmall. destruct Hcl as [Hnear Hfar]; [exact Hsmall |]. split.
    + intros _. rewrite Hv. apply elem_of_union_l, elem_of_union_l, elem_of_singleton.
      reflexivity.
    + intros q n Hq Hnb Hnt. apply elem_of_cons in Hq. destruct Hq as [-> | Hq].
      * apply Hnear; assumption.
      * apply (Hfar q n); assumption.
Qed.

End DfsFacts.

(** X20: [MineTreeGoal.findConnectedTreeBlocks], called as [mineTree] calls
    it, always returns, never going deeper than 51 calls.  Its result holds
    at most 50 positions, all different and all tree blocks; it starts with
    the start position, and every later position is next to an earlier one
    along an axis.  When the result is shorter than 50 it is the whole tree:
    it holds the start position if that is a tree block, and every tree
    block next to a position of the result. *)
Theorem goal_flood_fill (w : World) (startPos : Pos) :
  ∃ result,
    goalFindConnectedTreeBlocks w startPos = Some result
    ∧ (List.length result <= 50)%nat
    ∧ NoDup result
    ∧ (∀ p, p ∈ result → Goals.goalIsTreeBlock (blockAt w p) = true)
    ∧ (∀ p, result !! 0%nat = Some p → p = startPos)
    ∧ chained neighbours6 result
    ∧ ((List.length result < 50)%nat →
       (Goals.goalIsTreeBlock (blockAt w startPos) = true → startPos ∈ result)
       ∧ ∀ q n, q ∈ result → n ∈ neighbours6 q →
                Goals.goalIsTreeBlock (blockAt w n) = true → n ∈ result).
Proof.
  unfold goalFindConnectedTreeBlocks.
  destruct (dfs_spec w 50 51 startPos ∅) as [result [visited' [Hrun Hres]]];
    [lia | rewrite size_empty; lia |].
  destruct Hres as [Hv Ht Hn Hf Hs Hh Hc Hcl].
  exists result. rewrite Hrun. split; [reflexivity |].
  assert (Hkeys : visited' = keys result) by (rewrite Hv; apply (left_id_L ∅ (∪))).
  assert (Hlen : size visited' = List.length result)
    by (rewrite Hkeys; apply size_keys, Hn).
  rewrite size_empty in Hs.
  split; [lia |]. repeat (split; [assumption |]).
  intros Hshort. destruct Hcl as [Hstart Hnear]; [lia |]. split.
  - intros Htree. apply elem_of_keys. rewrite <- Hkeys. apply Hstart, Htree.
  - intros q n Hq Hnb Hnt. apply elem_of_keys. rewrite <- Hkeys. apply (Hnear q n); assumption.
Qed.

(** * Further facts: goal objects over time *)

Import Lifecycle.

Section StoreFacts.

Variable cfg : Config.t.
Variable w : World.

Lemma retire_keeps_or_stops (sd : SensorData) (l : list GoalRef) (h : GoalRef → Goal)
      (r : GoalRef) :
  snd (retire cfg w sd l h) r = h r
  ∨ (isActive (snd (retire cfg w sd l h) r) = false
     ∧ startTime (snd (retire cfg w sd l h) r) = None).
Proof.
  revert h. induction l as [| r0 l IH]; intros h; simpl; [left; reflexivity |].
  destruct (hasTimedOut cfg w (h r0) || negb (canContinue w sd (h r0)))%bool.
  - destruct (IH (upd r0 (stop (h r0)) h)) as [Heq | Hst]; [| right; exact Hst].
    rewrite Heq. destruct (Nat.eq_dec r r0) as [-> | Hne].
    + right. rewrite upd_same. split; reflexivity.
    + left. apply upd_other. exact Hne.
  - specialize (IH h). destruct (retire cfg w sd l h) as [kept h']; simpl in *. exact IH.
Qed.

(** A goal of the active set that is still running after the removal pass
    has been kept in the set. *)
Lemma retire_running_kept (sd : SensorData) (l : list GoalRef) (h : GoalRef → Goal)
      (r : GoalRef) :
  isActive (snd (retire cfg w sd l h) r) = true → In r l →
  In r (fst (retire cfg w sd l h)).
Proof.
  revert h. induction l as [| r0 l IH]; intros h Hrun Hin; [destruct Hin |]. simpl in *.
  destruct (hasTimedOut cfg w (h r0) || negb (canContinue w sd (h r0)))%bool eqn:Hdrop.
  - destruct (Nat.eq_dec r r0) as [-> | Hne].
    + exfalso.
      destruct (retire_keeps_or_stops sd l (upd r0 (stop (h r0)) h) r0) as [Heq | [Hoff _]].
      * rewrite Heq, upd_same in Hrun. discriminate.
      * congruence.
    + apply IH; [exact Hrun |]. destruct Hin as [-> | Hin]; [contradiction | exact Hin].
  - specialize (IH h). destruct (retire cfg w sd l h) as [kept h']; simpl in *.
    destruct Hin as [-> | Hin]; [left; reflexivity | right; apply IH; assumption].
Qed.

Lemma activate_started (sd : SensorData) (avail active : list GoalRef) (h : GoalRef → Goal)
      (r : GoalRef) :
  snd (activate cfg w sd avail active h) r = h r
  ∨ In r (fst (activate cfg w sd avail active h)).
Proof.
  revert active h. induction avail as [| r0 avail IH]; intros active h; simpl;
    [left; reflexivity |].
  destruct (Z.of_nat (List.length active) <? Config.maxActiveGoals cfg);
    [| left; reflexivity].
  destruct (IH (active ++ [r0])%list (upd r0 (start w sd (h r0)) h)) as [Heq | Hin];
    [| right; exact Hin].
  destruct (Nat.eq_dec r r0) as [-> | Hne].
  - right. rewrite activate_take. apply in_app_iff. left. apply in_app_iff. right. left.
    reflexivity.
  - left. rewrite Heq. apply upd_other. exact Hne.
Qed.

Lemma tickAll_keeps_or_stops (sd : SensorData) (l : list GoalRef) (h : GoalRef → Goal)
      (r : GoalRef) :
  (isActive (snd (tickAll w sd l h) r) = isActive (h r)
   ∧ startTime (snd (tickAll w sd l h) r) = startTime (h r))
  ∨ (isActive (snd (tickAll w sd l h) r) = false
     ∧ startTime (snd (tickAll w sd l h) r) = None).
Proof.
  revert h. induction l as [| r0 l IH]; intros h; simpl; [left; split; reflexivity |].
  assert (Hstep : (isActive (upd r0 (snd (Goals.tick w sd (h r0))) h r) = isActive (h r)
                   ∧ startTime (upd r0 (snd (Goals.tick w sd (h r0))) h r) = startTime (h r))
                  ∨ (isActive (upd r0 (snd (Goals.tick w sd (h r0))) h r) = false
                     ∧ startTime (upd r0 (snd (Goals.tick w sd (h r0))) h r) = None)).
  { destruct (Nat.eq_dec r r0) as [-> | Hne].
    - rewrite upd_same. apply tick_keeps_or_stops.
    - left. rewrite upd_other by assumption. split; reflexivity. }
  destruct (Goals.tick w sd (h r0)) as [[| e] g']; simpl in *; [| exact Hstep].
  destruct (IH (upd r0 g' h)) as [[Ha Ht] | Hoff]; [| right; exact Hoff].
  rewrite Ha, Ht. exact Hstep.
Qed.

Lemma tick_storeOk (s : GoalSelector) :
  storeOk s → storeOk (snd (Selector.tick cfg w s)).
Proof.
  intros Hs. unfold Selector.tick.
  destruct (now w - Selector.lastTickTime s <? Config.tickInterval cfg); [exact Hs |].
  assert (H1 : storeOk (removalPass cfg w s)).
  { destruct Hs as [Htime Hlist].
    destruct (removalPass_fields cfg w s) as [_ [Ha [Hh _]]]. split.
    - intros r. rewrite Hh.
      destruct (retire_keeps_or_stops (sensed w) (activeGoals s) (heap s) r)
        as [-> | [Hoff Hnone]]; [apply Htime |].
      unfold startTimeIffActive. rewrite Hoff, Hnone. split; [congruence | discriminate].
    - intros r Hrun. rewrite Ha. rewrite Hh in Hrun.
      apply retire_running_kept; [exact Hrun |]. apply Hlist.
      destruct (retire_keeps_or_stops (sensed w) (activeGoals s) (heap s) r)
        as [Heq | [Hoff _]]; [rewrite <- Heq; exact Hrun | congruence]. }
  assert (H2 : storeOk (activationPass cfg w (removalPass cfg w s))).
  { destruct H1 as [Htime Hlist]. set (s1 := removalPass cfg w s) in *.
    destruct (activationPass_fields cfg w s1) as [_ [Ha [Hh _]]]. split.
    - intros r. rewrite Hh.
      match goal with
      | |- startTimeIffActive (snd (activate _ _ ?sd ?av ?ac ?hp) r) =>
          destruct (activate_heap cfg w sd av ac hp r) as [-> | [Hon Hsome]]
      end; [apply Htime |].
      unfold startTimeIffActive. rewrite Hon, Hsome. split; [reflexivity | discriminate].
    - intros r Hrun. rewrite Ha. rewrite Hh in Hrun.
      match goal with
      | |- In r (fst (activate _ _ ?sd ?av ?ac ?hp)) =>
          destruct (activate_started sd av ac hp r) as [Heq | Hin]; [| exact Hin]
      end.
      rewrite Heq in Hrun. rewrite activate_take. apply in_app_iff. left.
      apply Hlist, Hrun. }
  destruct H2 as [Htime Hlist]. set (s2 := activationPass cfg w (removalPass cfg w s)) in *.
  destruct (tickPass_fields w s2) as [_ [_ [Ha Hh]]]. split.
  - intros r. rewrite Hh.
    destruct (tickAll_keeps_or_stops (sensorData s2) (activeGoals s2) (heap s2) r)
      as [[Hact Hst] | [Hoff Hnone]]; unfold startTimeIffActive.
    + rewrite Hact, Hst. apply Htime.
    + rewrite Hoff, Hnone. split; [congruence | discriminate].
  - intros r Hrun. rewrite Ha. rewrite Hh in Hrun. apply Hlist.
    destruct (tickAll_keeps_or_stops (sensorData s2) (activeGoals s2) (heap s2) r)
      as [[Hact _] | [Hoff _]]; congruence.
Qed.

Lemma tick_stamp (s : GoalSelector) :
  Config.tickInterval cfg <= now w - Selector.lastTickTime s →
  Selector.lastTickTime (snd (Selector.tick cfg w s)) = now w.
Proof.
  intros Hdue. rewrite tick_due by exact Hdue.
  unfold tickPass, activationPass, removalPass.
  destruct (retire cfg w (sensed w) (activeGoals s) (heap s)) as [kept h1]. simpl.
  destruct (activate _ _ _ _ _ _) as [active h2]. simpl.
  destruct (tickAll _ _ _ _) as [out h3]. reflexivity.
Qed.

End StoreFacts.

(** X21: over any sequence of scheduler ticks, with or without exceptions
    from goal ticks, every goal object keeps its start timestamp set exactly
    while it is active, and no goal is running outside the active set. *)
Theorem running_goals_are_listed (cfg : Config.t) (ws : list World) (s : GoalSelector) :
  storeOk s → Forall storeOk (tickTrace cfg ws s).
Proof.
  revert s. induction ws as [| w ws IH]; intros s Hs; simpl; [apply Forall_nil; trivial |].
  assert (Hs' := tick_storeOk cfg w s Hs).
  apply Forall_cons. split; [exact Hs' | apply IH, Hs'].
Qed.

(** X22: after a scheduler tick that ran, a tick that comes less than
    [tickInterval] later does nothing at all: it returns normally and leaves
    the selector and every goal as they are. *)
Theorem scheduler_rate_limit (cfg : Config.t) (w w' : World) (s : GoalSelector) :
  Config.tickInterval cfg <= now w - Selector.lastTickTime s →
  now w' - now w < Config.tickInterval cfg →
  Selector.tick cfg w' (snd (Selector.tick cfg w s))
  = (Completed, snd (Selector.tick cfg w s)).
Proof.
  intros Hdue Hsoon. assert (Hstamp := tick_stamp cfg w s Hdue).
  unfold Selector.tick at 1. rewrite Hstamp.
  destruct (Z.ltb_spec (now w' - now w) (Config.tickInterval cfg)); [reflexivity | lia].
Qed.

Section ShelterFacts.

Lemma shelter_tick (w : World) (sd : SensorData) (g : Goal) :
  cls g = BuildShelterGoal →
  let g' := snd (Goals.tick w sd g) in
  cls g' = BuildShelterGoal
  ∧ match buildingPhase g with
    | planning => buildingPhase g' = foundation ∧ isActive g' = isActive g
    | foundation => buildingPhase g' = walls ∧ isActive g' = isActive g
    | walls => buildingPhase g' = roof ∧ isActive g' = isActive g
    | roof => buildingPhase g' = complete ∧ isActive g' = false ∧ startTime g' = None
    | complete => buildingPhase g' = complete ∧ isActive g' = isActive g
                  ∧ startTime g' = startTime g
    end.
Proof.
  intros Hc. unfold Goals.tick. rewrite Hc. simpl.
  unfold buildShelterTick, baseTick.
  destruct (isActive g) eqn:Ha; simpl; destruct (buildingPhase g) eqn:Hp; simpl;
    rewrite ?Hp, ?Ha; simpl; repeat split; try assumption; reflexivity.
Qed.

Lemma ticks_cons (t : World * SensorData) (ts : list (World * SensorData)) (g : Goal) :
  ticks (t :: ts) g = ticks ts (snd (Goals.tick (fst t) (snd t) g)).
Proof. reflexivity. Qed.

Lemma ticks_nil (g : Goal) : ticks [] g = g.
Proof. reflexivity. Qed.

Lemma shelter_complete_stays (ts : list (World * SensorData)) (g : Goal) :
  cls g = BuildShelterGoal → buildingPhase g = complete →
  buildingPhase (ticks ts g) = complete
  ∧ isActive (ticks ts g) = isActive g
  ∧ startTime (ticks ts g) = startTime g.
Proof.
  revert g. induction ts as [| t ts IH]; intros g Hc Hp;
    [split; [exact Hp | split; reflexivity] |].
  rewrite ticks_cons.
  destruct (shelter_tick (fst t) (snd t) g Hc) as [Hc' Hstep]. rewrite Hp in Hstep.
  destruct Hstep as [Hp' [Ha' Hs']].
  destruct (IH _ Hc' Hp') as [H1 [H2 H3]].
  split; [exact H1 |]. split; congruence.
Qed.

(** X23: a [BuildShelterGoal] in its planning phase completes on its fourth
    tick and stops itself then, not before; once complete it stays complete
    whatever is called on it, so a later [start] activates a goal that does
    nothing and that no tick stops. *)
Theorem shelter_is_built_once (ts : list (World * SensorData)) (g : Goal) :
  cls g = BuildShelterGoal →
  (buildingPhase g = planning →
   ((List.length ts < 4)%nat →
    buildingPhase (ticks ts g) ≠ complete ∧ isActive (ticks ts g) = isActive g)
   ∧ ((4 <= List.length ts)%nat →
      buildingPhase (ticks ts g) = complete
      ∧ isActive (ticks ts g) = false ∧ startTime (ticks ts g) = None))
  ∧ (buildingPhase g = complete →
     ∀ w sd,
       buildingPhase (ticks ts (start w sd g)) = complete
       ∧ isActive (ticks ts (start w sd g)) = true
       ∧ buildingPhase (stop g) = complete).
Proof.
  intros Hc. split.
  - intros Hp.
    destruct ts as [| t1 ts].
    { rewrite ticks_nil, Hp. split; [intros _; split; [discriminate | reflexivity] |].
      simpl. lia. }
    rewrite ticks_cons.
    destruct (shelter_tick (fst t1) (snd t1) g Hc) as [Hc1 Hs1]. rewrite Hp in Hs1.
    destruct Hs1 as [Hp1 Ha1].
    destruct ts as [| t2 ts].
    { rewrite ticks_nil, Hp1. split; [intros _; split; [discriminate | exact Ha1] |].
      simpl. lia. }
    rewrite ticks_cons.
    destruct (shelter_tick (fst t2) (snd t2) _ Hc1) as [Hc2 Hs2]. rewrite Hp1 in Hs2.
    destruct Hs2 as [Hp2 Ha2].
    destruct ts as [| t3 ts].
    { rewrite ticks_nil, Hp2. split; [intros _; split; [discriminate | congruence] |].
      simpl. lia. }
    rewrite ticks_cons.
    destruct (shelter_tick (fst t3) (snd t3) _ Hc2) as [Hc3 Hs3]. rewrite Hp2 in Hs3.
    destruct Hs3 as [Hp3 Ha3].
    destruct ts as [| t4 ts].
    { rewrite ticks_nil, Hp3. split; [intros _; split; [discriminate | congruence] |].
      simpl. lia. }
    rewrite ticks_cons.
    destruct (shelter_tick (fst t4) (snd t4) _ Hc3) as [Hc4 Hs4]. rewrite Hp3 in Hs4.
    destruct Hs4 as [Hp4 [Ha4 Hst4]].
    split; [simpl; lia |]. intros _.
    destruct (shelter_complete_stays ts _ Hc4 Hp4) as [H1 [H2 H3]].
    split; [exact H1 |]. split; congruence.
  - intros Hp w sd.
    assert (Hstart : cls (start w sd g) = BuildShelterGoal
                     ∧ buildingPhase (start w sd g) = complete
                     ∧ isActive (start w sd g) = true).
    { unfold start. rewrite Hc. simpl. repeat split; assumption. }
    destruct Hstart as [Hc' [Hp' Ha']].
    destruct (shelter_complete_stays ts _ Hc' Hp') as [H1 [H2 _]].
    split; [exact H1 |]. split; [congruence | exact Hp].
Qed.

End ShelterFacts.

(** * Further facts: the choice of a tool *)

Import Tools.

Section ToolFacts.

Lemma tierOf_nonneg (toolName : string) : (0 <= tierOf toolName)%Q.
Proof.
  unfold tierOf, lastMatch, toolTiers. cbn [fold_left fst snd].
  repeat match goal with
         | |- context [includes ?m toolName] => destruct (includes m toolName)
         end; apply Qle_bool_iff; reflexivity.
Qed.

Lemma Qgtb_true (a b : Q) : Qgtb a b = true → (b < a)%Q.
Proof.
  unfold Qgtb. intros H. apply negb_true_iff in H. apply Qnot_le_lt. intros Hle.
  apply Qle_bool_iff in Hle. congruence.
Qed.

Lemma Qgtb_false (a b : Q) : Qgtb a b = false → (a <= b)%Q.
Proof.
  unfold Qgtb. intros H. apply negb_false_iff in H. apply Qle_bool_iff. exact H.
Qed.

Variable ty : string.

(** What the search for a tool of the preferred type knows after it has
    gone through [processed]. *)
Let searched (processed : list Item) (state : option Item * Q) : Prop :=
  match fst state with
  | None => snd state = ((-1) # 1)%Q
            ∧ ∀ t, In t processed → includes ty (lowerName t) = false
  | Some best =>
      In best processed ∧ includes ty (lowerName best) = true
      ∧ snd state = tierOf (lowerName best)
      ∧ ∀ t, In t processed → includes ty (lowerName t) = true →
             (tierOf (lowerName t) <= snd state)%Q
  end.

Lemma considerTool_searched (processed : list Item) (state : option Item * Q) (tool : Item) :
  searched processed state →
  searched (processed ++ [tool]) (considerTool ty state tool).
Proof.
  destruct state as [best tier]. unfold searched, considerTool. cbn [fst snd].
  intros Hinv. destruct (includes ty (lowerName tool)) eqn:Hfit.
  - destruct (Qgtb (tierOf (lowerName tool)) tier) eqn:Hgt; cbn [fst snd].
    + apply Qgtb_true in Hgt.
      split; [apply in_app_iff; right; left; reflexivity |].
      split; [exact Hfit |]. split; [reflexivity |].
      intros t Ht Hf. apply in_app_iff in Ht. destruct Ht as [Ht | [<- | []]].
      * destruct best as [b |].
        -- destruct Hinv as [_ [_ [_ Hmax]]]. apply Qlt_le_weak.
           apply Qle_lt_trans with tier; [apply Hmax; assumption | exact Hgt].
        -- destruct Hinv as [_ Hnone]. rewrite (Hnone t Ht) in Hf. discriminate.
      * apply Qle_refl.
    + apply Qgtb_false in Hgt. destruct best as [b |].
      * destruct Hinv as [Hin [Hb [Htier Hmax]]].
        split; [apply in_app_iff; left; exact Hin |]. split; [exact Hb |].
        split; [exact Htier |].
        intros t Ht Hf. apply in_app_iff in Ht. destruct Ht as [Ht | [<- | []]].
        -- apply Hmax; assumption.
        -- exact Hgt.
      * exfalso. destruct Hinv as [Htier _]. rewrite Htier in Hgt.
        assert (Hpos := tierOf_nonneg (lowerName tool)).
        assert (Hbad : (0 <= (-1) # 1)%Q) by (apply Qle_trans with (tierOf (lowerName tool)); assumption).
        apply Qle_bool_iff in Hbad. discriminate.
  - destruct best as [b |].
    + destruct Hinv as [Hin [Hb [Htier Hmax]]].
      split; [apply in_app_iff; left; exact Hin |]. split; [exact Hb |].
      split; [exact Htier |].
      intros t Ht Hf. apply in_app_iff in Ht. destruct Ht as [Ht | [<- | []]].
      * apply Hmax; assumption.
      * congruence.
    + destruct Hinv as [Htier Hnone]. split; [exact Htier |].
      intros t Ht. apply in_app_iff in Ht. destruct Ht as [Ht | [<- | []]].
      * apply Hnone, Ht.
      * exact Hfit.
Qed.

Lemma pickPreferred_searched (tools : list Item) :
  searched tools (pickPreferred ty tools).
Proof.
  unfold pickPreferred.
  assert (Hgen : ∀ l processed state,
             searched processed state →
             searched (processed ++ l) (fold_left (considerTool ty) l state)).
  { induction l as [| tool l IH]; intros processed state Hinv; simpl.
    - rewrite app_nil_r. exact Hinv.
    - replace (processed ++ tool :: l)%list with ((processed ++ [tool]) ++ l)%list
        by (rewrite <- app_assoc; reflexivity).
      apply IH, considerTool_searched, Hinv. }
  apply (Hgen tools [] (None, ((-1) # 1)%Q)).
  split; [reflexivity | intros t []].
Qed.

End ToolFacts.

Section FallbackFacts.

Lemma better_cases (best current : Item) :
  better best current = best ∨ better best current = current.
Proof.
  unfold better.
  destruct (includes "pickaxe" (lowerName current) && negb (includes "pickaxe" (lowerName best)))%bool;
    [right; reflexivity |].
  destruct (includes "pickaxe" (lowerName best) && negb (includes "pickaxe" (lowerName current)))%bool;
    [left; reflexivity |].
  destruct (Qgtb _ _); [right | left]; reflexivity.
Qed.

Lemma better_pickaxe (best current : Item) :
  includes "pickaxe" (lowerName best) = true ∨ includes "pickaxe" (lowerName current) = true →
  includes "pickaxe" (lowerName (better best current)) = true.
Proof.
  unfold better.
  destruct (includes "pickaxe" (lowerName current)) eqn:Hc,
           (includes "pickaxe" (lowerName best)) eqn:Hb; cbn [andb negb];
    try (intros _; assumption).
  - intros _. destruct (Qgtb _ _); assumption.
  - intros [H | H]; discriminate.
Qed.

Lemma reduce_better (others : list Item) (first : Item) :
  In (fold_left better others first) (first :: others)
  ∧ (∀ t, In t (first :: others) → includes "pickaxe" (lowerName t) = true →
          includes "pickaxe" (lowerName (fold_left better others first)) = true).
Proof.
  revert first. induction others as [| o others IH]; intros first.
  - simpl. split; [left; reflexivity |]. intros t [<- | []] Ht. exact Ht.
  - cbn [fold_left]. destruct (IH (better first o)) as [Hin Hpick]. split.
    + destruct Hin as [Hin | Hin]; [| right; right; exact Hin].
      rewrite <- Hin. destruct (better_cases first o) as [-> | ->];
        [left | right; left]; reflexivity.
    + intros t Ht Hp.
      destruct Ht as [<- | [<- | Ht]].
      * apply (Hpick (better first o)); [left; reflexivity |].
        apply better_pickaxe. left. exact Hp.
      * apply (Hpick (better first o)); [left; reflexivity |].
        apply better_pickaxe. right. exact Hp.
      * apply (Hpick t); [right; exact Ht | exact Hp].
Qed.

End FallbackFacts.

(** X24: [getBestTool] returns null exactly when the inventory holds no
    tool, and otherwise a tool of the inventory.  When the block has a
    preferred tool type and some tool's name includes it, the result is such
    a tool of the highest tier.  When no tool is of the preferred type, or the
    block has none, a pickaxe is returned if the inventory holds one. *)
Theorem getBestTool_choice (items : list Item) (block : Block) :
  let tools := List.filter isTool items in
  let preferred := preferredToolType (toLowerCase (blockName block)) in
  (getBestTool items block = None ↔ tools = [])
  ∧ (∀ t, getBestTool items block = Some t → In t items ∧ isTool t = true)
  ∧ (∀ ty t0, preferred = Some ty → In t0 tools → includes ty (lowerName t0) = true →
       ∃ t, getBestTool items block = Some t
            ∧ includes ty (lowerName t) = true
            ∧ ∀ t', In t' tools → includes ty (lowerName t') = true →
                    (tierOf (lowerName t') <= tierOf (lowerName t))%Q)
  ∧ ((∀ ty, preferred = Some ty → ∀ t, In t tools → includes ty (lowerName t) = false) →
     ∀ t0, In t0 tools → includes "pickaxe" (lowerName t0) = true →
       ∃ t, getBestTool items block = Some t ∧ includes "pickaxe" (lowerName t) = true).
Proof.
  intros tools preferred. unfold getBestTool. fold tools. fold preferred.
  destruct tools as [| first others] eqn:Htools.
  { split; [split; reflexivity |]. split; [intros t Ht; discriminate |].
    split; [intros ty t0 _ [] | intros _ t0 []]. }
  assert (Hitems : ∀ t, In t (first :: others) → In t items ∧ isTool t = true).
  { intros t Ht. rewrite <- Htools in Ht. apply List.filter_In in Ht. exact Ht. }
  destruct (reduce_better others first) as [Hrin Hrpick].
  destruct preferred as [ty |] eqn:Hpref.
  - assert (Hs := pickPreferred_searched ty (first :: others)).
    destruct (pickPreferred ty (first :: others)) as [best tier]. cbn [fst snd] in *.
    destruct best as [b |].
    + destruct Hs as [Hin [Hb [Htier Hmax]]].
      split; [split; intros H; discriminate |].
      split; [intros t Ht; injection Ht as <-; apply Hitems, Hin |].
      split.
      * intros ty' t0 Hty Ht0 Hfit. injection Hty as <-.
        exists b. split; [reflexivity |]. split; [exact Hb |].
        intros t' Ht' Hf'. rewrite <- Htier. apply Hmax; assumption.
      * intros Hnone. rewrite (Hnone ty eq_refl b Hin) in Hb. discriminate.
    + destruct Hs as [_ Hnone].
      split; [split; intros H; discriminate |].
      split; [intros t Ht; injection Ht as <-; apply Hitems, Hrin |].
      split.
      * intros ty' t0 Hty Ht0 Hfit. injection Hty as <-.
        rewrite (Hnone t0 Ht0) in Hfit. discriminate.
      * intros _ t0 Ht0 Hp. eexists. split; [reflexivity |]. apply (Hrpick t0); assumption.
  - split; [split; intros H; discriminate |].
    split; [intros t Ht; injection Ht as <-; apply Hitems, Hrin |].
    split; [intros ty t0 Hty; discriminate |].
    intros _ t0 Ht0 Hp. eexists. split; [reflexivity |]. apply (Hrpick t0); assumption.
Qed.

Section DigTimeFacts.

Lemma entryOr_hardness (key : string) :
  ¬ In key inheritedNames →
  ∃ v, entryOr blockHardness key (1 # 1) = Some v
       ∧ In v [(1 # 2)%Q; (3 # 5)%Q; (1 # 1)%Q; (3 # 2)%Q; (2 # 1)%Q; (3 # 1)%Q].
Proof.
  intros Hown.
  assert (Hnot : existsb (String.eqb key) inheritedNames = false).
  { destruct (existsb (String.eqb key) inheritedNames) eqn:E; [| reflexivity].
    apply existsb_exists in E. destruct E as [k [Hk Heq]].
    apply String.eqb_eq in Heq. subst k. contradiction. }
  unfold entryOr, property. rewrite Hnot. unfold blockHardness. cbn [ownEntry].
  repeat match goal with
         | |- context [String.eqb key ?k] => destruct (String.eqb key k)
         end;
    eexists; (split; [reflexivity |]); cbn [In]; tauto.
Qed.

Lemma entryOr_inherited (table : list (string * Q)) (key : string) (fallback : Q) :
  ownEntry table key = None → In key inheritedNames → entryOr table key fallback = None.
Proof.
  intros Hown Hin. unfold entryOr, property. rewrite Hown.
  assert (Hex : existsb (String.eqb key) inheritedNames = true).
  { apply existsb_exists. exists key. split; [exact Hin | apply String.eqb_refl]. }
  rewrite Hex. reflexivity.
Qed.

Lemma lastMatch_multiplier (toolName : string) :
  In (lastMatch toolMultipliers (1 # 1) toolName)
     [(1 # 1)%Q; (2 # 1)%Q; (4 # 1)%Q; (6 # 1)%Q; (8 # 1)%Q; (9 # 1)%Q; (12 # 1)%Q].
Proof.
  unfold lastMatch, toolMultipliers. cbn [fold_left fst snd].
  repeat match goal with
         | |- context [includes ?m toolName] => destruct (includes m toolName)
         end; cbn [In]; tauto.
Qed.

(** X25: for a block whose name is not one of the property names a table
    inherits, whatever the held item, the dig time estimate lies between
    250 ms and 3 s, so the caller's fallback is not used, and the timeout
    the tree-mining loop derives, twice the estimate but at least 5 s, lies
    between 5 s and 6 s.  For a block named like an inherited property
    ([constructor], [toString], ...) the table lookup yields a function or
    an object, the estimate is NaN, the caller falls back to 5 s and the
    timeout is 10 s. *)
Theorem dig_time_bounds (block : Block) (heldItem : option Item) :
  (¬ In (blockName block) inheritedNames →
   ∃ estimate,
     getEstimatedDigTime block heldItem = Some estimate
     ∧ (250 # 1 <= estimate)%Q
     ∧ (estimate <= 3000 # 1)%Q
     ∧ digTimeout block heldItem = maxQ (estimate * (2 # 1))%Q (5000 # 1)
     ∧ (5000 # 1 <= digTimeout block heldItem)%Q
     ∧ (digTimeout block heldItem <= 6000 # 1)%Q)
  ∧ (In (blockName block) inheritedNames →
     getEstimatedDigTime block heldItem = None
     ∧ digTimeout block heldItem = 10000 # 1).
Proof.
  split.
  - intros Hown. unfold digTimeout, getEstimatedDigTime.
    destruct (entryOr_hardness (blockName block) Hown) as [baseTime [-> Hbase]].
    assert (Hmult : In match heldItem with
                       | Some item => lastMatch toolMultipliers (1 # 1) (lowerName item)
                       | None => (1 # 1)%Q
                       end
                       [(1 # 1)%Q; (2 # 1)%Q; (4 # 1)%Q; (6 # 1)%Q; (8 # 1)%Q; (9 # 1)%Q;
                        (12 # 1)%Q]).
    { destruct heldItem as [item |]; [apply lastMatch_multiplier | left; reflexivity]. }
    set (multiplier := match heldItem with
                       | Some item => lastMatch toolMultipliers (1 # 1) (lowerName item)
                       | None => (1 # 1)%Q
                       end) in *.
    clearbody multiplier.
    generalize (includes "log" (blockName block)). intros isLog.
    cbn [In] in Hbase, Hmult.
    destruct Hbase as [<- | [<- | [<- | [<- | [<- | [<- | []]]]]]];
      destruct Hmult as [<- | [<- | [<- | [<- | [<- | [<- | [<- | []]]]]]]];
      (eexists; split; [reflexivity |]);
      (split; [apply Qle_bool_iff; vm_compute; reflexivity |]);
      (split; [apply Qle_bool_iff; vm_compute; reflexivity |]);
      (split; [vm_compute; reflexivity |]);
      (split; apply Qle_bool_iff; vm_compute; reflexivity).
  - intros Hin.
    assert (Hnone : entryOr blockHardness (blockName block) (1 # 1) = None).
    { apply entryOr_inherited; [| exact Hin].
      cbn [In inheritedNames] in Hin.
      repeat (destruct Hin as [<- | Hin]; [reflexivity |]). destruct Hin. }
    unfold digTimeout, getEstimatedDigTime. rewrite Hnone.
    assert (Hlog : includes "log" (blockName block) = false).
    { cbn [In inheritedNames] in Hin.
      repeat (destruct Hin as [<- | Hin]; [vm_compute; reflexivity |]). destruct Hin. }
    rewrite Hlog. split; reflexivity.
Qed.

End DigTimeFacts.

(** * Further facts: the goal system from start-up on *)

Section FromStartUp.

Variable cfg : Config.t.

Lemma tick_goals (w : World) (s : GoalSelector) :
  goals (snd (Selector.tick cfg w s)) = goals s.
Proof.
  unfold Selector.tick.
  destruct (now w - Selector.lastTickTime s <? Config.tickInterval cfg); [reflexivity |].
  destruct (tickPass_fields w (activationPass cfg w (removalPass cfg w s))) as [_ [-> _]].
  destruct (activationPass_fields cfg w (removalPass cfg w s)) as [-> _].
  destruct (removalPass_fields cfg w s) as [-> _]. reflexivity.
Qed.

Lemma addGoal_registry (w : World) (r : GoalRef) (g : Goal) (s : GoalSelector) :
  goals (addGoal w r g s) ≡ₚ r :: goals s.
Proof.
  destruct (sortDesc_spec
              (fun x => getDynamicPriority w (sensorData s) (upd r g (heap s) x))
              (goals s ++ [r])%list) as [_ [Hp _]].
  unfold addGoal. cbn [goals]. rewrite Hp. symmetry. apply Permutation_cons_append.
Qed.

Lemma initial_registry (w0 : World) :
  goals (initializeGoalSystem w0) ≡ₚ [3%nat; 2%nat; 1%nat; 0%nat].
Proof.
  unfold initializeGoalSystem. rewrite !addGoal_registry. reflexivity.
Qed.

Lemma initial_goals_idle (w0 : World) (r : GoalRef) :
  isActive (heap (initializeGoalSystem w0) r) = false
  ∧ startTime (heap (initializeGoalSystem w0) r) = None.
Proof.
  unfold initializeGoalSystem, addGoal. cbn [heap]. unfold upd.
  destruct r as [| [| [| [| r]]]]; cbn [Nat.eqb]; split; reflexivity.
Qed.

(** X26: from the goal system [initializeGoalSystem] builds, with a capacity
    that is not negative, every scheduler tick ends with the registry holding
    the same four goals, an active set within the capacity, inside the
    registry and free of repetitions, every start timestamp set exactly while
    its goal is active, and no goal running outside the active set. *)
Theorem goal_system_from_start (w0 : World) (ws : list World) :
  0 <= Config.maxActiveGoals cfg →
  Forall (fun s => goals s = goals (initializeGoalSystem w0)
                   ∧ goals s ≡ₚ [3%nat; 2%nat; 1%nat; 0%nat]
                   ∧ activeSetOk cfg s
                   ∧ NoDup (activeGoals s)
                   ∧ storeOk s)
         (tickTrace cfg ws (initializeGoalSystem w0)).
Proof.
  intros Hcap.
  assert (Hgen : ∀ s, goals s = goals (initializeGoalSystem w0) →
                      activeSetOk cfg s → NoDup (activeGoals s) → storeOk s →
                      Forall (fun s => goals s = goals (initializeGoalSystem w0)
                                       ∧ goals s ≡ₚ [3%nat; 2%nat; 1%nat; 0%nat]
                                       ∧ activeSetOk cfg s
                                       ∧ NoDup (activeGoals s)
                                       ∧ storeOk s)
                             (tickTrace cfg ws s)).
  { induction ws as [| w ws IH]; intros s Hg Hok Hnd Hst; simpl;
      [apply Forall_nil; trivial |].
    assert (Hg' : goals (snd (Selector.tick cfg w s)) = goals (initializeGoalSystem w0))
      by (rewrite tick_goals; exact Hg).
    assert (Hreg : NoDup (goals s)).
    { rewrite Hg, initial_registry. apply (bool_decide_unpack _). reflexivity. }
    assert (Hok' := tick_ok cfg w s Hok).
    assert (Hnd' := tick_NoDup cfg w s Hreg Hnd).
    assert (Hst' := tick_storeOk cfg w s Hst).
    apply Forall_cons. split; [| apply IH; assumption].
    split; [exact Hg' |]. split; [rewrite Hg'; apply initial_registry |].
    split; [exact Hok' |]. split; assumption. }
  apply Hgen.
  - reflexivity.
  - split; [simpl; lia | intros r []].
  - apply NoDup_nil. trivial.
  - split.
    + intros r. destruct (initial_goals_idle w0 r) as [Ha Ht].
      unfold startTimeIffActive. rewrite Ha, Ht. split; [congruence | discriminate].
    + intros r Hr. destruct (initial_goals_idle w0 r) as [Ha _]. congruence.
Qed.

End FromStartUp.

(** * Instances of the further facts *)

Import Scenarios.

Lemma doAction_history_bounded_example :
  Z.of_nat (List.length (actionHistory
                           (snd (doAction CONFIG quietWorld gotoAction initialExecState))))
  <= Config.maxHistory CONFIG.
Proof.
  refine (proj1 (doAction_history_bounded CONFIG quietWorld gotoAction initialExecState _ _)).
  - vm_compute. discriminate.
  - vm_compute. discriminate.
Defined.


Lemma auto_mode_action_limit_example :
  executed (fst (cycles CONFIG [repliedWorld; repliedWorld] initialBotState)) = 0
  ∨ 2 * (executed (fst (cycles CONFIG [repliedWorld; repliedWorld] initialBotState)) - 1)
    + actionCount (exec initialBotState) < Config.maxActions CONFIG.
Proof.
  refine (proj1 (auto_mode_action_limit CONFIG [repliedWorld; repliedWorld]
                   initialBotState _)).
  repeat (apply Forall_cons; split; [vm_compute; discriminate |]).
  apply Forall_nil. trivial.
Defined.

Lemma undecided_cycle_changes_nothing_example :
  fst (executeLLMDecision CONFIG quietWorld initialBotState) = false
  ∧ exec (snd (executeLLMDecision CONFIG quietWorld initialBotState)) = initialExecState.
Proof.
  destruct (undecided_cycle_changes_nothing CONFIG quietWorld initialBotState)
    as [Hres [Hexec _]];
    [reflexivity | reflexivity | right; left; reflexivity |].
  split; [exact Hres | exact Hexec].
Defined.

Lemma override_precedes_policy_example :
  executeLLMDecision CONFIG repliedWorld afterThreeGotos
  = executeLLMDecision CONFIG quietWorld afterThreeGotos.
Proof.
  refine (proj1 (override_precedes_policy CONFIG quietWorld afterThreeGotos
                   (Some gotoAction) _ _ _ _ _)).
  - reflexivity.
  - reflexivity.
  - vm_compute. reflexivity.
  - reflexivity.
  - reflexivity.
Defined.

Lemma executed_action_is_recorded_example :
  prepare CONFIG repliedWorld initialBotState
  = Execute gotoAction (stateOf (prepare CONFIG repliedWorld initialBotState))
  ∧ lastLLMDecision (intel (stateOf (prepare CONFIG repliedWorld initialBotState)))
    = Some gotoAction.
Proof.
  assert (Hprep : prepare CONFIG repliedWorld initialBotState
                  = Execute gotoAction (stateOf (prepare CONFIG repliedWorld initialBotState)))
    by (vm_compute; reflexivity).
  split; [exact Hprep |].
  refine (proj1 (proj2 (executed_action_is_recorded CONFIG repliedWorld initialBotState
                          gotoAction _ _ Hprep))).
  vm_compute. discriminate.
Defined.

Lemma buffers_stay_bounded_example :
  buffersBounded CONFIG (snd (cycles CONFIG [repliedWorld; quietWorld] initialBotState)).
Proof.
  apply (buffers_stay_bounded CONFIG [repliedWorld; quietWorld] initialBotState).
  - vm_compute. discriminate.
  - vm_compute. discriminate.
  - repeat split; vm_compute; discriminate.
Defined.

Lemma policy_ignored_after_threshold_example :
  cycles CONFIG [repliedWorld] afterThreeGotos = cycles CONFIG [quietWorld] afterThreeGotos.
Proof.
  apply (policy_ignored_after_threshold CONFIG [quietWorld] [repliedWorld] afterThreeGotos).
  - reflexivity.
  - reflexivity.
  - vm_compute. discriminate.
  - vm_compute. discriminate.
  - unfold plainMemory.
    repeat (apply Forall_cons; split; [split; reflexivity |]). apply Forall_nil. trivial.
  - vm_compute. discriminate.
  - vm_compute. discriminate.
  - constructor; [exists (Some gotoAction); reflexivity | constructor].
Defined.

Lemma override_actions_executable_example :
  ∃ args, fst (doAction CONFIG woodedWorld (mineTreeAction oakLog) initialExecState)
          = actuate woodedWorld MINE_TREE args.
Proof.
  refine (proj1 (proj2 (proj2 (proj2
            (override_actions_executable CONFIG woodedWorld oakLog initialExecState _ _)))) _).
  - reflexivity.
  - intros p block. simpl.
    destruct ((px p =? 1) && (py p =? 64) && (pz p =? 0))%bool;
      [intros H; injection H as <-; reflexivity | discriminate].
  - vm_compute. left. reflexivity.
Defined.

(** The adjustment ["+2"] is joined to the priority 1 of the exploration
    goal as the text ["1+2"], which is no number. *)
Example string_adjustment_is_not_a_number :
  Registry.applyLLMRecommendations quietWorld (adviceFor (JStr "+2")) freshSelector
  = Registry.OffIntegers 3%nat NaN.
Proof. vm_compute. reflexivity. Qed.

(** The adjustment ["2"] makes the text ["12"], clamped to 10. *)
Example digit_string_adjustment_is_joined :
  Goals.priority
    (Selector.heap
       (selectorOf (Registry.applyLLMRecommendations quietWorld (adviceFor (JStr "2"))
                                                     freshSelector)
                   freshSelector) 3%nat) = 10.
Proof. vm_compute. reflexivity. Qed.

(** A null entry: the adjustment before it is applied, the one after it is
    not, and the registry keeps the order it had. *)
Example null_entry_ends_the_loop :
  let after := Registry.applyLLMRecommendations quietWorld adviceWithNull freshSelector in
  (∃ s', after = Registry.Finished (Threw Registry.readOfNull) s')
  ∧ Goals.priority (Selector.heap (selectorOf after freshSelector) 3%nat) = 3
  ∧ Goals.priority (Selector.heap (selectorOf after freshSelector) 1%nat) = 3
  ∧ Selector.goals (selectorOf after freshSelector) = Selector.goals freshSelector.
Proof.
  split; [eexists; vm_compute; reflexivity |]. repeat split; vm_compute; reflexivity.
Qed.

Lemma context_awareness_never_fires_example :
  shouldUseContextAwareDecision true CONFIG woodedWorld
    (intel (snd (cycles CONFIG [quietWorld] afterThreeGotos))) = false.
Proof.
  apply (context_awareness_never_fires CONFIG true [quietWorld] woodedWorld afterThreeGotos).
  unfold plainMemory.
  repeat (apply Forall_cons; split; [split; reflexivity |]). apply Forall_nil. trivial.
Defined.

Lemma running_goals_are_listed_example :
  Forall storeOk (tickTrace CONFIG [quietWorld; atTime 40000 quietWorld] freshSelector).
Proof.
  apply (running_goals_are_listed CONFIG [quietWorld; atTime 40000 quietWorld] freshSelector).
  split; intros r; destruct (initial_goals_idle quietWorld r) as [Ha Ht].
  - unfold startTimeIffActive, freshSelector. rewrite Ha, Ht.
    split; [congruence | discriminate].
  - unfold freshSelector. rewrite Ha. discriminate.
Defined.

Lemma scheduler_rate_limit_example :
  Selector.tick CONFIG (atTime 1050 quietWorld) exploringSelector
  = (Completed, exploringSelector).
Proof.
  apply (scheduler_rate_limit CONFIG quietWorld (atTime 1050 quietWorld) freshSelector).
  - vm_compute. discriminate.
  - vm_compute. reflexivity.
Defined.

Lemma shelter_is_built_once_example :
  buildingPhase (ticks fourTicks newBuildShelterGoal) = complete
  ∧ isActive (ticks fourTicks newBuildShelterGoal) = false
  ∧ startTime (ticks fourTicks newBuildShelterGoal) = None.
Proof.
  refine (proj2 (proj1 (shelter_is_built_once fourTicks newBuildShelterGoal _) _) _).
  - reflexivity.
  - reflexivity.
  - simpl. lia.
Defined.

Lemma goal_system_from_start_example :
  Forall (fun s => goals s = goals (initializeGoalSystem quietWorld)
                   ∧ goals s ≡ₚ [3%nat; 2%nat; 1%nat; 0%nat]
                   ∧ activeSetOk CONFIG s
                   ∧ NoDup (activeGoals s)
                   ∧ storeOk s)
         (tickTrace CONFIG [quietWorld; atTime 40000 quietWorld]
                    (initializeGoalSystem quietWorld)).
Proof.
  apply (goal_system_from_start CONFIG quietWorld [quietWorld; atTime 40000 quietWorld]).
  vm_compute. discriminate.
Defined.
